(** * zdfs: preparation of overlaybd backing-store descriptors

    A shallow embedding of [zdfs.go] (package [zdfs]).  The Go functions are
    written as programs over a small instruction set of filesystem
    operations; the programs are then given three readings: a run to
    completion, a run cut short after a number of operations, and an
    interleaving of two runs.  Logging calls ([logrus]) have no effect on
    results or on the filesystem and are left out. *)

From Stdlib Require Import ZArith Lia Ascii String FunctionalExtensionality.
From stdpp Require Import base list option strings gmap pretty.

Local Open Scope string_scope.

(** ** Go string helpers (package [strings]) *)

Module GoStrings.

Definition newline : string := String (ascii_of_nat 10) EmptyString.

Definition in_cutset (cutset : string) (c : ascii) : bool :=
  existsb (Ascii.eqb c) (list_ascii_of_string cutset).

Fixpoint TrimLeft (cutset s : string) : string :=
  match s with
  | String c s' => if in_cutset cutset c then TrimLeft cutset s' else s
  | EmptyString => EmptyString
  end.

Definition TrimRight (cutset s : string) : string :=
  String.rev (TrimLeft cutset (String.rev s)).

(** [strings.Trim(s, cutset)]. *)
Definition Trim (s cutset : string) : string :=
  TrimRight cutset (TrimLeft cutset s).

(** [strings.HasPrefix(s, prefix)]. *)
Definition HasPrefix (s prefix : string) : bool := String.prefix prefix s.

(** [strings.LastIndex(s, "/")] for a one-byte separator: the index of the
    last occurrence, or [-1]. *)
Fixpoint LastIndexByte_from (i : Z) (found : Z) (sep : ascii) (s : string) : Z :=
  match s with
  | EmptyString => found
  | String c s' =>
      LastIndexByte_from (i + 1) (if Ascii.eqb c sep then i else found) sep s'
  end.

Definition LastIndexByte (s : string) (sep : ascii) : Z :=
  LastIndexByte_from 0 (-1) sep s.

(** Slices [s[lo:]] and [s[:hi]] for indices already known to be in range. *)
Definition slice_from (s : string) (lo : Z) : string :=
  String.substring (Z.to_nat lo) (String.length s - Z.to_nat lo) s.

Definition slice_to (s : string) (hi : Z) : string :=
  String.substring 0 (Z.to_nat hi) s.

(** The last byte of a string, [s[len(s)-1]]. *)
Fixpoint last_byte (s : string) : option ascii :=
  match s with
  | EmptyString => None
  | String c EmptyString => Some c
  | String _ s' => last_byte s'
  end.

Fixpoint split_on (sep : ascii) (s : string) : list string :=
  match s with
  | EmptyString => [EmptyString]
  | String c s' =>
      if Ascii.eqb c sep then EmptyString :: split_on sep s'
      else match split_on sep s' with
           | [] => [String c EmptyString]
           | w :: ws => String c w :: ws
           end
  end.

End GoStrings.

(** ** Go package [path] *)

Module GoPath.
Import GoStrings.

Definition slash : ascii := "/"%char.

Definition is_rooted (p : string) : bool :=
  match p with
  | String c _ => Ascii.eqb c slash
  | EmptyString => false
  end.

(** One step of [path.Clean]'s scan over the components of a path; [out] is
    the cleaned prefix, most recent component first. *)
Definition clean_step (rooted : bool) (out : list string) (comp : string)
  : list string :=
  if String.eqb comp EmptyString then out
  else if String.eqb comp "." then out
  else if String.eqb comp ".." then
    match out with
    | top :: rest =>
        if String.eqb top ".." then comp :: out else rest
    | [] => if rooted then [] else [comp]
    end
  else comp :: out.

(** [path.Clean]. *)
Definition Clean (p : string) : string :=
  if String.eqb p EmptyString then "."
  else
    let rooted := is_rooted p in
    let out := fold_left (clean_step rooted) (split_on slash p) [] in
    let body := String.concat "/" (rev out) in
    if rooted then "/" +:+ body
    else if String.eqb body EmptyString then "." else body.

(** [path.Join]: empty elements are ignored, the rest are joined with a
    slash and the result is cleaned; no non-empty element gives the empty string. *)
Definition Join (elem : list string) : string :=
  match filter (fun e => e ≠ EmptyString) elem with
  | [] => EmptyString
  | es => Clean (String.concat "/" es)
  end.

(** [path.Dir]: everything up to and including the final slash, cleaned. *)
Definition Dir (p : string) : string :=
  Clean (slice_to p (LastIndexByte p slash + 1)).

(** [filepath.Base]: the last element of a path, trailing slashes left
    out; a dot for the empty path, a slash for a path of slashes only. *)
Definition Base (p : string) : string :=
  if String.eqb p EmptyString then "."
  else match filter (fun e => e ≠ EmptyString) (split_on slash p) with
       | [] => "/"
       | c :: cs => List.last cs c
       end.

End GoPath.

(** ** Errors *)

Inductive errno := ENOENT | EACCES | EISDIR | ENOTDIR | EEXIST | EINVAL.

(** Go [error] values met in this package.  [Errorf] keeps the format string
    and the arguments instead of the rendered text. *)
Inductive error :=
| PathError (op : string) (path : string) (e : errno)
| LinkError (op : string) (old new : string) (e : errno)
| NumError (func : string) (num : string) (out_of_range : bool)
| LibError (pkg : string) (msg : string)
| Errorf (format : string) (args : list fmt_arg)
| Wrapf (cause : error) (format : string) (args : list fmt_arg)
with fmt_arg :=
| ArgS (s : string)
| ArgE (e : error).

(** [os.IsNotExist]. *)
Definition os_IsNotExist (err : error) : bool :=
  match err with
  | PathError _ _ ENOENT => true
  | LinkError _ _ _ ENOENT => true
  | _ => false
  end.

(** ** The filesystem *)

(** What a path names.  [NDenied] stands for an entry whose inspection
    fails with an error other than "does not exist" (permission denied). *)
Inductive node :=
| NFile (data : string)
| NDir
| NDenied.

Inductive mutation :=
| MWriteFile (path : string)
| MMkdir (path : string)
| MRename (old new : string)
| MAtomicWrite (path : string)
| MTempFile (path : string).

(** The state the programs run in: the files, the supply of random name
    suffixes for temporary names, and a journal of the mutations done so
    far. *)
Record World := mkWorld {
  files : gmap string node;
  rng : list string;
  journal : list mutation
}.

Module OS.

(** Paths are looked up by their cleaned form. *)
Definition key (p : string) : string := GoPath.Clean p.

(** The error number for a path [k] at which nothing is.  The directories
    on the way to [k] are looked at from the nearest one upwards, and the
    first that is there decides: below a regular file the answer is
    [ENOTDIR], below an entry that cannot be examined [EACCES], else
    [ENOENT]. *)
Fixpoint missing_from (fs : gmap string node) (fuel : nat) (k : string)
  : errno :=
  match fuel with
  | O => ENOENT
  | S fuel' =>
      let d := GoPath.Dir k in
      if String.eqb d k then ENOENT
      else match fs !! d with
           | Some (NFile _) => ENOTDIR
           | Some NDenied => EACCES
           | Some NDir => ENOENT
           | None => missing_from fs fuel' d
           end
  end.

Definition missing (w : World) (k : string) : errno :=
  missing_from (files w) (String.length k) k.

(** [os.Stat]. *)
Definition stat (w : World) (p : string) : option error :=
  match files w !! key p with
  | None => Some (PathError "stat" p (missing w (key p)))
  | Some NDenied => Some (PathError "stat" p EACCES)
  | Some _ => None
  end.

(** [os.ReadFile]. *)
Definition read_file (w : World) (p : string) : error + string :=
  match files w !! key p with
  | Some (NFile data) => inr data
  | Some NDir => inl (PathError "read" p EISDIR)
  | Some NDenied => inl (PathError "open" p EACCES)
  | None => inl (PathError "open" p (missing w (key p)))
  end.

(** Whether a new entry may be made at [k]: its directory must be there. *)
Definition parent_errno (w : World) (k : string) : option errno :=
  match files w !! GoPath.Dir k with
  | Some NDir => None
  | Some (NFile _) => Some ENOTDIR
  | Some NDenied => Some EACCES
  | None => Some (missing w (GoPath.Dir k))
  end.

Definition put (w : World) (k : string) (n : node) (m : mutation) : World :=
  mkWorld (<[k := n]> (files w)) (rng w) (journal w ++ [m]).

(** [os.WriteFile]. *)
Definition write_file (w : World) (p data : string) : option error * World :=
  match files w !! key p with
  | Some NDir => (Some (PathError "open" p EISDIR), w)
  | Some NDenied => (Some (PathError "open" p EACCES), w)
  | _ =>
      match parent_errno w (key p) with
      | Some e => (Some (PathError "open" p e), w)
      | None => (None, put w (key p) (NFile data) (MWriteFile (key p)))
      end
  end.

(** The names [os.MkdirTemp] and [os.CreateTemp] try, for a pattern
    without [*]: the directory, a slash, the pattern and a random suffix; a
    name already taken is retried with the next suffix. *)
Definition temp_name (dir pattern suffix : string) : string :=
  let dir := if String.eqb dir EmptyString then "/tmp" else dir in
  if match GoStrings.last_byte dir with
     | Some c => Ascii.eqb c "/"
     | None => false
     end
  then dir +:+ (pattern +:+ suffix)
  else dir +:+ String "/" (pattern +:+ suffix).

Fixpoint temp_try (op : string) (fs : gmap string node) (dir pattern : string)
    (suffixes : list string) : (error + string) * list string :=
  match suffixes with
  | [] => (inl (PathError op (temp_name dir pattern "*") EEXIST), [])
  | sfx :: rest =>
      let name := temp_name dir pattern sfx in
      match fs !! key name with
      | Some _ => temp_try op fs dir pattern rest
      | None => (inr name, rest)
      end
  end.

(** [os.MkdirTemp].  When the directory cannot be made because something
    on the way is not there, the error returned is the one of [os.Stat] on
    [dir], if that says so too. *)
Definition mkdir_temp (w : World) (dir pattern : string)
  : (error + string) * World :=
  match temp_try "mkdirtemp" (files w) dir pattern (rng w) with
  | (inl e, rest) => (inl e, mkWorld (files w) rest (journal w))
  | (inr name, rest) =>
      match parent_errno w (key name) with
      | Some e =>
          let err :=
            match e, stat w dir with
            | ENOENT, Some se =>
                if os_IsNotExist se then se else PathError "mkdir" name e
            | _, _ => PathError "mkdir" name e
            end in
          (inl err, mkWorld (files w) rest (journal w))
      | None =>
          (inr name,
           mkWorld (<[key name := NDir]> (files w)) rest
                   (journal w ++ [MMkdir (key name)]))
      end
  end.

(** The temporary file of [continuity.AtomicWriteFile] for [p] and a
    suffix: [.tmp-] and the base name of [p], in the directory of [p]. *)
Definition atomic_temp (p suffix : string) : string :=
  temp_name (GoPath.Dir p) (".tmp-" +:+ GoPath.Base p) suffix.

(** [continuity.AtomicWriteFile]: the data is written to a temporary file
    in the directory of [p], which is then renamed onto [p].  The two
    together are one step here.  When the temporary file cannot be made,
    nothing changes; when the rename fails, because [p] is a directory or
    cannot be examined, the temporary file stays.  The suffix of its name is
    the first of the supply whose name is free; it is not used up. *)
Definition atomic_write_file (w : World) (p data : string)
  : option error * World :=
  match (temp_try "createtemp" (files w) (GoPath.Dir p)
           (".tmp-" +:+ GoPath.Base p) (rng w)).1 with
  | inl e => (Some e, w)
  | inr tmp =>
      match parent_errno w (key p) with
      | Some e => (Some (PathError "open" tmp e), w)
      | None =>
          match files w !! key p with
          | Some NDir =>
              (Some (LinkError "rename" tmp p EEXIST),
               put w (key tmp) (NFile data) (MTempFile (key tmp)))
          | Some NDenied =>
              (Some (LinkError "rename" tmp p EACCES),
               put w (key tmp) (NFile data) (MTempFile (key tmp)))
          | _ => (None, put w (key p) (NFile data) (MAtomicWrite (key p)))
          end
      end
  end.

(** [k] lies strictly below directory [d]. *)
Definition below (d k : string) : bool :=
  String.prefix (if String.eqb d "/" then d else d +:+ "/") k
  && negb (String.eqb k d).

(** The entry at [old], with everything below it, moved to [new]. *)
Definition rebase (old new k : string) : string :=
  new +:+ GoStrings.slice_from k (Z.of_nat (String.length old)).

Definition move_tree (fs : gmap string node) (old new : string)
  : gmap string node :=
  let moving k := orb (String.eqb k old) (below old k) in
  let moved : list (string * node) :=
    omap (fun kv : string * node =>
            if moving kv.1 then Some (rebase old new kv.1, kv.2) else None)
         (map_to_list fs) in
  let kept : list (string * node) :=
    omap (fun kv : string * node =>
            if moving kv.1 then None else Some kv)
         (map_to_list fs) in
  list_to_map (moved ++ kept).

Definition is_dir (n : option node) : bool :=
  match n with
  | Some NDir => true
  | _ => false
  end.

(** [os.Rename].  Go looks at the new name first: when it is a directory
    that is there, the rename is refused with [EEXIST] (or with the error of
    looking at the old name), unless both names are different spellings of
    the same entry.  Otherwise the system call decides: the old name must be
    there, the directory of the new name too, a directory does not go onto a
    regular file nor below itself, and a regular file at the new name is
    replaced. *)
Definition rename (w : World) (old new : string) : option error * World :=
  let ko := key old in
  let kn := key new in
  let fail e := (Some (LinkError "rename" old new e), w) in
  let ok := (None, mkWorld (move_tree (files w) ko kn) (rng w)
                           (journal w ++ [MRename ko kn])) in
  if is_dir (files w !! kn)
     && (String.eqb new old || negb (String.eqb kn ko))
  then
    match files w !! ko with
    | None => fail (missing w ko)
    | Some NDenied => fail EACCES
    | Some _ => fail EEXIST
    end
  else
    match files w !! ko with
    | None => fail (missing w ko)
    | Some NDenied => fail EACCES
    | Some src =>
        match parent_errno w kn with
        | Some e => fail e
        | None =>
            match files w !! kn, src with
            | Some NDenied, _ => fail EACCES
            | Some (NFile _), NDir => fail ENOTDIR
            | _, _ => if below ko kn then fail EINVAL else ok
            end
        end
    end.

End OS.

(** ** Programs over the filesystem *)

Inductive Prog (A : Type) : Type :=
| Ret (a : A)
| Panic (msg : string)
| Stat (p : string) (k : option error -> Prog A)
| ReadFile (p : string) (k : error + string -> Prog A)
| WriteFile (p data : string) (k : option error -> Prog A)
| MkdirTemp (dir pattern : string) (k : error + string -> Prog A)
| Rename (old new : string) (k : option error -> Prog A)
| AtomicWriteFile (p data : string) (k : option error -> Prog A).

Arguments Ret {A} a.
Arguments Panic {A} msg.
Arguments Stat {A} p k.
Arguments ReadFile {A} p k.
Arguments WriteFile {A} p data k.
Arguments MkdirTemp {A} dir pattern k.
Arguments Rename {A} old new k.
Arguments AtomicWriteFile {A} p data k.

Fixpoint bind {A B : Type} (m : Prog A) (f : A -> Prog B) : Prog B :=
  match m with
  | Ret a => f a
  | Panic msg => Panic msg
  | Stat p k => Stat p (fun r => bind (k r) f)
  | ReadFile p k => ReadFile p (fun r => bind (k r) f)
  | WriteFile p d k => WriteFile p d (fun r => bind (k r) f)
  | MkdirTemp d pat k => MkdirTemp d pat (fun r => bind (k r) f)
  | Rename o n k => Rename o n (fun r => bind (k r) f)
  | AtomicWriteFile p d k => AtomicWriteFile p d (fun r => bind (k r) f)
  end.

#[global] Instance Prog_ret : MRet Prog := fun A a => Ret a.
#[global] Instance Prog_bind : MBind Prog := fun A B f m => bind m f.

(** The outcome of a run: a value, or a Go run-time panic. *)
Inductive outcome (A : Type) : Type :=
| Done (a : A)
| Panicked (msg : string).

Arguments Done {A} a.
Arguments Panicked {A} msg.

(** One operation of a program. *)
Definition step {A : Type} (m : Prog A) (w : World) : Prog A * World :=
  match m with
  | Ret a => (Ret a, w)
  | Panic msg => (Panic msg, w)
  | Stat p k => (k (OS.stat w p), w)
  | ReadFile p k => (k (OS.read_file w p), w)
  | WriteFile p d k => let '(r, w') := OS.write_file w p d in (k r, w')
  | MkdirTemp d pat k => let '(r, w') := OS.mkdir_temp w d pat in (k r, w')
  | Rename o n k => let '(r, w') := OS.rename w o n in (k r, w')
  | AtomicWriteFile p d k =>
      let '(r, w') := OS.atomic_write_file w p d in (k r, w')
  end.

(** A run to completion. *)
Fixpoint run {A : Type} (m : Prog A) (w : World) : outcome A * World :=
  match m with
  | Ret a => (Done a, w)
  | Panic msg => (Panicked msg, w)
  | Stat p k => run (k (OS.stat w p)) w
  | ReadFile p k => run (k (OS.read_file w p)) w
  | WriteFile p d k => let '(r, w') := OS.write_file w p d in run (k r) w'
  | MkdirTemp d pat k => let '(r, w') := OS.mkdir_temp w d pat in run (k r) w'
  | Rename o n k => let '(r, w') := OS.rename w o n in run (k r) w'
  | AtomicWriteFile p d k =>
      let '(r, w') := OS.atomic_write_file w p d in run (k r) w'
  end.

(** A run that is cut off (the process dies) once [n] operations are done:
    what is left of the program, and the state left behind. *)
Fixpoint run_upto {A : Type} (n : nat) (m : Prog A) (w : World)
  : Prog A * World :=
  match n with
  | O => (m, w)
  | S n' => let '(m', w') := step m w in run_upto n' m' w'
  end.

(** Two programs run by two goroutines: the schedule says whose operation
    comes next ([true] for the first); when it runs out, the first program
    runs to its end and then the second. *)
Fixpoint interleave {A B : Type} (sched : list bool) (m1 : Prog A) (m2 : Prog B)
    (w : World) : (outcome A * outcome B) * World :=
  match sched with
  | [] =>
      let '(o1, w1) := run m1 w in
      let '(o2, w2) := run m2 w1 in
      ((o1, o2), w2)
  | true :: sched' =>
      let '(m1', w') := step m1 w in interleave sched' m1' m2 w'
  | false :: sched' =>
      let '(m2', w') := step m2 w in interleave sched' m1 m2' w'
  end.

(** ** Numbers *)

Module strconv.

Definition maxUint64 : Z := 2 ^ 64 - 1.

Definition digit_of (c : ascii) : option Z :=
  let n := Z.of_nat (nat_of_ascii c) in
  if (48 <=? n)%Z && (n <=? 57)%Z then Some (n - 48)%Z else None.

(** The scan of [strconv.ParseUint(s, 10, 64)]: a byte that is no decimal
    digit is a syntax error, a value past [maxUint64] a range error, and the
    first of the two met from the left decides. *)
Fixpoint parse_from (orig : string) (n : Z) (s : string) : Z * option error :=
  match s with
  | EmptyString => (n, None)
  | String c s' =>
      match digit_of c with
      | None => (0%Z, Some (NumError "ParseUint" orig false))
      | Some d =>
          if (maxUint64 <? n * 10 + d)%Z
          then (maxUint64, Some (NumError "ParseUint" orig true))
          else parse_from orig (n * 10 + d)%Z s'
      end
  end.

Definition ParseUint (s : string) : Z * option error :=
  if String.eqb s EmptyString then (0%Z, Some (NumError "ParseUint" s false))
  else parse_from s 0 s.

End strconv.

(** The conversion [int64(size)] of a [uint64]: values from [2^63] on wrap
    around to the negative numbers. *)
Definition int64_of_uint64 (z : Z) : Z :=
  if (z <? 2 ^ 63)%Z then z else (z - 2 ^ 64)%Z.

(** ** Types of the collaborating packages *)

Module types.

(** Modelled from the spec: the descriptor types [OverlayBDBSConfig] and
    [OverlayBDBSConfigLower] of package [pkg/types], which is imported by
    [zdfs.go] and not part of the sources; the fields are those of the
    descriptor JSON shape. *)
Record OverlayBDBSConfigLower := mkLower {
  File : string;
  Digest : string;
  Size : Z;
  Dir : string
}.

Record OverlayBDBSConfig := mkConfig {
  RepoBlobURL : string;
  Lowers : list OverlayBDBSConfigLower;
  ResultFile : string;
  RecordTracePath : string
}.

Definition set_RecordTracePath (p : string) (c : OverlayBDBSConfig)
  : OverlayBDBSConfig :=
  mkConfig (RepoBlobURL c) (Lowers c) (ResultFile c) p.

End types.

Module reference.

(** A parsed image reference of package [distribution/reference]: the
    registry host, the repository path, and the tag and digest if any. *)
Record Named := mkNamed {
  domain : string;
  path : string;
  tag : string;
  digest : string
}.

Definition Domain (n : Named) : string := domain n.
Definition Path (n : Named) : string := path n.

(** [reference.TrimNamed]: the name without tag and digest. *)
Definition TrimNamed (n : Named) : Named :=
  mkNamed (domain n) (path n) EmptyString EmptyString.

End reference.

Module storage.

(** The part of containerd's [storage.Snapshot] read here.  [ParentIDs]
    lists the parents from the nearest one to the oldest ancestor. *)
Record Snapshot := mkSnapshot {
  ID : string;
  ParentIDs : list string
}.

End storage.

(** The functions of other packages that the code calls and whose bodies
    are outside this package: the JSON codec at the descriptor type, the
    image-reference parser, and the snapshot lookup. *)
Class Collaborators := {
  json_Marshal : types.OverlayBDBSConfig -> error + string;
  json_Unmarshal : string -> error + types.OverlayBDBSConfig;
  reference_ParseNamed : string -> error + reference.Named;
  storage_GetSnapshot : string -> storage.Snapshot * option error
}.

(** ** Package [zdfs] *)

Definition zdfsMetaDir := "zdfsmeta".
Definition iNewFormat := ".aaaaaaaaaaaaaaaa.lsmt".
Definition zdfsChecksumFile := ".checksum_file".
Definition zdfsOssurlFile := ".oss_url".
Definition zdfsOssDataSizeFile := ".data_size".
Definition zdfsOssTypeFile := ".type".
Definition zdfsTrace := ".trace".
Definition overlaybdBaseLayer := "/opt/overlaybd/baselayers/.commit".

Definition pathExists (path : string) : Prog (bool * option error) :=
  Stat path (fun err =>
    match err with
    | None => Ret (true, None)
    | Some e =>
        if os_IsNotExist e then Ret (false, None) else Ret (false, Some e)
    end).

Fixpoint hasOverlaybdBlobRef_range (dir : string) (fileNames : list string)
  : Prog (bool * option error) :=
  match fileNames with
  | [] => Ret (true, None)
  | name :: rest =>
      let fullPath := GoPath.Join [dir; name] in
      '(b, err) ← pathExists fullPath;
      match err with
      | Some e =>
          Ret (false,
               Some (Errorf "LSMD ERROR failed to check if %s exists. err:%s"
                            [ArgS fullPath; ArgE e]))
      | None =>
          if negb b then Ret (false, None)
          else hasOverlaybdBlobRef_range dir rest
      end
  end.

Definition hasOverlaybdBlobRef (dir : string) : Prog (bool * option error) :=
  hasOverlaybdBlobRef_range dir
    [iNewFormat; zdfsChecksumFile; zdfsOssurlFile; zdfsOssDataSizeFile;
     zdfsOssTypeFile].

Definition overlaybdConfPath (dir : string) : string :=
  GoPath.Join [dir; "block"; "config.v1.json"].

Definition overlaybdInitDebuglogPath (dir : string) : string :=
  GoPath.Join [dir; zdfsMetaDir; "init-debug.log"].

Definition isOverlaybdLayer (dir : string) : Prog (bool * option error) :=
  '(exists_, _) ← pathExists (overlaybdConfPath dir);
  if (exists_ : bool) then Ret (true, None)
  else
    '(b, err) ← hasOverlaybdBlobRef (GoPath.Join [dir; "fs"]);
    match err with
    | Some e =>
        Ret (false,
             Some (Errorf "LSMD ERROR failed to IsZdfsLayerInApplyDiff(dir%s), err:%s"
                          [ArgS dir; ArgE e]))
    | None => Ret (b, None)
    end.

Definition getTrimStringFromFile (filePath : string)
  : Prog (string * option error) :=
  ReadFile filePath (fun r =>
    match r with
    | inl e => Ret (EmptyString, Some e)
    | inr data => Ret (GoStrings.Trim data (" " +:+ GoStrings.newline), None)
    end).

Definition GetBlobRepoDigest (dir : string)
  : Prog (string * string * option error) :=
  '(url, err) ← getTrimStringFromFile (GoPath.Join [dir; zdfsOssurlFile]);
  match err with
  | Some e => Ret (EmptyString, EmptyString, Some e)
  | None =>
      let idx := GoStrings.LastIndexByte url "/" in
      if negb (GoStrings.HasPrefix (GoStrings.slice_from url (idx + 1)) "sha256")
      then Ret (EmptyString, EmptyString,
                Some (Errorf "can't parse sha256 from url %s" [ArgS url]))
      else if (idx <? 0)%Z
      then Panic "slice bounds out of range [:-1]"
      else Ret (GoStrings.slice_to url idx, GoStrings.slice_from url (idx + 1), None)
  end.

Definition GetBlobSize (dir : string) : Prog (Z * option error) :=
  '(str, err) ← getTrimStringFromFile (GoPath.Join [dir; zdfsOssDataSizeFile]);
  match err with
  | Some e => Ret (0%Z, Some e)
  | None => Ret (strconv.ParseUint str)
  end.

Section Zdfs.
Context `{Collaborators}.

Definition constructImageBlobURL (ref : string) : string * option error :=
  match reference_ParseNamed ref with
  | inl err => (EmptyString, Some (Wrapf err "invalid repo url %s" [ArgS ref]))
  | inr refspec =>
      let host := reference.Domain refspec in
      let repo := reference.Path (reference.TrimNamed refspec) in
      ("https://" +:+ GoPath.Join [host; "v2"; repo] +:+ "/blobs", None)
  end.

Definition loadBackingStoreConfig (dir : string)
  : Prog (error + types.OverlayBDBSConfig) :=
  let confPath := overlaybdConfPath dir in
  ReadFile confPath (fun r =>
    match r with
    | inl err =>
        Ret (inl (Wrapf err "failed to read config(path=%s) of snapshot %s"
                        [ArgS confPath; ArgS dir]))
    | inr data =>
        match json_Unmarshal data with
        | inl err =>
            Ret (inl (Wrapf err "failed to unmarshal data(%s)" [ArgS data]))
        | inr configJSON => Ret (inr configJSON)
        end
    end).

Definition atomicWriteOverlaybdTargetConfig (dir : string)
    (configJSON : types.OverlayBDBSConfig) : Prog (option error) :=
  match json_Marshal configJSON with
  | inl err =>
      Ret (Some (Wrapf err "failed to marshal %+v configJSON into JSON" []))
  | inr data =>
      let confPath := overlaybdConfPath dir in
      AtomicWriteFile confPath data (fun r =>
        match r with
        | Some err =>
            Ret (Some (Wrapf err "failed to commit the overlaybd config on %s"
                             [ArgS confPath]))
        | None => Ret None
        end)
  end.

Definition updateSpec (dir recordTracePath : string) : Prog (option error) :=
  r ← loadBackingStoreConfig dir;
  match r with
  | inl err => Ret (Some err)
  | inr bsConfig =>
      if String.eqb recordTracePath (types.RecordTracePath bsConfig)
      then Ret None
      else atomicWriteOverlaybdTargetConfig dir
             (types.set_RecordTracePath recordTracePath bsConfig)
  end.

Definition constructSpec (dir parent repo digest : string) (size : Z)
    (recordTracePath : string) : Prog (option error) :=
  let resultFile := overlaybdInitDebuglogPath dir in
  let own :=
    types.mkLower EmptyString digest (int64_of_uint64 size)
                  (GoPath.Join [dir; "block"]) in
  if String.eqb parent EmptyString then
    atomicWriteOverlaybdTargetConfig dir
      (types.mkConfig repo
         (([] ++ [types.mkLower overlaybdBaseLayer EmptyString 0 EmptyString])
          ++ [own])
         resultFile recordTracePath)
  else
    r ← loadBackingStoreConfig parent;
    match r with
    | inl err => Ret (Some err)
    | inr parentConfJSON =>
        let repoBlobURL :=
          if String.eqb repo EmptyString
          then types.RepoBlobURL parentConfJSON else repo in
        atomicWriteOverlaybdTargetConfig dir
          (types.mkConfig repoBlobURL (types.Lowers parentConfJSON ++ [own])
                          resultFile recordTracePath)
    end.

Fixpoint copyPulledZdfsMetaFiles_range (srcDir dstDir : string)
    (fileNames : list string) : Prog (option error) :=
  match fileNames with
  | [] => Ret None
  | name :: rest =>
      let srcPath := GoPath.Join [srcDir; name] in
      Stat srcPath (fun err =>
        if match err with Some e => os_IsNotExist e | None => false end
        then copyPulledZdfsMetaFiles_range srcDir dstDir rest
        else
          ReadFile srcPath (fun r =>
            match r with
            | inl e => Ret (Some e)
            | inr data =>
                WriteFile (GoPath.Join [dstDir; name]) data (fun werr =>
                  match werr with
                  | Some e => Ret (Some e)
                  | None => copyPulledZdfsMetaFiles_range srcDir dstDir rest
                  end)
            end))
  end.

Definition copyPulledZdfsMetaFiles (srcDir dstDir : string)
  : Prog (option error) :=
  copyPulledZdfsMetaFiles_range srcDir dstDir
    [iNewFormat; zdfsChecksumFile; zdfsOssurlFile; zdfsOssDataSizeFile;
     zdfsOssTypeFile; zdfsTrace].

(** The closure [makeConfig] of [PrepareOverlayBDSpec]. *)
Definition makeConfig (dir parent : string) : Prog (option error) :=
  let dstDir := GoPath.Join [dir; "block"] in
  '(repo, digest, err) ← GetBlobRepoDigest dstDir;
  match err with
  | Some e => Ret (Some e)
  | None =>
      let refPath := GoPath.Join [dir; GoPath.Join [dir; "image_ref"]] in
      '(b, _) ← pathExists refPath;
      repo ← (if (b : bool) then
                ReadFile refPath (fun r =>
                  let imageRef :=
                    match r with inr img => img | inl _ => EmptyString end in
                  Ret (constructImageBlobURL imageRef).1)
              else Ret repo);
      '(size, _) ← GetBlobSize dstDir;
      constructSpec dir parent repo digest size EmptyString
  end.

(** The closure [doDir] of [PrepareOverlayBDSpec]. *)
Definition doDir (dir parent : string) : Prog (option error) :=
  let dstDir := GoPath.Join [dir; zdfsMetaDir] in
  '(b, err) ← pathExists dstDir;
  match err with
  | Some e => Ret (Some e)
  | None =>
      if (b : bool) then
        let configPath := overlaybdConfPath dir in
        '(configExists, err) ← pathExists configPath;
        match err with
        | Some e => Ret (Some e)
        | None =>
            if (configExists : bool) then updateSpec dir EmptyString
            else makeConfig dir parent
        end
      else
        '(b, _) ← pathExists (GoPath.Join [dir; "block"; "config.v1.json"]);
        if (b : bool) then Ret None
        else
          MkdirTemp dir "temp_for_prepare_dadimeta" (fun r =>
            match r with
            | inl e => Ret (Some e)
            | inr tmpDir =>
                let srcDir := GoPath.Join [dir; "fs"] in
                err ← copyPulledZdfsMetaFiles srcDir tmpDir;
                match err with
                | Some e => Ret (Some e)
                | None =>
                    let blockDir := GoPath.Join [dir; "block"] in
                    err ← copyPulledZdfsMetaFiles srcDir blockDir;
                    match err with
                    | Some e => Ret (Some e)
                    | None =>
                        Rename tmpDir dstDir (fun err =>
                          match err with
                          | Some e => Ret (Some e)
                          | None => makeConfig dir parent
                          end)
                    end
                end
            end)
  end.

(** The loop of [PrepareOverlayBDSpec] over [m = 0 .. num-1], here over the
    list of the values of [m] still to come, around any per-directory
    procedure. *)
Fixpoint walk_from (per_dir : string -> string -> Prog (option error))
    (lowers : list string) (last_dir : string)
    (ms : list nat) (parent : string) : Prog (bool * option error) :=
  match ms with
  | [] => err ← per_dir last_dir parent; Ret (true, err)
  | m :: ms' =>
      let dir := nth (length lowers - m - 1) lowers EmptyString in
      err ← per_dir dir parent;
      match err with
      | Some e => Ret (true, Some e)
      | None => walk_from per_dir lowers last_dir ms' dir
      end
  end.

Definition PrepareOverlayBDSpec_with
    (per_dir : string -> string -> Prog (option error))
    (key id dir : string) (snPath : string -> string)
  : Prog (bool * option error) :=
  '(b, err) ← isOverlaybdLayer dir;
  if negb b then Ret (false, None)
  else
    match err with
    | Some e => Ret (false, Some e)
    | None =>
        let '(s, _) := storage_GetSnapshot key in
        let lowers := map snPath (storage.ParentIDs s) in
        let num := length lowers in
        walk_from per_dir lowers (snPath id) (seq 0 num) EmptyString
    end.

Definition PrepareOverlayBDSpec (key id dir : string)
    (snPath : string -> string) : Prog (bool * option error) :=
  PrepareOverlayBDSpec_with doDir key id dir snPath.

End Zdfs.


(** * Vocabulary of the properties *)

(** The five marker files of the legacy bundle that the probe requires. *)
Definition required_markers : list string :=
  [iNewFormat; zdfsChecksumFile; zdfsOssurlFile; zdfsOssDataSizeFile;
   zdfsOssTypeFile].

(** The six files [copyPulledZdfsMetaFiles] copies. *)
Definition bundle_files : list string :=
  [iNewFormat; zdfsChecksumFile; zdfsOssurlFile; zdfsOssDataSizeFile;
   zdfsOssTypeFile; zdfsTrace].

(** How a file [name] of the bundle stands after a copy from [src] to [dst]
    that led from [w] to [w']: it was not in [src] and its place in [dst] is
    as before, or it was a regular file in [src] and [dst] has its bytes. *)
Definition copied (src dst : string) (w w' : World) (name : string) : Prop :=
  (files w !! OS.key (GoPath.Join [src; name]) = None
   /\ files w' !! OS.key (GoPath.Join [dst; name])
      = files w !! OS.key (GoPath.Join [dst; name]))
  \/ (exists data,
        files w !! OS.key (GoPath.Join [src; name]) = Some (NFile data)
        /\ files w' !! OS.key (GoPath.Join [dst; name]) = Some (NFile data)).

(** The value of a decimal numeral read after the value [acc]. *)
Fixpoint decimal_from (acc : Z) (s : string) : Z :=
  match s with
  | EmptyString => acc
  | String c s' =>
      match strconv.digit_of c with
      | Some d => decimal_from (acc * 10 + d) s'
      | None => acc
      end
  end.

Definition is_decimal (s : string) : Prop :=
  s <> EmptyString
  /\ Forall (fun c => strconv.digit_of c <> None) (list_ascii_of_string s).

Definition cutset : string := " " +:+ GoStrings.newline.

Section Vocabulary.
Context `{Collaborators}.

(** What [loadBackingStoreConfig] returns, as a function of the world. *)
Definition loaded (w : World) (dir : string)
  : error + types.OverlayBDBSConfig :=
  let confPath := overlaybdConfPath dir in
  match OS.read_file w confPath with
  | inl err =>
      inl (Wrapf err "failed to read config(path=%s) of snapshot %s"
                 [ArgS confPath; ArgS dir])
  | inr data =>
      match json_Unmarshal data with
      | inl err => inl (Wrapf err "failed to unmarshal data(%s)" [ArgS data])
      | inr configJSON => inr configJSON
      end
  end.

(** [dir] holds the descriptor [c]: its descriptor file is a regular file
    whose bytes parse to [c]. *)
Definition holds_descriptor (w : World) (dir : string)
    (c : types.OverlayBDBSConfig) : Prop :=
  exists data, files w !! OS.key (overlaybdConfPath dir) = Some (NFile data)
               /\ json_Unmarshal data = inr c.

(** The descriptor file of [dir] holds the marshalled bytes of [c]. *)
Definition built (w : World) (dir : string)
    (c : types.OverlayBDBSConfig) : Prop :=
  exists data, json_Marshal c = inr data
               /\ files w !! OS.key (overlaybdConfPath dir) = Some (NFile data).

(** Reading back the bytes marshalled from [c] gives [c] again. *)
Definition roundtrips_at (c : types.OverlayBDBSConfig) : Prop :=
  forall data, json_Marshal c = inr data -> json_Unmarshal data = inr c.

(** The entry of a layer in a descriptor: no file, the digest, the size
    as a signed 64-bit number, and the layer's [block] directory. *)
Definition own_lower (dir digest : string) (size : Z)
  : types.OverlayBDBSConfigLower :=
  types.mkLower EmptyString digest (int64_of_uint64 size)
                (GoPath.Join [dir; "block"]).

(** The constant reference to the base layer. *)
Definition base_lower : types.OverlayBDBSConfigLower :=
  types.mkLower overlaybdBaseLayer EmptyString 0 EmptyString.

(** The descriptor [constructSpec] writes for a base layer. *)
Definition base_config (dir repo digest : string) (size : Z) (trace : string)
  : types.OverlayBDBSConfig :=
  types.mkConfig repo [base_lower; own_lower dir digest size]
                 (overlaybdInitDebuglogPath dir) trace.

(** The walk as the specification words it: the directories from the
    oldest ancestor to the active one, each paired with the directory just
    before it, the first with the empty string. *)
Fixpoint plan_from (parent : string) (dirs : list string)
  : list (string * string) :=
  match dirs with
  | [] => []
  | d :: rest => (d, parent) :: plan_from d rest
  end.

Definition walk_plan (ancestors : list string) (active : string)
  : list (string * string) :=
  plan_from EmptyString (ancestors ++ [active])%list.

(** Running a plan: the procedure is called on each pair in turn, the first
    failure ends the walk, and the error of the last call is the result. *)
Fixpoint run_plan (per_dir : string -> string -> Prog (option error))
    (plan : list (string * string)) : Prog (bool * option error) :=
  match plan with
  | [] => Ret (true, None)
  | (d, p) :: rest =>
      match rest with
      | [] => err ← per_dir d p; Ret (true, err)
      | _ =>
          err ← per_dir d p;
          match err with
          | Some e => Ret (true, Some e)
          | None => run_plan per_dir rest
          end
      end
  end.

(** [p] is there and can be examined. *)
Definition present (w : World) (p : string) : Prop :=
  exists n, files w !! OS.key p = Some n /\ n <> NDenied.

(** What [pathExists] returns, as a function of the world. *)
Definition path_exists (w : World) (p : string) : bool * option error :=
  match OS.stat w p with
  | None => (true, None)
  | Some e => if os_IsNotExist e then (false, None) else (false, Some e)
  end.

(** A layer on which [doDir] has nothing to do: either it is seen to have
    no metadata directory and its descriptor file is there, or it has both
    and the descriptor records no trace path. *)
Definition quiet (w : World) (d : string) : Prop :=
  (path_exists w (GoPath.Join [d; zdfsMetaDir]) = (false, None)
   /\ present w (overlaybdConfPath d))
  \/ (present w (GoPath.Join [d; zdfsMetaDir])
      /\ exists c, holds_descriptor w d c
                   /\ types.RecordTracePath c = EmptyString).

(** A layer with a valid descriptor that reads back after its trace path
    is cleared. *)
Definition valid_layer (w : World) (d : string) : Prop :=
  exists c, holds_descriptor w d c
            /\ roundtrips_at (types.set_RecordTracePath EmptyString c).

(** [w'] is [w] after the descriptor of [d] was rewritten, by one atomic
    write over the old file, with its trace path cleared and nothing else
    changed. *)
Definition refresh (d : string) (w w' : World) : Prop :=
  exists old c data,
    files w !! OS.key (overlaybdConfPath d) = Some (NFile old)
    /\ json_Unmarshal old = inr c
    /\ json_Marshal (types.set_RecordTracePath EmptyString c) = inr data
    /\ roundtrips_at (types.set_RecordTracePath EmptyString c)
    /\ w' = OS.put w (OS.key (overlaybdConfPath d)) (NFile data)
                   (MAtomicWrite (OS.key (overlaybdConfPath d))).

(** Any number of such rewrites, of layers among [dirs]. *)
Inductive refreshed (dirs : list string) : World -> World -> Prop :=
| refreshed_refl w : refreshed dirs w w
| refreshed_step w w' w'' d :
    d ∈ dirs -> refresh d w w' -> refreshed dirs w' w'' ->
    refreshed dirs w w''.

(** The mutations that rewrite the descriptor of a layer among [dirs]. *)
Definition descriptor_write (dirs : list string) (m : mutation) : Prop :=
  exists d, d ∈ dirs /\ m = MAtomicWrite (OS.key (overlaybdConfPath d)).

(** [w'] is [w], or [w] after one atomic write of the descriptor file of
    [d]. *)
Definition at_most_descriptor_write (d : string) (w w' : World) : Prop :=
  w' = w
  \/ exists data,
       w' = OS.put w (OS.key (overlaybdConfPath d)) (NFile data)
                   (MAtomicWrite (OS.key (overlaybdConfPath d))).

(** The size [makeConfig] gets from [GetBlobSize], whose error it drops. *)
Definition size_read (w : World) (dir : string) : Z :=
  match OS.read_file w (GoPath.Join [dir; zdfsOssDataSizeFile]) with
  | inl _ => 0%Z
  | inr data => (strconv.ParseUint (GoStrings.Trim data cutset)).1
  end.

(** The repository URL [makeConfig] passes on: the one of the URL marker,
    or, when the path [refPath] it looks at is there, what the image
    reference read from it gives. *)
Definition repo_chosen (w : World) (dir repo : string) : string :=
  let refPath := GoPath.Join [dir; GoPath.Join [dir; "image_ref"]] in
  if (path_exists w refPath).1
  then (constructImageBlobURL
          match OS.read_file w refPath with
          | inr img => img
          | inl _ => EmptyString
          end).1
  else repo.

(** The ancestors' directories of a snapshot, oldest first. *)
Definition ancestor_dirs (key : string) (snPath : string -> string)
  : list string :=
  rev (map snPath (storage.ParentIDs (storage_GetSnapshot key).1)).

End Vocabulary.

(** The last component of a path, and strings without a slash. *)
Definition last_comp (s : string) : string :=
  List.last (GoStrings.split_on GoPath.slash s) EmptyString.

Definition atom (c : string) : Prop :=
  GoStrings.split_on GoPath.slash c = [c].

(** A component that [path.Clean] keeps as it is. *)
Definition proper (c : string) : Prop :=
  c <> EmptyString /\ c <> "." /\ c <> "..".

(** An absolute path below the root written in its clean form: a slash
    and names separated by single slashes, none of them [.] or [..]. *)
Definition plain_dir (d : string) : Prop :=
  exists s, d = String GoPath.slash s
            /\ Forall proper (GoStrings.split_on GoPath.slash s).

(** Programs that write and create entries at paths in [S] only, and
    rename nothing; of temporary names, those made with a suffix without
    slash are meant. *)
Fixpoint confined (S : string -> Prop) {A : Type} (m : Prog A) : Prop :=
  match m with
  | Ret _ | Panic _ => True
  | Stat _ k => forall r, confined S (k r)
  | ReadFile _ k => forall r, confined S (k r)
  | WriteFile p _ k => S (OS.key p) /\ forall r, confined S (k r)
  | AtomicWriteFile p _ k =>
      S (OS.key p)
      /\ (forall sfx, atom sfx -> S (OS.key (OS.atomic_temp p sfx)))
      /\ forall r, confined S (k r)
  | MkdirTemp d pat k =>
      (forall sfx, atom sfx -> S (OS.key (OS.temp_name d pat sfx)))
      /\ forall r, confined S (k r)
  | Rename _ _ _ => False
  end.

(** [P] holds of the state left behind wherever the run of [m] from [w]
    is cut off. *)
Definition always {A : Type} (P : World -> Prop) (m : Prog A) (w : World)
  : Prop :=
  forall n, P (run_upto n m w).2.

(** A mutation that is no rename. *)
Definition not_rename (m : mutation) : Prop :=
  match m with
  | MRename _ _ => False
  | _ => True
  end.

(** Two entries of the same kind: both regular files, or the same. *)
Definition same_kind (a b : option node) : Prop :=
  match a, b with
  | Some (NFile _), Some (NFile _) => True
  | _, _ => a = b
  end.

(** A rename onto [K] is among the mutations [j]. *)
Definition did_rename (K : string) (j : list mutation) : Prop :=
  exists tmp, MRename tmp K ∈ j.

(** Programs that only examine paths, and do not panic. *)
Fixpoint readonly {A : Type} (m : Prog A) : Prop :=
  match m with
  | Ret _ => True
  | Stat _ k => forall r, readonly (k r)
  | _ => False
  end.

(** The paths other than [slot] and not below it. *)
Definition outside (slot k : string) : Prop :=
  k <> slot /\ OS.below slot k = false.

(** The slot [slot] is empty: nothing is at it and nothing below it. *)
Definition slot_empty (w : World) (slot : string) : Prop :=
  files w !! OS.key slot = None
  /\ forall k, OS.below (OS.key slot) k = true -> files w !! k = None.

(** The slot [slot] holds the bundle of [src] as it was in [w0]: it is a
    directory, and every file of the bundle that was a regular file under
    [src] is in it with the same bytes. *)
Definition slot_filled (w0 : World) (src : string) (w : World) (slot : string)
  : Prop :=
  files w !! OS.key slot = Some NDir
  /\ forall name data,
       name ∈ bundle_files ->
       files w0 !! OS.key (GoPath.Join [src; name]) = Some (NFile data) ->
       files w !! OS.key (GoPath.Join [slot; name]) = Some (NFile data).

(** With respect to [w0], nothing at the path [K] or below it has changed
    in [w], and nothing has been renamed. *)
Definition slot_untouched (w0 : World) (K : string) (w : World) : Prop :=
  (forall k, ~ outside K k -> files w !! k = files w0 !! k)
  /\ exists j, journal w = (journal w0 ++ j)%list /\ Forall not_rename j.

(** The slot is all or nothing in [w], a state reached from [w0]: as long
    as no rename onto the slot is among the mutations done since [w0], the
    slot is empty; once it is, the slot holds the bundle of [src]. *)
Definition slot_settled (w0 : World) (src slot : string) (w : World) : Prop :=
  exists j, journal w = (journal w0 ++ j)%list
    /\ ((~ did_rename (OS.key slot) j /\ slot_empty w slot)
        \/ (did_rename (OS.key slot) j /\ slot_filled w0 src w slot)).

(** All or nothing: a failed or interrupted step leaves the files as they
    were. *)
Definition no_partial_state (before after : World) : Prop :=
  files after = files before.

(** * Sample collaborators and worlds *)

Module Sample.

Definition tab : string := String (ascii_of_nat 9) EmptyString.

(** A line-oriented codec for descriptors: three lines for the URL, the
    result file and the trace path, then one line per lower. *)
Definition encode_lower (l : types.OverlayBDBSConfigLower) : string :=
  String.concat tab
    [types.File l; types.Digest l; pretty (types.Size l); types.Dir l].

Definition encode (c : types.OverlayBDBSConfig) : error + string :=
  inr (String.concat GoStrings.newline
         (types.RepoBlobURL c :: types.ResultFile c :: types.RecordTracePath c
          :: map encode_lower (types.Lowers c))).

Definition decode_Z (s : string) : option Z :=
  match s with
  | String "-"%char rest =>
      match strconv.ParseUint rest with
      | (n, None) => Some (- n)%Z
      | _ => None
      end
  | _ =>
      match strconv.ParseUint s with
      | (n, None) => Some n
      | _ => None
      end
  end.

Definition decode_lower (line : string) : option types.OverlayBDBSConfigLower :=
  match GoStrings.split_on (ascii_of_nat 9) line with
  | [f; d; sz; dir] =>
      match decode_Z sz with
      | Some z => Some (types.mkLower f d z dir)
      | None => None
      end
  | _ => None
  end.

Definition decode (s : string) : error + types.OverlayBDBSConfig :=
  match GoStrings.split_on (ascii_of_nat 10) s with
  | url :: result :: trace :: lines =>
      match mapM decode_lower lines with
      | Some lowers => inr (types.mkConfig url lowers result trace)
      | None => inl (LibError "json" "invalid lower")
      end
  | _ => inl (LibError "json" "unexpected end of input")
  end.

(** A reference parser for names written with their registry host: the
    host is the text before the first slash and must contain a dot, the
    tag the text after the last colon of the rest. *)
Definition parse_named (ref : string) : error + reference.Named :=
  match GoStrings.split_on "/" ref with
  | host :: c :: comps =>
      if existsb (Ascii.eqb ".") (list_ascii_of_string host)
      then
        let rest := String.concat "/" (c :: comps) in
        match GoStrings.split_on ":" rest with
        | [p] => inr (reference.mkNamed host p EmptyString EmptyString)
        | [p; t] => inr (reference.mkNamed host p t EmptyString)
        | _ => inl (LibError "reference" "invalid reference format")
        end
      else inl (LibError "reference" "repository name must be canonical")
  | _ => inl (LibError "reference" "repository name must be canonical")
  end.

(** Two snapshots, [a] and [b], over the same parent [p]; the others have
    no parents. *)
Definition get_snapshot (key : string) : storage.Snapshot * option error :=
  if String.eqb key "a" then (storage.mkSnapshot "a" ["p"], None)
  else if String.eqb key "b" then (storage.mkSnapshot "b" ["p"], None)
  else if String.eqb key "c" then (storage.mkSnapshot "c" ["p1"; "p0"], None)
  else if String.eqb key "1" then (storage.mkSnapshot "1" ["0"], None)
  else (storage.mkSnapshot key [], None).

Definition collab : Collaborators :=
  Build_Collaborators encode decode parse_named get_snapshot.

Definition snPath (id : string) : string := "/s/" +:+ id.

Definition world (entries : list (string * node)) : World :=
  mkWorld (list_to_map entries) ["101"; "102"; "103"] [].

(** An empty layer directory with its [block] and [fs] subdirectories. *)
Definition layer_dirs (id : string) : list (string * node) :=
  [(snPath id, NDir); (snPath id +:+ "/block", NDir);
   (snPath id +:+ "/fs", NDir)].

Definition roots : list (string * node) := [("/", NDir); ("/s", NDir)].

(** The legacy metadata bundle of a layer under [sub] ([fs] or [block]). *)
Definition bundle (id sub url size : string) : list (string * node) :=
  let d := snPath id +:+ "/" +:+ sub +:+ "/" in
  [(d +:+ iNewFormat, NFile "lsmt"); (d +:+ zdfsChecksumFile, NFile "sum");
   (d +:+ zdfsOssurlFile, NFile url); (d +:+ zdfsOssDataSizeFile, NFile size);
   (d +:+ zdfsOssTypeFile, NFile "oss")].

Definition two_empty_layers : World :=
  world (roots ++ layer_dirs "0" ++ layer_dirs "1").

(** The base layer [/s/0] and then its child [/s/1] built by
    [constructSpec]. *)
Definition after_base : World :=
  (run (constructSpec (H := collab) "/s/0" EmptyString
          "https://host/v2/repo/blobs" "sha256:aa" 10 EmptyString)
       two_empty_layers).2.

Definition after_child : World :=
  (run (constructSpec (H := collab) "/s/1" "/s/0" EmptyString "sha256:bb" 20
          EmptyString) after_base).2.

(** [/s/0] with a descriptor that records a trace path. *)
Definition traced_layer : World :=
  (run (constructSpec (H := collab) "/s/0" EmptyString
          "https://host/v2/repo/blobs" "sha256:aa" 10 "/s/0/trace")
       two_empty_layers).2.

(** Snapshot [c] over [p1] over [p0], every layer with its descriptor. *)
Definition prepared_chain : World :=
  world (roots ++ layer_dirs "p0" ++ layer_dirs "p1" ++ layer_dirs "c" ++
         [("/s/p0/block/config.v1.json", NFile "x");
          ("/s/p1/block/config.v1.json", NFile "x");
          ("/s/c/block/config.v1.json", NFile "x")]).

(** Layers [0] and [1] migrated and with descriptors that record a trace
    path. *)
Definition traced_chain : World :=
  (run (constructSpec (H := collab) "/s/0" EmptyString
          "https://host/v2/repo/blobs" "sha256:aa" 10 "/trace0"
        ≫= fun _ =>
        constructSpec (H := collab) "/s/1" "/s/0" EmptyString "sha256:bb" 20
          "/trace1")
       (world (roots ++ layer_dirs "0" ++ layer_dirs "1" ++
               [("/s/0/zdfsmeta", NDir); ("/s/1/zdfsmeta", NDir)]))).2.

Definition blob_url : string := "https://host/v2/repo/blobs/sha256:aa".

(** A legacy layer [x] whose inspection fails: the format marker under
    [fs] cannot be examined. *)
Definition denied_marker : World :=
  world (roots ++ layer_dirs "x" ++
         [("/s/x/fs/" +:+ iNewFormat, NDenied)]).

(** A legacy layer [x] whose size marker does not hold a number. *)
Definition bad_size : World :=
  world (roots ++ layer_dirs "x" ++ bundle "x" "fs" blob_url "abc").

(** A migrated layer [x] without descriptor and without size marker. *)
Definition no_size : World :=
  world (roots ++ layer_dirs "x" ++
         [("/s/x/zdfsmeta", NDir);
          ("/s/x/block/" +:+ zdfsOssurlFile, NFile blob_url)]).

(** A legacy layer [x] in whose [block] directory the place of the
    checksum file is taken by a directory, so that the copy into [block]
    fails at its second file. *)
Definition blocked_copy : World :=
  world (roots ++ layer_dirs "x" ++ bundle "x" "fs" blob_url "10" ++
         [("/s/x/block/" +:+ zdfsChecksumFile, NDir)]).

(** A migrated layer [x] whose URL marker holds a digest and no URL. *)
Definition slashless_url : World :=
  world (roots ++ layer_dirs "x" ++
         [("/s/x/block/" +:+ zdfsOssurlFile,
           NFile ("sha256:aa" +:+ GoStrings.newline));
          ("/s/x/block/" +:+ zdfsOssDataSizeFile,
           NFile (" 1024" +:+ GoStrings.newline))]).

(** A migrated child layer [1] over the prepared base [0], with an
    override file, where [makeConfig] looks, that holds no image reference. *)
Definition bad_override : World :=
  let w := after_base in
  mkWorld (list_to_map
             [("/s/1/block/" +:+ zdfsOssurlFile,
               NFile "https://other/v2/r/blobs/sha256:cc");
              ("/s/1/s", NDir); ("/s/1/s/1", NDir);
              ("/s/1/s/1/image_ref", NFile "latest")] ∪ files w)
          (rng w) (journal w).


(** A migrated layer [x] without descriptor whose size marker holds
    2^63. *)
Definition wide_size : World :=
  world (roots ++ layer_dirs "x" ++
         bundle "x" "block" blob_url "9223372036854775808" ++
         [("/s/x/zdfsmeta", NDir)]).

(** A layer [0] in which the place of the descriptor file is taken by a
    directory. *)
Definition taken_descriptor : World :=
  world (roots ++ layer_dirs "0" ++
         [("/s/0/block/config.v1.json", NDir)]).

Definition image_ref : string := "registry.example.com/repo/name:tag".

(** A migrated layer [x] without descriptor, with the override file
    [image_ref] directly under it. *)
Definition with_image_ref : World :=
  world (roots ++ layer_dirs "x" ++ bundle "x" "block" blob_url "10" ++
         [("/s/x/zdfsmeta", NDir); ("/s/x/image_ref", NFile image_ref)]).

(** The same layer with the file where [makeConfig] looks for it. *)
Definition with_nested_image_ref : World :=
  world (roots ++ layer_dirs "x" ++ bundle "x" "block" blob_url "10" ++
         [("/s/x/zdfsmeta", NDir); ("/s/x/s", NDir); ("/s/x/s/x", NDir);
          ("/s/x/s/x/image_ref", NFile image_ref)]).

(** Snapshots [a] and [b], both prepared, over the parent [p], which is
    migrated and still without descriptor. *)
Definition shared_parent : World :=
  world (roots ++ layer_dirs "p" ++ layer_dirs "a" ++ layer_dirs "b" ++
         bundle "p" "block" blob_url "10" ++
         [("/s/p/zdfsmeta", NDir);
          ("/s/a/block/config.v1.json", NFile "x");
          ("/s/b/block/config.v1.json", NFile "x")]).

(** The same with [p] a legacy layer still to be migrated. *)
Definition shared_legacy_parent : World :=
  world (roots ++ layer_dirs "p" ++ layer_dirs "a" ++ layer_dirs "b" ++
         bundle "p" "fs" blob_url "10" ++
         [("/s/a/block/config.v1.json", NFile "x");
          ("/s/b/block/config.v1.json", NFile "x")]).

Definition prepare (key : string) : Prog (bool * option error) :=
  PrepareOverlayBDSpec (H := collab) key key (snPath key) snPath.

End Sample.

(** * Properties *)

(** ** Paths *)

Example Clean_examples :
  GoPath.Clean "/a//b/./c/.." = "/a/b" /\ GoPath.Clean "../../x" = "../../x"
  /\ GoPath.Clean "/.." = "/" /\ GoPath.Clean "a/.." = "."
  /\ GoPath.Join ["/snap/1"; "block"; "config.v1.json"]
     = "/snap/1/block/config.v1.json"
  /\ GoPath.Join [EmptyString; "image_ref"] = "image_ref"
  /\ GoPath.Dir "/snap/1/block" = "/snap/1" /\ GoPath.Dir "/snap" = "/"
  /\ GoPath.Dir "x" = ".".
Proof. repeat split; reflexivity. Qed.

Example strings_examples :
  GoStrings.Trim ("  12" +:+ GoStrings.newline) (" " +:+ GoStrings.newline) = "12"
  /\ GoStrings.LastIndexByte "a/b/c" "/" = 3%Z
  /\ GoStrings.LastIndexByte "abc" "/" = (-1)%Z
  /\ GoStrings.slice_from "a/b/c" 4 = "c"
  /\ GoStrings.slice_to "a/b/c" 3 = "a/b"
  /\ strconv.ParseUint "18446744073709551615" = (strconv.maxUint64, None)
  /\ strconv.ParseUint "18446744073709551616"
     = (strconv.maxUint64,
        Some (NumError "ParseUint" "18446744073709551616" true))
  /\ strconv.ParseUint "1_0" = (0%Z, Some (NumError "ParseUint" "1_0" false))
  /\ int64_of_uint64 (2 ^ 63) = (- 2 ^ 63)%Z.
Proof. repeat split; reflexivity. Qed.

(** [ParseUint] accepts decimal digits only, and at least one. *)
Lemma parse_from_digits orig n s v :
  strconv.parse_from orig n s = (v, None) ->
  Forall (fun c => strconv.digit_of c <> None) (list_ascii_of_string s).
Proof.
  revert n. induction s as [|c s IH]; intros n; simpl; [constructor|].
  destruct (strconv.digit_of c) as [d|] eqn:E; [|done].
  destruct (_ <? _)%Z; [done|]. intros Hp.
  constructor; [by rewrite E|eauto].
Qed.

Lemma ParseUint_digits s v :
  strconv.ParseUint s = (v, None) ->
  s <> EmptyString
  /\ Forall (fun c => strconv.digit_of c <> None) (list_ascii_of_string s).
Proof.
  unfold strconv.ParseUint. destruct (String.eqb s EmptyString) eqn:E; [done|].
  intros Hp. split; [by apply String.eqb_neq|by eapply parse_from_digits].
Qed.

Lemma split_on_nonempty sep s : GoStrings.split_on sep s <> [].
Proof.
  destruct s as [|a s]; simpl; [done|].
  destruct (Ascii.eqb a sep); [done|]. destruct (GoStrings.split_on sep s); done.
Qed.

Lemma split_on_app sep x y :
  GoStrings.split_on sep (x +:+ String sep y)
  = (GoStrings.split_on sep x ++ GoStrings.split_on sep y)%list.
Proof.
  induction x as [|a x IH]; simpl.
  - by rewrite Ascii.eqb_refl.
  - destruct (Ascii.eqb a sep); [by rewrite IH|].
    rewrite IH. pose proof (split_on_nonempty sep x) as Hx.
    destruct (GoStrings.split_on sep x); done.
Qed.

Lemma split_on_atoms sep s :
  Forall (fun c => GoStrings.split_on sep c = [c]) (GoStrings.split_on sep s).
Proof.
  induction s as [|a s IH]; simpl.
  - constructor; done.
  - destruct (Ascii.eqb a sep) eqn:E; [constructor; done|].
    pose proof (split_on_nonempty sep s) as Hs.
    destruct (GoStrings.split_on sep s) as [|w ws]; [done|].
    apply Forall_cons in IH as [Hw Hws].
    constructor; [|done]. simpl. rewrite E, Hw. done.
Qed.

Lemma last_app_nonempty (l1 l2 : list string) d :
  l2 <> [] -> List.last (l1 ++ l2) d = List.last l2 d.
Proof.
  intros Hl2. induction l1 as [|x l1 IH]; [done|].
  simpl. destruct (l1 ++ l2)%list eqn:E; [|done].
  apply app_eq_nil in E as [_ ->]. done.
Qed.

Lemma last_comp_app x y : last_comp (x +:+ String GoPath.slash y) = last_comp y.
Proof.
  unfold last_comp. rewrite split_on_app.
  apply last_app_nonempty, split_on_nonempty.
Qed.

Lemma last_comp_atom c : atom c -> last_comp c = c.
Proof. unfold last_comp, atom. intros ->. done. Qed.

Lemma last_comp_is_atom s : atom (last_comp s).
Proof.
  unfold last_comp, atom.
  pose proof (split_on_atoms GoPath.slash s) as Ha.
  pose proof (split_on_nonempty GoPath.slash s) as Hn.
  induction (GoStrings.split_on GoPath.slash s) as [|x l IH]; [done|].
  apply Forall_cons in Ha as [Hx Hl].
  destruct l; [done|]. apply IH; done.
Qed.

Lemma last_comp_concat l c :
  atom c -> last_comp (String.concat "/" (l ++ [c])) = c.
Proof.
  intros Hc. induction l as [|x l IH]; simpl.
  - by apply last_comp_atom.
  - destruct (l ++ [c])%list eqn:E; [by destruct l|].
    rewrite <- E in *.
    change "/" with (String GoPath.slash EmptyString).
    change (x +:+ String GoPath.slash EmptyString +:+ String.concat
              (String GoPath.slash EmptyString) (l ++ [c]))
      with (x +:+ String GoPath.slash (String.concat
              (String GoPath.slash EmptyString) (l ++ [c]))).
    rewrite last_comp_app. exact IH.
Qed.

Lemma clean_step_proper rooted out c :
  proper c -> GoPath.clean_step rooted out c = c :: out.
Proof.
  intros (H1 & H2 & H3). unfold GoPath.clean_step.
  apply String.eqb_neq in H1, H2, H3. by rewrite H1, H2, H3.
Qed.

Lemma list_last_snoc (l : list string) d :
  l <> [] -> exists l', l = (l' ++ [List.last l d])%list.
Proof.
  induction l as [|x l IH]; [done|]. intros _.
  destruct l as [|y l].
  - exists []. done.
  - destruct IH as [l' Hl']; [done|]. exists (x :: l').
    simpl in *. by rewrite <- Hl'.
Qed.

(** Cleaning a path keeps its last component, when this is a name. *)
Lemma Clean_last_comp s c :
  proper c -> last_comp s = c -> last_comp (GoPath.Clean s) = c.
Proof.
  intros Hp Hl. unfold GoPath.Clean.
  assert (atom c) as Hc by (rewrite <- Hl; apply last_comp_is_atom).
  destruct (String.eqb s EmptyString) eqn:Es.
  { apply String.eqb_eq in Es as ->. destruct Hp as [Hp _]. done. }
  destruct (list_last_snoc (GoStrings.split_on GoPath.slash s) EmptyString
              (split_on_nonempty _ _)) as [l Hs].
  fold (last_comp s) in Hs. rewrite Hl in Hs.
  rewrite Hs, fold_left_app. simpl fold_left.
  rewrite (clean_step_proper _ _ _ Hp). simpl rev.
  set (body := String.concat "/" _).
  assert (last_comp body = c) as Hb by (by apply last_comp_concat).
  destruct (GoPath.is_rooted s).
  - change ("/" +:+ body) with (EmptyString +:+ String GoPath.slash body).
    by rewrite last_comp_app.
  - destruct (String.eqb body EmptyString) eqn:Eb; [|done].
    apply String.eqb_eq in Eb. rewrite Eb in Hb. destruct Hp as [Hp _].
    by rewrite <- Hb in Hp.
Qed.

Lemma append_cons x (a b : string) : String x a +:+ b = String x (a +:+ b).
Proof. reflexivity. Qed.

Lemma Join_last l c :
  proper c -> atom c -> last_comp (GoPath.Join (l ++ [c])) = c.
Proof.
  intros Hp Hc. unfold GoPath.Join. rewrite filter_app.
  assert (filter (fun e => e ≠ EmptyString) [c] = [c]) as ->.
  { rewrite filter_cons, filter_nil. destruct Hp as [Hp _].
    destruct (decide (c ≠ EmptyString)); done. }
  destruct (filter _ l ++ [c])%list eqn:E.
  { by destruct (filter (fun e => e ≠ EmptyString) l). }
  rewrite <- E. apply Clean_last_comp; [done|]. by apply last_comp_concat.
Qed.

Lemma atom_cons a c :
  atom (String a c) <-> Ascii.eqb a GoPath.slash = false /\ atom c.
Proof.
  unfold atom. simpl. destruct (Ascii.eqb a GoPath.slash) eqn:E.
  - split; [|intros [? _]; done].
    intros Hs. injection Hs as _ Hs. by apply split_on_nonempty in Hs.
  - pose proof (split_on_nonempty GoPath.slash c) as Hn.
    destruct (GoStrings.split_on GoPath.slash c) as [|x l]; [done|].
    split.
    + intros [= -> ->]. done.
    + intros [_ [= -> ->]]. done.
Qed.

Lemma atom_app a b : atom a -> atom b -> atom (a +:+ b).
Proof.
  intros Ha Hb. induction a as [|c a IH]; [done|].
  apply atom_cons in Ha as [Hc Ha]. rewrite append_cons. apply atom_cons. auto.
Qed.

Lemma last_byte_snoc s c :
  GoStrings.last_byte s = Some c -> exists s', s = s' +:+ String c EmptyString.
Proof.
  induction s as [|a s IH]; [done|]. simpl.
  destruct s as [|b s].
  - intros [= ->]. by exists EmptyString.
  - intros Hl. destruct (IH Hl) as [s' Hs']. exists (String a s').
    rewrite Hs'. reflexivity.
Qed.

Lemma append_assoc (a b c : string) : (a +:+ b) +:+ c = a +:+ (b +:+ c).
Proof.
  induction a as [|x a IH]; [done|]. rewrite !append_cons. by rewrite IH.
Qed.

Lemma temp_name_last d pat sfx :
  atom (pat +:+ sfx) -> last_comp (OS.temp_name d pat sfx) = pat +:+ sfx.
Proof.
  intros Ha. unfold OS.temp_name.
  set (dir := if String.eqb d EmptyString then "/tmp" else d).
  destruct (GoStrings.last_byte dir) as [c|] eqn:El.
  - destruct (Ascii.eqb c "/") eqn:Ec.
    + apply Ascii.eqb_eq in Ec as ->.
      apply last_byte_snoc in El as [d' ->].
      rewrite append_assoc, append_cons.
      change (EmptyString +:+ (pat +:+ sfx)) with (pat +:+ sfx).
      rewrite last_comp_app. by apply last_comp_atom.
    + rewrite last_comp_app. by apply last_comp_atom.
  - rewrite last_comp_app. by apply last_comp_atom.
Qed.

Lemma key_ne_by_last p K c :
  proper c -> last_comp p = c -> last_comp K <> c -> OS.key p <> K.
Proof.
  intros Hp Hl HK E. apply HK. rewrite <- E. by apply Clean_last_comp.
Qed.

Lemma atom_literal c :
  forallb (fun a => negb (Ascii.eqb a GoPath.slash)) (list_ascii_of_string c)
    = true -> atom c.
Proof.
  induction c as [|a c IH]; [done|]. simpl.
  intros [Ha Hc]%andb_true_iff. apply atom_cons.
  split; [by apply negb_true_iff|auto].
Qed.

Lemma concat_split s :
  String.concat "/" (GoStrings.split_on GoPath.slash s) = s.
Proof.
  induction s as [|a s IH]; [done|]. simpl GoStrings.split_on.
  pose proof (split_on_nonempty GoPath.slash s) as Hn.
  destruct (Ascii.eqb a GoPath.slash) eqn:E.
  - apply Ascii.eqb_eq in E as ->.
    destruct (GoStrings.split_on GoPath.slash s) as [|w ws]; [done|].
    simpl in *. by rewrite IH.
  - destruct (GoStrings.split_on GoPath.slash s) as [|w ws]; [done|].
    destruct ws as [|w' ws]; simpl in *; by rewrite <- IH.
Qed.

Lemma fold_clean_step_proper rooted l out :
  Forall proper l ->
  fold_left (GoPath.clean_step rooted) l out = (rev l ++ out)%list.
Proof.
  intros Hl. revert out. induction Hl as [|c l Hc _ IH]; intros out; [done|].
  simpl. rewrite (clean_step_proper _ _ _ Hc), IH, <- app_assoc. done.
Qed.

(** A path made of ordinary names is clean already. *)
Lemma Clean_id s :
  Forall proper (GoStrings.split_on GoPath.slash s) -> GoPath.Clean s = s.
Proof.
  intros Hs. unfold GoPath.Clean.
  pose proof (split_on_nonempty GoPath.slash s) as Hn.
  assert (GoPath.is_rooted s = false /\ s <> EmptyString) as [-> Hne].
  { destruct s as [|a s]; simpl in *.
    - apply Forall_cons in Hs as [[Hp _] _]. done.
    - split; [|done]. destruct (Ascii.eqb a GoPath.slash); [|done].
      apply Forall_cons in Hs as [[Hp _] _]. done. }
  apply String.eqb_neq in Hne as Hne'. rewrite Hne'.
  rewrite (fold_clean_step_proper _ _ _ Hs), app_nil_r, rev_involutive,
    concat_split.
  by rewrite Hne'.
Qed.

(** ** Running programs *)

Lemma run_bind {A B : Type} (m : Prog A) (f : A -> Prog B) (w : World) :
  run (bind m f) w =
  match run m w with
  | (Done a, w') => run (f a) w'
  | (Panicked msg, w') => (Panicked msg, w')
  end.
Proof.
  revert w; induction m as [a|msg|p k IH|p k IH|p d k IH|d pat k IH|o n k IH|p d k IH];
    intros w; simpl; try done.
  - destruct (OS.write_file w p d); auto.
  - destruct (OS.mkdir_temp w d pat); auto.
  - destruct (OS.rename w o n); auto.
  - destruct (OS.atomic_write_file w p d); auto.
Qed.

Lemma run_mbind {A B : Type} (m : Prog A) (f : A -> Prog B) (w : World) :
  run (m ≫= f) w =
  match run m w with
  | (Done a, w') => run (f a) w'
  | (Panicked msg, w') => (Panicked msg, w')
  end.
Proof. apply run_bind. Qed.

(** A write either fails and leaves the world alone, or puts the file. *)
Lemma write_file_cases w p data :
  (exists e, OS.write_file w p data = (Some e, w)) \/
  (OS.write_file w p data
     = (None, OS.put w (OS.key p) (NFile data) (MWriteFile (OS.key p)))
   /\ files w !! OS.key p <> Some NDir
   /\ files w !! OS.key p <> Some NDenied).
Proof.
  unfold OS.write_file.
  destruct (files w !! OS.key p) as [[d| |]|] eqn:E;
    try (left; eexists; reflexivity);
    destruct (OS.parent_errno w (OS.key p));
    try (left; eexists; reflexivity); right; done.
Qed.

(** A temporary name is made with one of the suffixes of the supply and is
    free; what is left of the supply is a tail of it. *)
Lemma temp_try_spec op fs d pat sfxs :
  (exists k, (OS.temp_try op fs d pat sfxs).2 = drop k sfxs)
  /\ forall name, (OS.temp_try op fs d pat sfxs).1 = inr name ->
       exists sfx, sfx ∈ sfxs /\ name = OS.temp_name d pat sfx
                   /\ fs !! OS.key name = None.
Proof.
  induction sfxs as [|sfx rest [[k Hk] IH]]; simpl.
  - split; [by exists 0|done].
  - destruct (fs !! OS.key (OS.temp_name d pat sfx)) eqn:E.
    + split; [by exists (S k)|].
      intros name Hn. destruct (IH name Hn) as (sfx' & Hin & Hs).
      exists sfx'. split; [|done]. apply elem_of_cons. by right.
    + simpl. split; [by exists 1|]. intros name [= <-].
      exists sfx. split; [|done]. apply elem_of_cons. by left.
Qed.

(** The outcomes of an atomic write: it fails and nothing changes; or the
    file is put; or it fails at the rename, the place being taken by a
    directory or by an entry that cannot be examined, and the temporary file
    stays. *)
Lemma atomic_write_cases w p data :
  (exists e, OS.atomic_write_file w p data = (Some e, w))
  \/ (OS.atomic_write_file w p data
      = (None, OS.put w (OS.key p) (NFile data) (MAtomicWrite (OS.key p)))
      /\ files w !! OS.key p <> Some NDir
      /\ files w !! OS.key p <> Some NDenied)
  \/ (exists e sfx,
        sfx ∈ rng w
        /\ OS.atomic_write_file w p data
           = (Some e, OS.put w (OS.key (OS.atomic_temp p sfx)) (NFile data)
                             (MTempFile (OS.key (OS.atomic_temp p sfx))))
        /\ files w !! OS.key (OS.atomic_temp p sfx) = None
        /\ (files w !! OS.key p = Some NDir
            \/ files w !! OS.key p = Some NDenied)).
Proof.
  unfold OS.atomic_write_file.
  destruct (temp_try_spec "createtemp" (files w) (GoPath.Dir p)
              (".tmp-" +:+ GoPath.Base p) (rng w)) as [_ Hname].
  destruct (OS.temp_try _ _ _ _ _).1 as [e|tmp];
    [left; eexists; reflexivity|].
  destruct (Hname tmp eq_refl) as (sfx & Hin & -> & Hfree).
  fold (OS.atomic_temp p sfx) in *.
  destruct (OS.parent_errno w (OS.key p)); [left; eexists; reflexivity|].
  destruct (files w !! OS.key p) as [[d| |]|] eqn:E.
  - right; left. done.
  - right; right. exists (LinkError "rename" (OS.atomic_temp p sfx) p EEXIST), sfx.
    auto.
  - right; right. exists (LinkError "rename" (OS.atomic_temp p sfx) p EACCES), sfx.
    auto.
  - right; left. done.
Qed.

Lemma readonly_bind {A B : Type} (m : Prog A) (f : A -> Prog B) :
  readonly m -> (forall a, readonly (f a)) -> readonly (bind m f).
Proof.
  induction m; simpl; intros Hm Hf; try done; intros r; auto.
Qed.

Lemma readonly_run {A : Type} (m : Prog A) (w : World) :
  readonly m -> (run m w).2 = w.
Proof.
  revert w; induction m; simpl; intros w Hm; try done; auto.
Qed.

Lemma readonly_done {A : Type} (m : Prog A) (w : World) :
  readonly m -> exists a, (run m w).1 = Done a.
Proof.
  revert w; induction m; simpl; intros w Hm; try done; eauto.
Qed.

Lemma readonly_run_same {A : Type} (m : Prog A) (w w1 : World) :
  readonly m -> (forall p, OS.stat w1 p = OS.stat w p) ->
  (run m w1).1 = (run m w).1.
Proof.
  revert w w1; induction m; simpl; intros w w1 Hm Hs; try done.
  rewrite Hs. auto.
Qed.

Lemma run_pathExists p w :
  run (pathExists p) w = (Done (path_exists w p), w).
Proof.
  unfold pathExists, path_exists; simpl.
  destruct (OS.stat w p) as [e|]; [destruct (os_IsNotExist e)|]; done.
Qed.

(** Of a path at which nothing is, [pathExists] says that it is not
    there, or, when something on the way is no directory, fails. *)
Lemma path_exists_absent w p :
  files w !! OS.key p = None ->
  path_exists w p = (false, None)
  \/ exists e, path_exists w p = (false, Some e).
Proof.
  unfold path_exists, OS.stat. intros ->.
  destruct (OS.missing w (OS.key p)); simpl; eauto.
Qed.

Lemma path_exists_true w p b e :
  path_exists w p = (b, e) -> b = true -> present w p.
Proof.
  unfold path_exists, OS.stat, present.
  destruct (files w !! OS.key p) as [[data| |]|]; simpl.
  - intros _ _. by eexists.
  - intros _ _. by eexists.
  - by intros [= <- _].
  - destruct (OS.missing w (OS.key p)); simpl; by intros [= <- _].
Qed.

Lemma path_exists_present w p :
  present w p -> path_exists w p = (true, None).
Proof.
  unfold path_exists, OS.stat. intros (n & -> & Hn). destruct n; done.
Qed.

Lemma path_exists_denied w p :
  files w !! OS.key p = Some NDenied ->
  path_exists w p = (false, Some (PathError "stat" p EACCES)).
Proof. unfold path_exists, OS.stat. intros ->. done. Qed.

Lemma pathExists_readonly p : readonly (pathExists p).
Proof. intros [e|]; simpl; [destruct (os_IsNotExist e)|]; done. Qed.

Lemma hasOverlaybdBlobRef_range_readonly dir names :
  readonly (hasOverlaybdBlobRef_range dir names).
Proof.
  induction names as [|name rest IH]; simpl; [done|].
  intros [e|]; simpl; [destruct (os_IsNotExist e); simpl; try done|]; exact IH.
Qed.

Lemma isOverlaybdLayer_readonly dir : readonly (isOverlaybdLayer dir).
Proof.
  unfold isOverlaybdLayer. apply readonly_bind; [apply pathExists_readonly|].
  intros [[] e]; [done|].
  apply readonly_bind; [apply hasOverlaybdBlobRef_range_readonly|].
  intros [b [e'|]]; done.
Qed.

(** ** Operations, the journal and the supply of suffixes *)

Lemma mkdir_temp_spec w d pat :
  (exists k, rng (OS.mkdir_temp w d pat).2 = drop k (rng w))
  /\ ((exists e, (OS.mkdir_temp w d pat).1 = inl e
                 /\ files (OS.mkdir_temp w d pat).2 = files w
                 /\ journal (OS.mkdir_temp w d pat).2 = journal w)
      \/ (exists sfx,
            sfx ∈ rng w
            /\ (OS.mkdir_temp w d pat).1 = inr (OS.temp_name d pat sfx)
            /\ files w !! OS.key (OS.temp_name d pat sfx) = None
            /\ files (OS.mkdir_temp w d pat).2
               = <[OS.key (OS.temp_name d pat sfx) := NDir]> (files w)
            /\ journal (OS.mkdir_temp w d pat).2
               = (journal w ++ [MMkdir (OS.key (OS.temp_name d pat sfx))])%list)).
Proof.
  unfold OS.mkdir_temp.
  destruct (temp_try_spec "mkdirtemp" (files w) d pat (rng w)) as [Hrest Hname].
  destruct (OS.temp_try "mkdirtemp" (files w) d pat (rng w)) as [[e|name] rest];
    simpl in *.
  - split; [done|]. left. eauto.
  - destruct (Hname name eq_refl) as (sfx & Hin & -> & Hfree).
    destruct (OS.parent_errno w _); simpl.
    + split; [done|]. left. eauto.
    + split; [done|]. right. exists sfx. done.
Qed.

(** A rename fails and leaves the world alone, or moves the entry. *)
Lemma rename_cases w old new :
  (exists e, OS.rename w old new = (Some e, w))
  \/ (OS.rename w old new
      = (None, mkWorld (OS.move_tree (files w) (OS.key old) (OS.key new))
                       (rng w)
                       (journal w ++ [MRename (OS.key old) (OS.key new)]))
      /\ exists n, files w !! OS.key old = Some n /\ n <> NDenied).
Proof.
  unfold OS.rename.
  destruct (OS.is_dir (files w !! OS.key new) && _);
    destruct (files w !! OS.key old) as [[data| |]|] eqn:Eo;
    try (left; eexists; reflexivity);
    (destruct (OS.parent_errno w (OS.key new));
     [left; eexists; reflexivity|]);
    destruct (files w !! OS.key new) as [[data'| |]|];
    try (left; eexists; reflexivity);
    destruct (OS.below (OS.key old) (OS.key new));
    try (left; eexists; reflexivity);
    right; (split; [reflexivity|]); eexists; split; done.
Qed.

(** One operation adds to the journal and uses up some of the supply. *)
Lemma step_world {A : Type} (m : Prog A) w :
  exists j k, journal (step m w).2 = (journal w ++ j)%list
              /\ rng (step m w).2 = drop k (rng w).
Proof.
  destruct m; simpl; try (exists [], 0; by rewrite app_nil_r).
  - destruct (write_file_cases w p data) as [[e ->]|[-> _]]; simpl.
    + exists [], 0. by rewrite app_nil_r.
    + by eexists _, 0.
  - destruct (mkdir_temp_spec w dir pattern)
      as [[kd Hk] [(e & _ & _ & Hj)|(sfx & _ & _ & _ & _ & Hj)]];
      destruct (OS.mkdir_temp w dir pattern) as [r w']; simpl in *.
    + exists [], kd. by rewrite app_nil_r.
    + eauto.
  - destruct (rename_cases w old new) as [[e ->]|[-> _]]; simpl.
    + exists [], 0. by rewrite app_nil_r.
    + by eexists _, 0.
  - destruct (atomic_write_cases w p data)
      as [[e ->]|[[-> _]|(e & sfx & _ & -> & _)]]; simpl.
    + exists [], 0. by rewrite app_nil_r.
    + by eexists _, 0.
    + by eexists _, 0.
Qed.

Lemma run_upto_world {A : Type} n (m : Prog A) w :
  exists j k, journal (run_upto n m w).2 = (journal w ++ j)%list
              /\ rng (run_upto n m w).2 = drop k (rng w).
Proof.
  revert m w. induction n as [|n IH]; intros m w; simpl.
  - exists [], 0. by rewrite app_nil_r.
  - destruct (step_world m w) as (j1 & k1 & Hj1 & Hk1).
    destruct (step m w) as [m' w']. simpl in *.
    destruct (IH m' w') as (j2 & k2 & Hj2 & Hk2).
    exists (j1 ++ j2)%list, (k1 + k2).
    split; [by rewrite Hj2, Hj1, app_assoc|].
    by rewrite Hk2, Hk1, drop_drop.
Qed.

(** A run to completion is a run of some number of operations. *)
Lemma run_upto_reaches {A : Type} (m : Prog A) w :
  exists n, (run_upto n m w).2 = (run m w).2.
Proof.
  revert w. induction m as [a|msg|p k IH|p k IH|p d k IH|d pat k IH|o n k IH|p d k IH];
    intros w.
  - by exists 0.
  - by exists 0.
  - destruct (IH (OS.stat w p) w) as [n Hn]. by exists (S n).
  - destruct (IH (OS.read_file w p) w) as [n Hn]. by exists (S n).
  - simpl. destruct (OS.write_file w p d) as [r w'] eqn:E.
    destruct (IH r w') as [n Hn]. exists (S n). simpl. by rewrite E.
  - simpl. destruct (OS.mkdir_temp w d pat) as [r w'] eqn:E.
    destruct (IH r w') as [n Hn]. exists (S n). simpl. by rewrite E.
  - simpl. destruct (OS.rename w o n) as [r w'] eqn:E.
    destruct (IH r w') as [n' Hn]. exists (S n'). simpl. by rewrite E.
  - simpl. destruct (OS.atomic_write_file w p d) as [r w'] eqn:E.
    destruct (IH r w') as [n Hn]. exists (S n). simpl. by rewrite E.
Qed.

Lemma run_world {A : Type} (m : Prog A) w :
  exists j k, journal (run m w).2 = (journal w ++ j)%list
              /\ rng (run m w).2 = drop k (rng w).
Proof.
  destruct (run_upto_reaches m w) as [n <-]. apply run_upto_world.
Qed.

Lemma run_journal {A : Type} (m : Prog A) w :
  exists j, journal (run m w).2 = (journal w ++ j)%list.
Proof. destruct (run_world m w) as (j & _ & Hj & _). eauto. Qed.

Lemma run_upto_atoms {A : Type} n (m : Prog A) w :
  Forall atom (rng w) -> Forall atom (rng (run_upto n m w).2).
Proof.
  intros Hr. destruct (run_upto_world n m w) as (_ & k & _ & ->).
  by apply Forall_drop.
Qed.

Lemma run_atoms {A : Type} (m : Prog A) w :
  Forall atom (rng w) -> Forall atom (rng (run m w).2).
Proof.
  intros Hr. destruct (run_world m w) as (_ & k & _ & ->).
  by apply Forall_drop.
Qed.

Lemma did_rename_app K j1 j2 :
  did_rename K j1 \/ did_rename K j2 -> did_rename K (j1 ++ j2).
Proof.
  intros [[tmp Hin]|[tmp Hin]]; exists tmp; apply elem_of_app; auto.
Qed.

Lemma not_rename_did K j : Forall not_rename j -> ~ did_rename K j.
Proof.
  intros Hj [tmp Hin]. rewrite Forall_forall in Hj. exact (Hj _ Hin).
Qed.

(** ** Programs confined to a set of paths *)

(** One operation of a program confined to [S] changes nothing outside
    [S] and renames nothing. *)
Lemma step_confined (S : string -> Prop) {A : Type} (m : Prog A) w :
  confined S m -> Forall atom (rng w) ->
  confined S (step m w).1
  /\ (forall k, ~ S k -> files (step m w).2 !! k = files w !! k)
  /\ exists j, journal (step m w).2 = (journal w ++ j)%list
               /\ Forall not_rename j.
Proof.
  intros Hc Hrng. destruct m; simpl in *; try done;
    try (split; [auto|]; split; [done|]; exists []; by rewrite app_nil_r).
  - destruct Hc as [Hp Hk].
    destruct (write_file_cases w p data) as [[e ->]|[-> _]]; simpl.
    + split; [auto|]. split; [done|]. exists []. by rewrite app_nil_r.
    + split; [auto|]. split.
      * intros k0 Hn. apply lookup_insert_ne. intros <-. by apply Hn.
      * eexists. split; [done|]. by repeat constructor.
  - destruct Hc as [Hp Hk].
    destruct (mkdir_temp_spec w dir pattern)
      as [_ [(e & _ & Hf & Hj)|(sfx & Hin & _ & _ & Hf & Hj)]];
      destruct (OS.mkdir_temp w dir pattern) as [r w']; simpl in *.
    + split; [auto|]. split; [by rewrite Hf|].
      exists []. by rewrite app_nil_r.
    + split; [auto|]. split.
      * intros k0 Hn. rewrite Hf. apply lookup_insert_ne. intros <-.
        apply Hn, Hp. rewrite Forall_forall in Hrng. auto.
      * eexists. split; [done|]. by repeat constructor.
  - destruct Hc as (Hp & Ht & Hk).
    destruct (atomic_write_cases w p data)
      as [[e ->]|[[-> _]|(e & sfx & Hin & -> & _)]]; simpl.
    + split; [auto|]. split; [done|]. exists []. by rewrite app_nil_r.
    + split; [auto|]. split.
      * intros k0 Hn. apply lookup_insert_ne. intros <-. by apply Hn.
      * eexists. split; [done|]. by repeat constructor.
    + split; [auto|]. split.
      * intros k0 Hn. apply lookup_insert_ne. intros <-.
        apply Hn, Ht. rewrite Forall_forall in Hrng. auto.
      * eexists. split; [done|]. by repeat constructor.
Qed.

(** Wherever a program confined to [S] is cut off, nothing outside [S] has
    changed and nothing has been renamed. *)
Lemma run_upto_confined (S : string -> Prop) {A : Type} n (m : Prog A) w :
  confined S m -> Forall atom (rng w) ->
  (forall k, ~ S k -> files (run_upto n m w).2 !! k = files w !! k)
  /\ exists j, journal (run_upto n m w).2 = (journal w ++ j)%list
               /\ Forall not_rename j.
Proof.
  revert m w. induction n as [|n IH]; intros m w Hc Hrng; simpl.
  - split; [done|]. exists []. by rewrite app_nil_r.
  - destruct (step_confined S m w Hc Hrng) as (Hc' & Hf1 & j1 & Hj1 & Hn1).
    pose proof (run_upto_atoms 1 m w Hrng) as Hrng'. simpl in Hrng'.
    destruct (step m w) as [m' w']. simpl in *.
    destruct (IH m' w' Hc' Hrng') as (Hf2 & j2 & Hj2 & Hn2). split.
    + intros k Hk. by rewrite Hf2, Hf1.
    + exists (j1 ++ j2)%list. split; [by rewrite Hj2, Hj1, app_assoc|].
      by apply Forall_app.
Qed.

Lemma run_confined (S : string -> Prop) {A : Type} (m : Prog A) w :
  confined S m -> Forall atom (rng w) ->
  (forall k, ~ S k -> files (run m w).2 !! k = files w !! k)
  /\ exists j, journal (run m w).2 = (journal w ++ j)%list
               /\ Forall not_rename j.
Proof.
  destruct (run_upto_reaches m w) as [n <-]. apply run_upto_confined.
Qed.

Lemma confined_bind (S : string -> Prop) {A B : Type} (m : Prog A)
    (f : A -> Prog B) :
  confined S m -> (forall a, confined S (f a)) -> confined S (bind m f).
Proof.
  induction m; simpl; intros Hm Hf; auto.
  - destruct Hm; split; auto.
  - destruct Hm; split; auto.
  - destruct Hm as (? & ? & ?); repeat split; auto.
Qed.

Lemma confined_mbind (S : string -> Prop) {A B : Type} (m : Prog A)
    (f : A -> Prog B) :
  confined S m -> (forall a, confined S (f a)) -> confined S (m ≫= f).
Proof. apply confined_bind. Qed.

Lemma confined_readonly (S : string -> Prop) {A : Type} (m : Prog A) :
  readonly m -> confined S m.
Proof. induction m; simpl; intros Hm; try done; auto. Qed.

Lemma confined_pathExists S p : confined S (pathExists p).
Proof. intros [e|]; simpl; [destruct (os_IsNotExist e)|]; done. Qed.

Lemma confined_getTrimStringFromFile S p : confined S (getTrimStringFromFile p).
Proof. intros [e|data]; done. Qed.

Lemma confined_GetBlobRepoDigest S d : confined S (GetBlobRepoDigest d).
Proof.
  apply confined_mbind; [apply confined_getTrimStringFromFile|].
  intros [url [e|]]; [done|]. cbv beta iota zeta.
  destruct (negb _); [done|]. destruct (_ <? _)%Z; done.
Qed.

Lemma confined_GetBlobSize S d : confined S (GetBlobSize d).
Proof.
  apply confined_mbind; [apply confined_getTrimStringFromFile|].
  intros [str [e|]]; done.
Qed.

Lemma confined_copy_range (S : string -> Prop) src dst names :
  Forall (fun n => S (OS.key (GoPath.Join [dst; n]))) names ->
  confined S (copyPulledZdfsMetaFiles_range src dst names).
Proof.
  induction 1 as [|name rest Hn _ IH]; simpl; [done|].
  intros err. destruct (match err with Some e => _ | None => _ end); [done|].
  intros [e|data]; [done|]. simpl. split; [done|].
  intros [e|]; done.
Qed.

(** ** Cutting a run off *)

Lemma run_upto_Ret {A : Type} n (a : A) w : run_upto n (Ret a) w = (Ret a, w).
Proof. induction n; simpl; auto. Qed.

Lemma run_upto_Panic {A : Type} n msg w :
  run_upto n (@Panic A msg) w = (Panic msg, w).
Proof. induction n; simpl; auto. Qed.

(** The state in which a cut leaves [m] followed by [f] is one in which a
    cut leaves [m], or one in which a cut leaves [f] run after [m]. *)
Lemma run_upto_bind_cases {A B : Type} (m : Prog A) (f : A -> Prog B) n w :
  (run_upto n (bind m f) w).2 = (run_upto n m w).2
  \/ exists a w1 n', run m w = (Done a, w1)
       /\ (run_upto n (bind m f) w).2 = (run_upto n' (f a) w1).2.
Proof.
  revert n w.
  induction m as [a|msg|p k IH|p k IH|p d k IH|d pat k IH|o nw k IH|p d k IH];
    intros n w.
  - right. by exists a, w, n.
  - left. simpl bind. by rewrite !run_upto_Panic.
  - destruct n as [|n]; [by left|]. simpl. apply IH.
  - destruct n as [|n]; [by left|]. simpl. apply IH.
  - destruct n as [|n]; [by left|]. simpl.
    destruct (OS.write_file w p d) as [r w']. apply IH.
  - destruct n as [|n]; [by left|]. simpl.
    destruct (OS.mkdir_temp w d pat) as [r w']. apply IH.
  - destruct n as [|n]; [by left|]. simpl.
    destruct (OS.rename w o nw) as [r w']. apply IH.
  - destruct n as [|n]; [by left|]. simpl.
    destruct (OS.atomic_write_file w p d) as [r w']. apply IH.
Qed.

Lemma always_bind {A B : Type} (P : World -> Prop) (m : Prog A)
    (f : A -> Prog B) w :
  always P m w ->
  (forall a w1, run m w = (Done a, w1) -> always P (f a) w1) ->
  always P (m ≫= f) w.
Proof.
  intros Hm Hf n.
  destruct (run_upto_bind_cases m f n w) as [E|(a & w1 & n' & Hr & E)];
    unfold mbind, Prog_bind; rewrite E; [apply Hm|by apply Hf].
Qed.

Lemma always_Ret {A : Type} (P : World -> Prop) (a : A) w :
  P w -> always P (Ret a) w.
Proof. intros HP n. by rewrite run_upto_Ret. Qed.

Lemma always_step {A : Type} (P : World -> Prop) (m : Prog A) w :
  P w -> always P (step m w).1 (step m w).2 -> always P m w.
Proof.
  intros HP Hs [|n]; [done|]. simpl.
  specialize (Hs n). by destruct (step m w).
Qed.

Lemma always_run {A : Type} (P : World -> Prop) (m : Prog A) w :
  always P m w -> P (run m w).2.
Proof. intros Hm. destruct (run_upto_reaches m w) as [n <-]. apply Hm. Qed.

Lemma always_confined (S : string -> Prop) {A : Type} (P : World -> Prop)
    (m : Prog A) w :
  confined S m -> Forall atom (rng w) ->
  (forall w', (forall k, ~ S k -> files w' !! k = files w !! k) ->
              (exists j, journal w' = (journal w ++ j)%list
                         /\ Forall not_rename j) -> P w') ->
  always P m w.
Proof.
  intros Hc Hrng HP n.
  destruct (run_upto_confined S n m w Hc Hrng) as [Hf Hj]. by apply HP.
Qed.

(** ** Entries of the same kind *)

Lemma missing_from_same_kind fs fs' fuel k :
  (forall k, same_kind (fs' !! k) (fs !! k)) ->
  OS.missing_from fs' fuel k = OS.missing_from fs fuel k.
Proof.
  intros Hk. revert k. induction fuel as [|fuel IH]; intros k; simpl; [done|].
  destruct (String.eqb _ _); [done|].
  specialize (Hk (GoPath.Dir k)). unfold same_kind in Hk.
  destruct (fs' !! GoPath.Dir k) as [[d'| |]|],
           (fs !! GoPath.Dir k) as [[d| |]|]; try done; auto.
Qed.

(** [os.Stat] sees the kind of an entry, not its bytes. *)
Lemma stat_same_kind w w' p :
  (forall k, same_kind (files w' !! k) (files w !! k)) ->
  OS.stat w' p = OS.stat w p.
Proof.
  intros Hk. unfold OS.stat, OS.missing.
  rewrite (missing_from_same_kind _ _ _ _ Hk).
  specialize (Hk (OS.key p)). unfold same_kind in Hk.
  destruct (files w' !! OS.key p) as [[d'| |]|],
           (files w !! OS.key p) as [[d| |]|]; done.
Qed.

Section Facts.
Context `{Collaborators}.

Lemma run_loadBackingStoreConfig dir w :
  run (loadBackingStoreConfig dir) w = (Done (loaded w dir), w).
Proof.
  unfold loadBackingStoreConfig, loaded; simpl.
  destruct (OS.read_file w (overlaybdConfPath dir)); simpl; try done.
  destruct (json_Unmarshal s); done.
Qed.

Lemma loaded_holds w dir c :
  loaded w dir = inr c <-> holds_descriptor w dir c.
Proof.
  unfold loaded, holds_descriptor, OS.read_file. split.
  - destruct (files w !! OS.key (overlaybdConfPath dir)) as [[data| |]|]; try done.
    destruct (json_Unmarshal data) eqn:E; try done.
    intros [= <-]. eauto.
  - intros (data & -> & ->). done.
Qed.

(** The outcomes of [atomicWriteOverlaybdTargetConfig]: an error and an
    untouched world; or the marshalled bytes put at the descriptor path; or
    an error and a temporary file left beside the descriptor path, which is
    then taken by a directory or by an entry that cannot be examined. *)
Lemma run_atomicWrite dir c w :
  (exists e, run (atomicWriteOverlaybdTargetConfig dir c) w = (Done (Some e), w))
  \/ (exists data,
        json_Marshal c = inr data
        /\ files w !! OS.key (overlaybdConfPath dir) <> Some NDir
        /\ files w !! OS.key (overlaybdConfPath dir) <> Some NDenied
        /\ run (atomicWriteOverlaybdTargetConfig dir c) w
           = (Done None,
              OS.put w (OS.key (overlaybdConfPath dir)) (NFile data)
                     (MAtomicWrite (OS.key (overlaybdConfPath dir)))))
  \/ (exists e data sfx,
        sfx ∈ rng w
        /\ (files w !! OS.key (overlaybdConfPath dir) = Some NDir
            \/ files w !! OS.key (overlaybdConfPath dir) = Some NDenied)
        /\ files w !! OS.key (OS.atomic_temp (overlaybdConfPath dir) sfx) = None
        /\ run (atomicWriteOverlaybdTargetConfig dir c) w
           = (Done (Some e),
              OS.put w (OS.key (OS.atomic_temp (overlaybdConfPath dir) sfx))
                     (NFile data)
                     (MTempFile
                        (OS.key (OS.atomic_temp (overlaybdConfPath dir) sfx))))).
Proof.
  unfold atomicWriteOverlaybdTargetConfig.
  destruct (json_Marshal c) as [e|data] eqn:E.
  - left; eexists; reflexivity.
  - simpl.
    destruct (atomic_write_cases w (overlaybdConfPath dir) data)
      as [[e ->]|[(-> & ? & ?)|(e & sfx & Hin & -> & Hfree & Hd)]].
    + left; eexists; reflexivity.
    + right; left; exists data; done.
    + right; right. eexists _, data, sfx. done.
Qed.

(** Onto a descriptor path that is free or holds a regular file, it is all
    or nothing. *)
Lemma run_atomicWrite_file dir c w :
  files w !! OS.key (overlaybdConfPath dir) <> Some NDir ->
  files w !! OS.key (overlaybdConfPath dir) <> Some NDenied ->
  (exists e, run (atomicWriteOverlaybdTargetConfig dir c) w = (Done (Some e), w))
  \/ (exists data,
        json_Marshal c = inr data
        /\ run (atomicWriteOverlaybdTargetConfig dir c) w
           = (Done None,
              OS.put w (OS.key (overlaybdConfPath dir)) (NFile data)
                     (MAtomicWrite (OS.key (overlaybdConfPath dir))))).
Proof.
  intros Hd Hn.
  destruct (run_atomicWrite dir c w)
    as [He|[(data & Hm & _ & _ & Hr)|(e & data & sfx & _ & [Hc|Hc] & _)]];
    [by left|right; eauto|done|done].
Qed.

(** A successful [atomicWriteOverlaybdTargetConfig] leaves [c] built. *)
Lemma atomicWrite_built dir c w w' :
  run (atomicWriteOverlaybdTargetConfig dir c) w = (Done None, w') ->
  built w' dir c
  /\ exists data, json_Marshal c = inr data /\
       w' = OS.put w (OS.key (overlaybdConfPath dir)) (NFile data)
                   (MAtomicWrite (OS.key (overlaybdConfPath dir))).
Proof.
  destruct (run_atomicWrite dir c w)
    as [[e ->]|[(data & Hm & _ & _ & ->)|(e & data & sfx & _ & _ & _ & ->)]];
    intros [= <-].
  split; [|eauto]. exists data. split; [done|].
  simpl. apply lookup_insert_eq.
Qed.

Lemma String_eqb_false_ne (a b : string) : String.eqb a b = false -> a <> b.
Proof. intros E ->. rewrite String.eqb_refl in E. done. Qed.

(** C1, as amended.  The descriptor written by a successful
    [constructSpec] has as its lowers: for an empty parent, the constant
    base-layer reference [{File: "/opt/overlaybd/baselayers/.commit"}] and
    then the layer's own entry; for a parent, the lowers of the parent's
    descriptor in order and then the own entry.  The own entry holds the
    digest, the block directory of the layer, and as size [int64(size)]:
    the size itself below 2^63, and the size less 2^64 from there on.  So
    when the parent was itself built as a base layer, and its descriptor
    reads back as it was written, the child's lowers are the base-layer
    reference, the parent's entry and the child's entry, in that order. *)
Theorem constructSpec_lowers
    (dir parent repo digest : string) (size : Z) (trace : string)
    (w w' : World) :
  (0 <= size <= strconv.maxUint64)%Z ->
  run (constructSpec dir parent repo digest size trace) w = (Done None, w') ->
  let base :=
    types.mkLower "/opt/overlaybd/baselayers/.commit" EmptyString 0
                  EmptyString in
  let entry (d g : string) (s : Z) :=
    types.mkLower EmptyString g
                  (if (s <? 2 ^ 63)%Z then s else (s - 2 ^ 64)%Z)
                  (GoPath.Join [d; "block"]) in
  exists c, built w' dir c
    /\ (parent = EmptyString ->
        types.Lowers c = [base; entry dir digest size])
    /\ (parent <> EmptyString ->
        exists pc, holds_descriptor w parent pc
          /\ types.Lowers c = (types.Lowers pc ++ [entry dir digest size])%list)
    /\ (forall repo0 digest0 size0 trace0 w0,
          parent <> EmptyString ->
          run (constructSpec parent EmptyString repo0 digest0 size0 trace0) w0
            = (Done None, w) ->
          roundtrips_at
            (types.mkConfig repo0 [base; entry parent digest0 size0]
                            (overlaybdInitDebuglogPath parent) trace0) ->
          types.Lowers c
          = [base; entry parent digest0 size0; entry dir digest size])
    /\ ((size < 2 ^ 63)%Z ->
        entry dir digest size
        = types.mkLower EmptyString digest size (GoPath.Join [dir; "block"])).
Proof.
  intros Hsize Hrun base entry.
  assert ((size < 2 ^ 63)%Z ->
          entry dir digest size
          = types.mkLower EmptyString digest size (GoPath.Join [dir; "block"]))
    as Hsmall.
  { intros Hlt. unfold entry. apply Z.ltb_lt in Hlt. by rewrite Hlt. }
  revert Hrun. unfold constructSpec.
  destruct (String.eqb parent EmptyString) eqn:Ep.
  - apply String.eqb_eq in Ep as ->. intros Hrun.
    apply atomicWrite_built in Hrun as [Hb _].
    eexists. split; [exact Hb|]. simpl. repeat split; done.
  - apply String_eqb_false_ne in Ep.
    rewrite run_mbind, run_loadBackingStoreConfig.
    destruct (loaded w parent) as [e|pc] eqn:El; [done|].
    intros Hrun. apply atomicWrite_built in Hrun as [Hb _].
    eexists. split; [exact Hb|]. simpl.
    split; [done|]. split; [|split; [|done]].
    + intros _. exists pc. split; [by apply loaded_holds|done].
    + intros repo0 digest0 size0 trace0 w0 _ Hbase Hrt.
      unfold constructSpec in Hbase. simpl String.eqb in Hbase. cbv iota in Hbase.
      apply atomicWrite_built in Hbase as [(data & Hm & Hf) _].
      apply loaded_holds in El as (data' & Hf' & Hu).
      rewrite Hf in Hf'. injection Hf' as <-.
      simpl in Hm. rewrite (Hrt data Hm) in Hu. injection Hu as <-.
      reflexivity.
Qed.

Lemma updateSpec_cases (dir p : string) (w : World)
    (c : types.OverlayBDBSConfig) :
  holds_descriptor w dir c ->
  (types.RecordTracePath c = p -> run (updateSpec dir p) w = (Done None, w)) /\
  (types.RecordTracePath c <> p ->
     (exists e, run (updateSpec dir p) w = (Done (Some e), w)) \/
     (exists data,
        run (updateSpec dir p) w
          = (Done None,
             OS.put w (OS.key (overlaybdConfPath dir)) (NFile data)
                    (MAtomicWrite (OS.key (overlaybdConfPath dir))))
        /\ json_Marshal (types.set_RecordTracePath p c) = inr data)).
Proof.
  intros Hc. apply loaded_holds in Hc.
  unfold updateSpec. rewrite run_mbind, run_loadBackingStoreConfig, Hc.
  split.
  - intros <-. rewrite String.eqb_refl. done.
  - intros Hne.
    assert (String.eqb p (types.RecordTracePath c) = false) as ->.
    { apply String.eqb_neq. congruence. }
    destruct (run_atomicWrite_file dir (types.set_RecordTracePath p c) w)
      as [[e He]|(data & Hm & Hr)].
    + apply loaded_holds in Hc as (old & -> & _). done.
    + apply loaded_holds in Hc as (old & -> & _). done.
    + left. eauto.
    + right. exists data. done.
Qed.

(** C10.  On a layer whose descriptor file is readable and parseable,
    [updateSpec] with trace path [p] does nothing at all when the stored
    trace path is [p] already: no write, the world is as before.  Otherwise
    it either fails with the world as before, or replaces the bytes of the
    descriptor file by those of a descriptor that differs from the stored
    one in [RecordTracePath] only. *)
Theorem updateSpec_frame (dir p : string) (w : World)
    (c : types.OverlayBDBSConfig) :
  holds_descriptor w dir c ->
  (types.RecordTracePath c = p -> run (updateSpec dir p) w = (Done None, w)) /\
  (types.RecordTracePath c <> p ->
     (exists e, run (updateSpec dir p) w = (Done (Some e), w)) \/
     (exists c' data,
        run (updateSpec dir p) w
          = (Done None,
             OS.put w (OS.key (overlaybdConfPath dir)) (NFile data)
                    (MAtomicWrite (OS.key (overlaybdConfPath dir))))
        /\ json_Marshal c' = inr data
        /\ types.RecordTracePath c' = p
        /\ types.Lowers c' = types.Lowers c
        /\ types.RepoBlobURL c' = types.RepoBlobURL c
        /\ types.ResultFile c' = types.ResultFile c)).
Proof.
  intros Hc. destruct (updateSpec_cases dir p w c Hc) as [Hsame Hdiff].
  split; [exact Hsame|].
  intros Hne. destruct (Hdiff Hne) as [He|(data & Hr & Hm)]; [by left|].
  right. exists (types.set_RecordTracePath p c), data.
  repeat split; done.
Qed.

Lemma run_plan_cons per_dir d p d' p' rest :
  run_plan per_dir ((d, p) :: (d', p') :: rest) =
  (err ← per_dir d p;
   match err with
   | Some e => Ret (true, Some e)
   | None => run_plan per_dir ((d', p') :: rest)
   end).
Proof. reflexivity. Qed.

Lemma plan_from_snoc parent dirs last :
  exists d p rest, plan_from parent (dirs ++ [last])%list = (d, p) :: rest.
Proof. destruct dirs; simpl; eauto. Qed.

(** The loop, started at [m] with [k] rounds to go, walks the first [k]
    lowers backwards and then the last directory. *)
Lemma walk_from_plan per_dir lowers last k parent :
  k <= length lowers ->
  walk_from per_dir lowers last (seq (length lowers - k) k) parent =
  run_plan per_dir (plan_from parent (rev (take k lowers) ++ [last])%list).
Proof.
  revert parent. induction k as [|k IH]; intros parent Hk.
  - simpl. reflexivity.
  - rewrite <- cons_seq. simpl walk_from.
    replace (length lowers - (length lowers - S k) - 1) with k by lia.
    replace (S (length lowers - S k)) with (length lowers - k) by lia.
    destruct (lookup_lt_is_Some_2 lowers k ltac:(lia)) as [x Hx].
    rewrite (take_S_r _ _ _ Hx), rev_app_distr. simpl rev. simpl app.
    rewrite (nth_lookup_Some _ _ _ _ Hx).
    destruct (plan_from_snoc x (rev (take k lowers)) last) as (d & p & rest & E).
    simpl plan_from. rewrite E, run_plan_cons, <- E.
    f_equal. apply functional_extensionality. intros [e|]; [done|].
    apply IH. lia.
Qed.

Lemma plan_from_fst parent dirs : (plan_from parent dirs).*1 = dirs.
Proof. revert parent; induction dirs; intros; simpl; f_equal; auto. Qed.

Lemma plan_from_snd parent dirs last :
  (plan_from parent (dirs ++ [last])%list).*2 = parent :: dirs.
Proof.
  revert parent; induction dirs as [|d dirs IH]; intros; simpl; f_equal; auto.
Qed.

(** The entry point as the probe's verdict followed by the plan. *)
Lemma PrepareOverlayBDSpec_with_run per_dir key id dir snPath w :
  run (PrepareOverlayBDSpec_with per_dir key id dir snPath) w =
  match (run (isOverlaybdLayer dir) w).1 with
  | Done (true, None) =>
      run (run_plan per_dir (walk_plan (ancestor_dirs key snPath) (snPath id))) w
  | Done (true, Some e) => (Done (false, Some e), w)
  | Done (false, _) => (Done (false, None), w)
  | Panicked msg => (Panicked msg, w)
  end.
Proof.
  unfold PrepareOverlayBDSpec_with. rewrite run_mbind.
  pose proof (readonly_run _ w (isOverlaybdLayer_readonly dir)) as Hw.
  destruct (run (isOverlaybdLayer dir) w) as [o w1]. simpl in Hw. subst w1.
  destruct o as [[[] [e|]]|msg]; simpl; try done.
  unfold walk_plan, ancestor_dirs.
  destruct (storage_GetSnapshot key) as [s e]. simpl fst.
  set (lowers := map snPath (storage.ParentIDs s)).
  pose proof (walk_from_plan per_dir lowers (snPath id) (length lowers)
                EmptyString (le_n _)) as Hwalk.
  rewrite Nat.sub_diag, firstn_all in Hwalk.
  rewrite Hwalk. reflexivity.
Qed.

(** C2.  When the probe accepts the snapshot, [PrepareOverlayBDSpec], around
    any per-directory procedure and so around [doDir], calls the procedure on
    the ancestors' directories from the oldest to the newest and last on the
    directory of the active layer, up to the first failure; the parent it
    passes is the directory of the call before, and the empty string at the
    first call. *)
Theorem PrepareOverlayBDSpec_walk_order
    (per_dir : string -> string -> Prog (option error))
    (key id dir : string) (snPath : string -> string) (w : World) :
  (run (isOverlaybdLayer dir) w).1 = Done (true, None) ->
  let ancestors := ancestor_dirs key snPath in
  let plan := walk_plan ancestors (snPath id) in
  run (PrepareOverlayBDSpec_with per_dir key id dir snPath) w
    = run (run_plan per_dir plan) w
  /\ PrepareOverlayBDSpec key id dir snPath
     = PrepareOverlayBDSpec_with doDir key id dir snPath
  /\ plan.*1 = (ancestors ++ [snPath id])%list
  /\ plan.*2 = EmptyString :: ancestors.
Proof.
  intros Hprobe ancestors plan.
  split; [|split; [reflexivity|split]].
  - rewrite PrepareOverlayBDSpec_with_run, Hprobe. reflexivity.
  - apply plan_from_fst.
  - apply plan_from_snd.
Qed.

(** *** Layers that already hold a descriptor *)

Lemma holds_present w d c :
  holds_descriptor w d c -> present w (overlaybdConfPath d).
Proof. intros (data & Hf & _). exists (NFile data). done. Qed.

Lemma quiet_run w d p : quiet w d -> run (doDir d p) w = (Done None, w).
Proof.
  intros [[Habs Hconf]|[Hmeta (c & Hc & Ht)]]; unfold doDir;
    rewrite run_mbind, run_pathExists.
  - rewrite Habs. cbv beta iota.
    fold (overlaybdConfPath d).
    rewrite run_mbind, run_pathExists, (path_exists_present _ _ Hconf). done.
  - rewrite (path_exists_present _ _ Hmeta). cbv beta iota.
    rewrite run_mbind, run_pathExists,
      (path_exists_present _ _ (holds_present _ _ _ Hc)). cbv beta iota.
    by apply (updateSpec_cases d EmptyString w c Hc).
Qed.

(** [doDir] on a layer with a valid descriptor: it fails or has nothing to
    do, the world staying as it is, or it clears the trace path. *)
Lemma doDir_valid w d p :
  valid_layer w d ->
  exists r w',
    run (doDir d p) w = (Done r, w') /\
    ((w' = w /\ (r = None -> quiet w d)) \/
     (r = None /\ refresh d w w' /\ present w (GoPath.Join [d; zdfsMetaDir]))).
Proof.
  intros (c & Hc & Hrt). unfold doDir. rewrite run_mbind, run_pathExists.
  pose proof (holds_present _ _ _ Hc) as Hconf.
  destruct (files w !! OS.key (GoPath.Join [d; zdfsMetaDir])) as [n|] eqn:E.
  - assert (n = NDenied \/ n <> NDenied) as [->|Hn]
      by (destruct n; auto; left; done).
    + rewrite (path_exists_denied _ _ E). cbv beta iota.
      eexists _, _. split; [reflexivity|]. left. done.
    + assert (present w (GoPath.Join [d; zdfsMetaDir])) as Hmeta by (exists n; done).
      rewrite (path_exists_present _ _ Hmeta). cbv beta iota.
      rewrite run_mbind, run_pathExists, (path_exists_present _ _ Hconf). cbv beta iota.
      destruct (updateSpec_cases d EmptyString w c Hc) as [Hsame Hdiff].
      destruct (decide (types.RecordTracePath c = EmptyString)) as [Ht|Ht].
      * rewrite (Hsame Ht). eexists _, _. split; [reflexivity|]. left.
        split; [done|]. intros _. right. eauto.
      * destruct (Hdiff Ht) as [[e ->]|(data & -> & Hm)].
        -- eexists _, _. split; [reflexivity|]. left. done.
        -- eexists _, _. split; [reflexivity|]. right.
           split; [done|]. split; [|done].
           destruct Hc as (old & Hf & Hu). exists old, c, data. done.
  - destruct (path_exists_absent _ _ E) as [Ea|[e Ea]]; rewrite Ea;
      cbv beta iota.
    + fold (overlaybdConfPath d).
      rewrite run_mbind, run_pathExists, (path_exists_present _ _ Hconf).
      cbv beta iota.
      eexists _, _. split; [reflexivity|]. left.
      split; [done|]. intros _. left. done.
    + eexists _, _. split; [reflexivity|]. left. done.
Qed.

Lemma refresh_lookup_ne d w w' k :
  refresh d w w' -> k <> OS.key (overlaybdConfPath d) ->
  files w' !! k = files w !! k.
Proof.
  intros (old & c & data & _ & _ & _ & _ & ->) Hk. simpl.
  by apply lookup_insert_ne.
Qed.

Lemma refresh_lookup_eq d w w' :
  refresh d w w' ->
  exists old data c,
    files w !! OS.key (overlaybdConfPath d) = Some (NFile old)
    /\ files w' !! OS.key (overlaybdConfPath d) = Some (NFile data)
    /\ json_Unmarshal data = inr c
    /\ types.RecordTracePath c = EmptyString
    /\ roundtrips_at (types.set_RecordTracePath EmptyString c).
Proof.
  intros (old & c & data & Hf & Hu & Hm & Hrt & ->).
  exists old, data, (types.set_RecordTracePath EmptyString c).
  split; [done|]. split; [apply lookup_insert_eq|].
  split; [by apply Hrt|]. split; [done|exact Hrt].
Qed.

Lemma refresh_node d w w' k :
  refresh d w w' ->
  files w' !! k = files w !! k \/
  exists old data, files w !! k = Some (NFile old)
                   /\ files w' !! k = Some (NFile data).
Proof.
  intros Hr. destruct (decide (k = OS.key (overlaybdConfPath d))) as [->|Hk].
  - right. destruct (refresh_lookup_eq _ _ _ Hr) as (old & data & _ & ? & ? & _).
    eauto.
  - left. by eapply refresh_lookup_ne.
Qed.

Lemma refresh_same_kind d w w' k :
  refresh d w w' -> same_kind (files w' !! k) (files w !! k).
Proof.
  intros Hr. unfold same_kind.
  destruct (refresh_node d w w' k Hr) as [->|(old & data & -> & ->)];
    [|done].
  by destruct (files w !! k) as [[| |]|].
Qed.

Lemma refresh_stat d w w' p : refresh d w w' -> OS.stat w' p = OS.stat w p.
Proof.
  intros Hr. apply stat_same_kind. intros k. by eapply refresh_same_kind.
Qed.

Lemma refresh_present d w w' p : refresh d w w' -> present w p -> present w' p.
Proof.
  intros Hr (n & Hf & Hn).
  destruct (refresh_node d w w' (OS.key p) Hr) as [E|(old & data & _ & E)];
    unfold present; rewrite E; [by exists n|by eexists].
Qed.

Lemma refresh_absent d w w' k :
  refresh d w w' -> files w !! k = None -> files w' !! k = None.
Proof.
  intros Hr Hk.
  destruct (refresh_node d w w' k Hr) as [E|(old & data & E & _)]; congruence.
Qed.

Lemma refresh_holds d w w' d0 c0 :
  refresh d w w' -> holds_descriptor w d0 c0 ->
  exists c1, holds_descriptor w' d0 c1
    /\ (types.RecordTracePath c0 = EmptyString ->
        types.RecordTracePath c1 = EmptyString)
    /\ (roundtrips_at (types.set_RecordTracePath EmptyString c0) ->
        roundtrips_at (types.set_RecordTracePath EmptyString c1)).
Proof.
  intros Hr (data0 & Hf & Hu).
  destruct (decide (OS.key (overlaybdConfPath d0) = OS.key (overlaybdConfPath d)))
    as [E|E].
  - destruct (refresh_lookup_eq _ _ _ Hr) as (old & data & c & _ & Hf' & Hu' & Ht & Hrt).
    exists c. split; [exists data; by rewrite E|]. done.
  - exists c0. split; [|done]. exists data0.
    by rewrite (refresh_lookup_ne _ _ _ _ Hr E).
Qed.

Lemma refresh_valid d w w' d0 :
  refresh d w w' -> valid_layer w d0 -> valid_layer w' d0.
Proof.
  intros Hr (c0 & Hc & Hrt).
  destruct (refresh_holds _ _ _ _ _ Hr Hc) as (c1 & Hc1 & _ & Hrt1).
  exists c1. auto.
Qed.

Lemma refresh_quiet d w w' d0 : refresh d w w' -> quiet w d0 -> quiet w' d0.
Proof.
  intros Hr [[Habs Hconf]|[Hmeta (c & Hc & Ht)]].
  - left. split; [|by eapply refresh_present].
    unfold path_exists in *. by rewrite (refresh_stat _ _ _ _ Hr).
  - right. split; [by eapply refresh_present|].
    destruct (refresh_holds _ _ _ _ _ Hr Hc) as (c1 & Hc1 & Ht1 & _).
    exists c1. auto.
Qed.

Lemma refresh_quiet_self d w w' :
  refresh d w w' -> present w (GoPath.Join [d; zdfsMetaDir]) -> quiet w' d.
Proof.
  intros Hr Hmeta. right. split; [by eapply refresh_present|].
  destruct (refresh_lookup_eq _ _ _ Hr) as (old & data & c & _ & Hf & Hu & Ht & _).
  exists c. split; [|done]. exists data. done.
Qed.

Lemma refreshed_trans dirs w w' w'' :
  refreshed dirs w w' -> refreshed dirs w' w'' -> refreshed dirs w w''.
Proof.
  induction 1; [done|]. intros. eapply refreshed_step; eauto.
Qed.

Lemma refreshed_quiet dirs w w' d0 :
  refreshed dirs w w' -> quiet w d0 -> quiet w' d0.
Proof. induction 1; eauto using refresh_quiet. Qed.

Lemma refreshed_stat dirs w w' p :
  refreshed dirs w w' -> OS.stat w' p = OS.stat w p.
Proof.
  induction 1 as [|w w' w'' d Hd Hr _ IH]; [done|].
  rewrite IH. by eapply refresh_stat.
Qed.

Lemma refreshed_frame dirs w w' k :
  refreshed dirs w w' ->
  (forall d, d ∈ dirs -> k <> OS.key (overlaybdConfPath d)) ->
  files w' !! k = files w !! k.
Proof.
  induction 1 as [|w w' w'' d Hd Hr _ IH]; [done|]. intros Hk.
  rewrite (IH Hk). eapply refresh_lookup_ne; eauto.
Qed.

Lemma refreshed_journal dirs w w' :
  refreshed dirs w w' ->
  exists writes, journal w' = (journal w ++ writes)%list
                 /\ Forall (descriptor_write dirs) writes.
Proof.
  induction 1 as [w|w w' w'' d Hd Hr _ (writes & Hj & Hw)].
  - exists []. by rewrite app_nil_r.
  - destruct Hr as (old & c & data & _ & _ & _ & _ & ->). simpl in Hj.
    exists (MAtomicWrite (OS.key (overlaybdConfPath d)) :: writes).
    split; [by rewrite Hj, <- app_assoc|].
    constructor; [by exists d|done].
Qed.

Lemma run_run_plan_cons per_dir d p rest w :
  run (run_plan per_dir ((d, p) :: rest)) w =
  match run (per_dir d p) w with
  | (Done (Some e), w') => (Done (true, Some e), w')
  | (Done None, w') => run (run_plan per_dir rest) w'
  | (Panicked msg, w') => (Panicked msg, w')
  end.
Proof.
  destruct rest as [|[d' p'] rest].
  - simpl run_plan. rewrite run_mbind.
    destruct (run (per_dir d p) w) as [[[e|]|msg] w']; done.
  - rewrite run_plan_cons, run_mbind.
    destruct (run (per_dir d p) w) as [[[e|]|msg] w']; done.
Qed.

Lemma run_plan_quiet plan w :
  Forall (quiet w) plan.*1 ->
  run (run_plan doDir plan) w = (Done (true, None), w).
Proof.
  induction plan as [|[d p] rest IH]; [done|].
  intros Hq. apply Forall_cons in Hq as [Hd Hrest].
  rewrite run_run_plan_cons, (quiet_run _ _ _ Hd). auto.
Qed.

Lemma run_plan_valid dirs plan w :
  Forall (fun d => d ∈ dirs) plan.*1 ->
  (forall d, d ∈ dirs -> valid_layer w d) ->
  exists o w1,
    run (run_plan doDir plan) w = (Done o, w1)
    /\ refreshed dirs w w1
    /\ (o = (true, None) -> Forall (quiet w1) plan.*1).
Proof.
  revert w. induction plan as [|[d p] rest IH]; intros w Hin Hvalid.
  - exists (true, None), w. split; [done|]. split; [constructor|done].
  - apply Forall_cons in Hin as [Hd Hrest]. simpl in Hd.
    rewrite run_run_plan_cons.
    destruct (doDir_valid w d p (Hvalid d Hd))
      as (r & w' & -> & [[-> Hq]|(-> & Hr & Hmeta)]).
    + destruct r as [e|].
      * exists (true, Some e), w. split; [done|]. split; [constructor|done].
      * destruct (IH w Hrest Hvalid) as (o & w1 & -> & Hre & Hall).
        exists o, w1. split; [done|]. split; [done|].
        intros Ho. constructor; [|auto].
        eapply refreshed_quiet; eauto.
    + destruct (IH w' Hrest) as (o & w1 & -> & Hre & Hall).
      { intros d0 Hd0. eapply refresh_valid; eauto. }
      exists o, w1. split; [done|].
      split; [eapply refreshed_step; eauto|].
      intros Ho. constructor; [|auto].
      eapply refreshed_quiet; eauto using refresh_quiet_self.
Qed.

(** C4.  When every layer of the chain holds a valid descriptor,
    [PrepareOverlayBDSpec] migrates nothing: all it may do is rewrite
    descriptors of the chain with the trace path cleared, every other file
    staying as it is.  Run again after a success, it succeeds and leaves the
    world exactly as it found it: no copy, no directory made, no write, the
    bytes of every descriptor the same. *)
Theorem PrepareOverlayBDSpec_idempotent
    (key id dir : string) (snPath : string -> string) (w : World) :
  let chain := (ancestor_dirs key snPath ++ [snPath id])%list in
  (forall d, d ∈ chain -> valid_layer w d) ->
  exists o w1,
    run (PrepareOverlayBDSpec key id dir snPath) w = (Done o, w1)
    /\ (exists writes, journal w1 = (journal w ++ writes)%list
                       /\ Forall (descriptor_write chain) writes)
    /\ (forall k, (forall d, d ∈ chain -> k <> OS.key (overlaybdConfPath d)) ->
                  files w1 !! k = files w !! k)
    /\ (o = (true, None) ->
        run (PrepareOverlayBDSpec key id dir snPath) w1
          = (Done (true, None), w1)).
Proof.
  intros chain Hvalid. unfold PrepareOverlayBDSpec.
  rewrite PrepareOverlayBDSpec_with_run.
  set (plan := walk_plan (ancestor_dirs key snPath) (snPath id)).
  assert (plan.*1 = chain) as Hplan by apply plan_from_fst.
  assert (forall w', refreshed chain w w' ->
            (run (isOverlaybdLayer dir) w').1 = (run (isOverlaybdLayer dir) w).1)
    as Hprobe.
  { intros w' Hre. apply readonly_run_same; [apply isOverlaybdLayer_readonly|].
    intros p. by eapply refreshed_stat. }
  destruct (readonly_done _ w (isOverlaybdLayer_readonly dir)) as [[b e] Ep].
  rewrite Ep in *. destruct b, e as [e|].
  - eexists _, w. split; [reflexivity|].
    split; [exists []; by rewrite app_nil_r|]. done.
  - destruct (run_plan_valid chain plan w) as (o & w1 & Hrun & Hre & Hq).
    { rewrite Hplan. by apply Forall_forall. }
    { done. }
    exists o, w1. split; [done|].
    split; [by apply refreshed_journal|].
    split; [intros k Hk; by eapply refreshed_frame|].
    intros Ho. rewrite PrepareOverlayBDSpec_with_run, (Hprobe w1 Hre).
    apply run_plan_quiet. auto.
  - eexists _, w. split; [reflexivity|].
    split; [exists []; by rewrite app_nil_r|]. done.
  - eexists _, w. split; [reflexivity|].
    split; [exists []; by rewrite app_nil_r|]. done.
Qed.

(** *** The metadata slot *)

Section Slot.
Variable K : string.
Hypothesis HK : last_comp K = zdfsMetaDir.

Lemma conf_key_ne d : OS.key (overlaybdConfPath d) <> K.
Proof.
  apply (key_ne_by_last _ _ "config.v1.json"); [done| |by rewrite HK].
  apply (Join_last [d; "block"]); [done|by apply atom_literal].
Qed.

(** The copies do not write at [K]. *)
Lemma confined_copy_ne src dst :
  confined (fun k => k <> K) (copyPulledZdfsMetaFiles src dst).
Proof.
  apply confined_copy_range.
  assert (forall n, proper n -> atom n -> n <> zdfsMetaDir ->
                    OS.key (GoPath.Join [dst; n]) <> K) as Hne.
  { intros n Hp Ha Hn.
    apply (key_ne_by_last _ _ n); [done| |by rewrite HK].
    by apply (Join_last [dst]). }
  repeat constructor; apply Hne; try done; by apply atom_literal.
Qed.

End Slot.

Lemma meta_key_last d :
  last_comp (OS.key (GoPath.Join [d; zdfsMetaDir])) = zdfsMetaDir.
Proof.
  apply Clean_last_comp; [done|].
  apply (Join_last [d]); [done|by apply atom_literal].
Qed.

(** *** The blob URL of an image reference *)

Lemma constructImageBlobURL_invalid ref e :
  reference_ParseNamed ref = inl e ->
  constructImageBlobURL ref
  = (EmptyString, Some (Wrapf e "invalid repo url %s" [ArgS ref])).
Proof. unfold constructImageBlobURL. by intros ->. Qed.

(** For a reference that parses, the URL is made of the registry host and
    of the repository path, tag and digest left out; when both are made of
    ordinary names it reads [https://<host>/v2/<repo>/blobs]. *)
Lemma constructImageBlobURL_valid ref n :
  reference_ParseNamed ref = inr n ->
  constructImageBlobURL ref
  = ("https://" +:+ GoPath.Join [reference.domain n; "v2"; reference.path n]
       +:+ "/blobs", None)
  /\ (Forall proper (GoStrings.split_on GoPath.slash (reference.domain n)) ->
      Forall proper (GoStrings.split_on GoPath.slash (reference.path n)) ->
      constructImageBlobURL ref
      = ("https://" +:+ (reference.domain n +:+ "/v2/" +:+ reference.path n)
           +:+ "/blobs", None)).
Proof.
  intros Hp. unfold constructImageBlobURL. rewrite Hp. split; [done|].
  intros Hd Hr. do 3 f_equal. simpl reference.Path. unfold reference.Domain.
  set (h := reference.domain n) in *. set (r := reference.path n) in *.
  assert (h <> EmptyString /\ r <> EmptyString) as [Hh Hr0].
  { split; intros E; rewrite E in *; simpl in *.
    - apply Forall_cons in Hd as [[? _] _]; done.
    - apply Forall_cons in Hr as [[? _] _]; done. }
  unfold GoPath.Join. rewrite !filter_cons, filter_nil.
  destruct (decide (h ≠ EmptyString)) as [_|Hn]; [|by destruct Hn].
  destruct (decide ("v2" ≠ EmptyString)) as [_|Hn]; [|by destruct Hn].
  destruct (decide (r ≠ EmptyString)) as [_|Hn]; [|by destruct Hn].
  change (String.concat "/" [h; "v2"; r])
    with (h +:+ String GoPath.slash ("v2" +:+ String GoPath.slash r)).
  rewrite Clean_id; [done|].
  rewrite !split_on_app. apply Forall_app. split; [done|].
  apply Forall_app. split; [|done].
  repeat constructor; done.
Qed.

(** *** The blob size *)

(** [GetBlobSize] returns an error when the size marker cannot be read, and
    when what it holds, trimmed, is not a number. *)
Lemma GetBlobSize_error dir w :
  (forall e, OS.read_file w (GoPath.Join [dir; zdfsOssDataSizeFile]) = inl e ->
     (run (GetBlobSize dir) w).1 = Done (0%Z, Some e))
  /\ (forall data,
        OS.read_file w (GoPath.Join [dir; zdfsOssDataSizeFile]) = inr data ->
        let str := GoStrings.Trim data (" " +:+ GoStrings.newline) in
        (str = EmptyString
         \/ Exists (fun c => strconv.digit_of c = None) (list_ascii_of_string str)) ->
        exists v e, (run (GetBlobSize dir) w).1 = Done (v, Some e)).
Proof.
  split.
  - intros e Hr. unfold GetBlobSize, getTrimStringFromFile. simpl.
    by rewrite Hr.
  - intros data Hr str Hbad. unfold GetBlobSize, getTrimStringFromFile. simpl.
    rewrite Hr. simpl. fold str.
    destruct (strconv.ParseUint str) as [v [e|]] eqn:Ep; [eauto|].
    apply ParseUint_digits in Ep as [Hne Hd]. destruct Hbad as [Hs|Hex]; [done|].
    apply Exists_exists in Hex as (c & Hin & Hc).
    rewrite Forall_forall in Hd. by destruct (Hd c Hin).
Qed.

(** *** The probe's error *)

Lemma hasOverlaybdBlobRef_range_error dir names w b e :
  (run (hasOverlaybdBlobRef_range dir names) w).1 = Done (b, Some e) ->
  b = false.
Proof.
  induction names as [|name rest IH]; simpl; [done|].
  destruct (OS.stat w (GoPath.Join [dir; name])) as [e'|]; simpl.
  - destruct (os_IsNotExist e'); simpl; by intros [= <- _].
  - exact IH.
Qed.

Lemma isOverlaybdLayer_error dir w b e :
  (run (isOverlaybdLayer dir) w).1 = Done (b, Some e) -> b = false.
Proof.
  unfold isOverlaybdLayer. rewrite run_mbind, run_pathExists.
  destruct (path_exists w (overlaybdConfPath dir)) as [[] e0]; [done|].
  rewrite run_mbind.
  pose proof (hasOverlaybdBlobRef_range_error (GoPath.Join [dir; "fs"])
    [iNewFormat; zdfsChecksumFile; zdfsOssurlFile; zdfsOssDataSizeFile;
     zdfsOssTypeFile] w) as Hr.
  unfold hasOverlaybdBlobRef.
  destruct (run (hasOverlaybdBlobRef_range _ _) w) as [[[b' [e'|]]|msg] w'];
    simpl in *; try done.
  by intros [= <- _].
Qed.

(** Whatever the probe reports, the entry point never answers with the
    probe's error: a failed inspection is answered [(false, nil)]. *)
Lemma PrepareOverlayBDSpec_probe_error key id dir snPath w e :
  (run (isOverlaybdLayer dir) w).1 = Done (false, Some e) ->
  run (PrepareOverlayBDSpec key id dir snPath) w = (Done (false, None), w).
Proof.
  intros Hp. unfold PrepareOverlayBDSpec.
  by rewrite PrepareOverlayBDSpec_with_run, Hp.
Qed.

End Facts.

(** ** Concrete runs *)

Lemma constructSpec_lowers_witness :
  run (constructSpec (H := Sample.collab) "/s/1" "/s/0" EmptyString "sha256:bb"
         20 EmptyString) Sample.after_base
    = (Done None, Sample.after_child)
  /\ exists c, built (H := Sample.collab) Sample.after_child "/s/1" c
       /\ types.Lowers c =
            [types.mkLower "/opt/overlaybd/baselayers/.commit" EmptyString 0
                           EmptyString;
             types.mkLower EmptyString "sha256:aa" 10 "/s/0/block";
             types.mkLower EmptyString "sha256:bb" 20 "/s/1/block"].
Proof.
  split; [vm_compute; reflexivity|].
  destruct (constructSpec_lowers (H := Sample.collab) "/s/1" "/s/0" EmptyString
              "sha256:bb" 20 EmptyString Sample.after_base Sample.after_child)
    as (c & Hb & _ & _ & Hchain & _);
    [unfold strconv.maxUint64; lia|vm_compute; reflexivity|].
  exists c. split; [exact Hb|].
  apply (Hchain "https://host/v2/repo/blobs" "sha256:aa" 10%Z EmptyString
           Sample.two_empty_layers).
  - discriminate.
  - vm_compute; reflexivity.
  - intros data Hm. vm_compute in Hm. injection Hm as <-.
    vm_compute; reflexivity.
Defined.

(** C1, as stated, fails for sizes from 2^63 on.  A size marker that holds
    9223372036854775808 (2^63) is read by [GetBlobSize] without error; the
    entry [constructSpec] makes for that size holds -2^63, and the
    descriptor written is not the one whose entry holds the size. *)
Lemma constructSpec_size_wraps :
  let built_by_constructSpec :=
    run (constructSpec (H := Sample.collab) "/s/0" EmptyString
           "https://host/v2/repo/blobs" "sha256:aa" (2 ^ 63) EmptyString)
        Sample.two_empty_layers in
  let descriptor (size : Z) :=
    types.mkConfig "https://host/v2/repo/blobs"
      [types.mkLower "/opt/overlaybd/baselayers/.commit" EmptyString 0
                     EmptyString;
       types.mkLower EmptyString "sha256:aa" size "/s/0/block"]
      "/s/0/zdfsmeta/init-debug.log" EmptyString in
  built_by_constructSpec.1 = Done None
  /\ built (H := Sample.collab) built_by_constructSpec.2 "/s/0"
       (descriptor (- 2 ^ 63)%Z)
  /\ ~ built (H := Sample.collab) built_by_constructSpec.2 "/s/0"
         (descriptor (2 ^ 63)%Z)
  /\ (run (GetBlobSize "/s/x/block") Sample.wide_size).1
     = Done ((2 ^ 63)%Z, None)
  /\ built (H := Sample.collab)
       (run (makeConfig (H := Sample.collab) "/s/x" EmptyString)
            Sample.wide_size).2
       "/s/x"
       (types.mkConfig "https://host/v2/repo/blobs"
          [types.mkLower "/opt/overlaybd/baselayers/.commit" EmptyString 0
                         EmptyString;
           types.mkLower EmptyString "sha256:aa" (- 2 ^ 63) "/s/x/block"]
          "/s/x/zdfsmeta/init-debug.log" EmptyString).
Proof.
  intros built_by_constructSpec descriptor.
  subst built_by_constructSpec descriptor.
  split; [vm_compute; reflexivity|].
  split; [eexists; split; vm_compute; reflexivity|].
  split.
  - intros (data & Hm & Hf). vm_compute in Hm. injection Hm as <-.
    vm_compute in Hf. discriminate.
  - split; [vm_compute; reflexivity|].
    eexists; split; vm_compute; reflexivity.
Qed.

Lemma PrepareOverlayBDSpec_walk_order_witness :
  (run (isOverlaybdLayer "/s/c") Sample.prepared_chain).1 = Done (true, None)
  /\ (walk_plan (ancestor_dirs (H := Sample.collab) "c" Sample.snPath)
                (Sample.snPath "c"))
     = [("/s/p0", EmptyString); ("/s/p1", "/s/p0"); ("/s/c", "/s/p1")]
  /\ run (PrepareOverlayBDSpec (H := Sample.collab) "c" "c" "/s/c" Sample.snPath)
         Sample.prepared_chain
     = run (run_plan (doDir (H := Sample.collab))
              [("/s/p0", EmptyString); ("/s/p1", "/s/p0"); ("/s/c", "/s/p1")])
           Sample.prepared_chain.
Proof.
  split; [vm_compute; reflexivity|]. split; [vm_compute; reflexivity|].
  apply (PrepareOverlayBDSpec_walk_order (H := Sample.collab)
           (doDir (H := Sample.collab)) "c" "c" "/s/c" Sample.snPath
           Sample.prepared_chain).
  vm_compute; reflexivity.
Defined.

Lemma updateSpec_frame_witness :
  holds_descriptor (H := Sample.collab) Sample.traced_layer "/s/0"
    (base_config "/s/0" "https://host/v2/repo/blobs" "sha256:aa" 10 "/s/0/trace")
  /\ run (updateSpec (H := Sample.collab) "/s/0" "/s/0/trace") Sample.traced_layer
      = (Done None, Sample.traced_layer).
Proof.
  assert (holds_descriptor (H := Sample.collab) Sample.traced_layer "/s/0"
    (base_config "/s/0" "https://host/v2/repo/blobs" "sha256:aa" 10 "/s/0/trace"))
    as Hd.
  { eexists. split; vm_compute; reflexivity. }
  split; [exact Hd|].
  apply (updateSpec_frame (H := Sample.collab) "/s/0" "/s/0/trace" _ _ Hd).
  reflexivity.
Defined.


(** C5.  The format marker of layer [x] cannot be examined (permission
    denied).  The probe reports the error, together with [false]; the entry
    point tests [!b] first and answers [(false, nil)], so the error does not
    reach the caller. *)
Theorem probe_error_not_propagated :
  (run (isOverlaybdLayer "/s/x") Sample.denied_marker).1
    = Done (false,
            Some (Errorf "LSMD ERROR failed to IsZdfsLayerInApplyDiff(dir%s), err:%s"
                    [ArgS "/s/x";
                     ArgE (Errorf "LSMD ERROR failed to check if %s exists. err:%s"
                             [ArgS "/s/x/fs/.aaaaaaaaaaaaaaaa.lsmt";
                              ArgE (PathError "stat" "/s/x/fs/.aaaaaaaaaaaaaaaa.lsmt"
                                      EACCES)])]))
  /\ run (Sample.prepare "x") Sample.denied_marker
     = (Done (false, None), Sample.denied_marker).
Proof. split; vm_compute; reflexivity. Qed.

(** C6.  Layer [x] has no size marker in one world and the marker [abc] in
    the other.  [GetBlobSize] returns an error on both; [makeConfig] drops
    it, and the descriptor is written with size 0 while the call and the
    whole preparation report success. *)
Theorem size_error_not_propagated :
  (run (GetBlobSize "/s/x/block") Sample.no_size).1
    = Done (0%Z, Some (PathError "open" "/s/x/block/.data_size" ENOENT))
  /\ (run (GetBlobSize "/s/x/fs") Sample.bad_size).1
     = Done (0%Z, Some (NumError "ParseUint" "abc" false))
  /\ (run (makeConfig (H := Sample.collab) "/s/x" EmptyString) Sample.no_size).1
     = Done None
  /\ built (H := Sample.collab)
       (run (makeConfig (H := Sample.collab) "/s/x" EmptyString) Sample.no_size).2
       "/s/x"
       (base_config "/s/x" "https://host/v2/repo/blobs" "sha256:aa" 0 EmptyString)
  /\ (run (Sample.prepare "x") Sample.bad_size).1 = Done (true, None)
  /\ built (H := Sample.collab) (run (Sample.prepare "x") Sample.bad_size).2
       "/s/x"
       (base_config "/s/x" "https://host/v2/repo/blobs" "sha256:aa" 0 EmptyString).
Proof.
  repeat split; try (vm_compute; reflexivity);
    eexists; split; vm_compute; reflexivity.
Qed.

(** C7.  Snapshots [a] and [b] share the parent [p].  No lock is taken, so
    the operations of two preparations may alternate.  With [p] migrated and
    without descriptor, a schedule that lets both reach the write makes both
    write the descriptor of [p]; one after the other they write it once.
    With [p] a legacy layer, alternating the two interleaves their copies
    and the second rename fails, the metadata directory being there
    already. *)
Theorem concurrent_prepare_interleaves :
  journal (interleave (replicate 6 true ++ replicate 6 false)
             (Sample.prepare "a") (Sample.prepare "b") Sample.shared_parent).2
    = [MAtomicWrite "/s/p/block/config.v1.json";
       MAtomicWrite "/s/p/block/config.v1.json"]
  /\ journal (interleave [] (Sample.prepare "a") (Sample.prepare "b")
                Sample.shared_parent).2
     = [MAtomicWrite "/s/p/block/config.v1.json"]
  /\ (interleave (concat (replicate 30 [true; false]))
        (Sample.prepare "a") (Sample.prepare "b") Sample.shared_legacy_parent).1
     = (Done (true, None),
        Done (true, Some (LinkError "rename" "/s/p/temp_for_prepare_dadimeta102"
                            "/s/p/zdfsmeta" EEXIST)))
  /\ take 4 (journal (interleave (concat (replicate 30 [true; false]))
                        (Sample.prepare "a") (Sample.prepare "b")
                        Sample.shared_legacy_parent).2)
     = [MMkdir "/s/p/temp_for_prepare_dadimeta101";
        MMkdir "/s/p/temp_for_prepare_dadimeta102";
        MWriteFile "/s/p/temp_for_prepare_dadimeta101/.aaaaaaaaaaaaaaaa.lsmt";
        MWriteFile "/s/p/temp_for_prepare_dadimeta102/.aaaaaaaaaaaaaaaa.lsmt"].
Proof. repeat split; vm_compute; reflexivity. Qed.

(** C8.  Layer [x] has the override file [image_ref] directly under it.
    [makeConfig] looks for it at [path.Join(dir, path.Join(dir, "image_ref"))],
    which names another place, and the descriptor gets the URL of the legacy
    bundle; the URL of the image reference is used only when the file is at
    that other place. *)
Theorem image_ref_override_not_found :
  GoPath.Join ["/s/x"; GoPath.Join ["/s/x"; "image_ref"]] = "/s/x/s/x/image_ref"
  /\ constructImageBlobURL (H := Sample.collab) Sample.image_ref
     = ("https://registry.example.com/v2/repo/name/blobs", None)
  /\ (run (makeConfig (H := Sample.collab) "/s/x" EmptyString)
          Sample.with_image_ref).1 = Done None
  /\ built (H := Sample.collab)
       (run (makeConfig (H := Sample.collab) "/s/x" EmptyString)
            Sample.with_image_ref).2
       "/s/x"
       (base_config "/s/x" "https://host/v2/repo/blobs" "sha256:aa" 10 EmptyString)
  /\ built (H := Sample.collab)
       (run (makeConfig (H := Sample.collab) "/s/x" EmptyString)
            Sample.with_nested_image_ref).2
       "/s/x"
       (base_config "/s/x" "https://registry.example.com/v2/repo/name/blobs"
                    "sha256:aa" 10 EmptyString).
Proof.
  repeat split; try (vm_compute; reflexivity);
    eexists; split; vm_compute; reflexivity.
Qed.

Lemma PrepareOverlayBDSpec_idempotent_witness :
  (forall d, d ∈ ["/s/0"; "/s/1"] ->
             valid_layer (H := Sample.collab) Sample.traced_chain d)
  /\ exists o w1,
       run (Sample.prepare "1") Sample.traced_chain = (Done o, w1)
       /\ (o = (true, None) ->
           run (Sample.prepare "1") w1 = (Done (true, None), w1)).
Proof.
  assert (forall d, d ∈ ["/s/0"; "/s/1"] ->
            valid_layer (H := Sample.collab) Sample.traced_chain d) as Hv.
  { intros d Hd.
    apply elem_of_cons in Hd as [->|Hd];
      [|apply elem_of_cons in Hd as [->|Hd]; [|by apply elem_of_nil in Hd]];
      (eexists; split;
       [eexists; split; vm_compute; reflexivity
       |intros data Hm; vm_compute in Hm; injection Hm as <-;
        vm_compute; reflexivity]). }
  split; [exact Hv|].
  destruct (PrepareOverlayBDSpec_idempotent (H := Sample.collab) "1" "1" "/s/1"
              Sample.snPath Sample.traced_chain Hv)
    as (o & w1 & Hrun & _ & _ & Hagain).
  exists o, w1. split; [exact Hrun|exact Hagain].
Defined.

(** C3, as stated, fails.  The copy into [block] is made file by file in
    place: when it fails at its second file, or the process dies after the
    first, the first file stays in [block] and the temporary directory with
    its copies stays in the layer, though the rename has not been done. *)
Lemma migration_failure_leaves_partial_state :
  let failed := run (doDir (H := Sample.collab) "/s/x" EmptyString)
                    Sample.blocked_copy in
  let killed := run_upto 22 (doDir (H := Sample.collab) "/s/x" EmptyString)
                         Sample.blocked_copy in
  failed.1 = Done (Some (PathError "open" "/s/x/block/.checksum_file" EISDIR))
  /\ journal failed.2
     = [MMkdir "/s/x/temp_for_prepare_dadimeta101";
        MWriteFile "/s/x/temp_for_prepare_dadimeta101/.aaaaaaaaaaaaaaaa.lsmt";
        MWriteFile "/s/x/temp_for_prepare_dadimeta101/.checksum_file";
        MWriteFile "/s/x/temp_for_prepare_dadimeta101/.oss_url";
        MWriteFile "/s/x/temp_for_prepare_dadimeta101/.data_size";
        MWriteFile "/s/x/temp_for_prepare_dadimeta101/.type";
        MWriteFile "/s/x/block/.aaaaaaaaaaaaaaaa.lsmt"]
  /\ files Sample.blocked_copy !! "/s/x/block/.aaaaaaaaaaaaaaaa.lsmt" = None
  /\ files failed.2 !! "/s/x/block/.aaaaaaaaaaaaaaaa.lsmt" = Some (NFile "lsmt")
  /\ files failed.2 !! "/s/x/block/.oss_url" = None
  /\ files failed.2 !! "/s/x/temp_for_prepare_dadimeta101/.oss_url"
     = Some (NFile Sample.blob_url)
  /\ files failed.2 !! "/s/x/zdfsmeta" = None
  /\ ~ no_partial_state Sample.blocked_copy failed.2
  /\ journal killed.2 = journal failed.2
  /\ ~ no_partial_state Sample.blocked_copy killed.2.
Proof.
  intros failed killed; subst failed killed.
  repeat split; try (vm_compute; reflexivity);
    intros Hno; unfold no_partial_state in Hno;
    apply (f_equal (fun fs => fs !! "/s/x/block/.aaaaaaaaaaaaaaaa.lsmt")) in Hno;
    vm_compute in Hno; discriminate.
Qed.

(** * Further properties of the package *)

(** ** Inspecting paths *)

(** What [pathExists] makes of a path: it is there and can be examined;
    or nothing is there and nothing on the way says otherwise; or the
    examination fails. *)
Lemma path_exists_cases w p :
  (present w p /\ path_exists w p = (true, None))
  \/ (~ present w p /\ files w !! OS.key p = None
      /\ path_exists w p = (false, None))
  \/ (~ present w p /\ exists e, path_exists w p = (false, Some e)).
Proof.
  unfold present, path_exists, OS.stat.
  destruct (files w !! OS.key p) as [[data| |]|] eqn:E; simpl.
  - left. split; [eexists; done|done].
  - left. split; [eexists; done|done].
  - right; right. split; [intros (n & [= <-] & ?); done|eauto].
  - assert (~ (exists n : node, None = Some n /\ n <> NDenied)) as Hn
      by (intros (n & ? & ?); done).
    destruct (OS.missing w (OS.key p)); simpl; eauto.
Qed.

Lemma hasOverlaybdBlobRef_range_cons dir name rest :
  hasOverlaybdBlobRef_range dir (name :: rest) =
  (pathExists (GoPath.Join [dir; name]) ≫= fun '(b, err) =>
     match err with
     | Some e =>
         Ret (false,
              Some (Errorf "LSMD ERROR failed to check if %s exists. err:%s"
                           [ArgS (GoPath.Join [dir; name]); ArgE e]))
     | None =>
         if negb b then Ret (false, None)
         else hasOverlaybdBlobRef_range dir rest
     end).
Proof. reflexivity. Qed.

Lemma hasOverlaybdBlobRef_range_true dir names w :
  (run (hasOverlaybdBlobRef_range dir names) w).1 = Done (true, None)
  <-> Forall (fun name => present w (GoPath.Join [dir; name])) names.
Proof.
  induction names as [|name rest IH].
  - simpl. split; [constructor|done].
  - rewrite hasOverlaybdBlobRef_range_cons, run_mbind, run_pathExists.
    destruct (path_exists_cases w (GoPath.Join [dir; name]))
      as [[Hp ->]|[(Hn & _ & ->)|(Hn & e0 & ->)]]; cbv beta iota; simpl negb;
      cbv iota.
    + rewrite IH. split; [by constructor|]. by intros [_ ?]%Forall_cons.
    + simpl. split; [done|]. by intros [? _]%Forall_cons.
    + simpl. split; [done|]. by intros [? _]%Forall_cons.
Qed.

(** X2.  [hasOverlaybdBlobRef] answers [(true, nil)] exactly when all five
    required marker files are under the directory and can be examined (the
    trace file is not asked for); it changes nothing, and it never answers
    [true] together with an error. *)
Theorem hasOverlaybdBlobRef_true_iff (dir : string) (w : World) :
  ((run (hasOverlaybdBlobRef dir) w).1 = Done (true, None)
   <-> Forall (fun name => present w (GoPath.Join [dir; name]))
              required_markers)
  /\ (run (hasOverlaybdBlobRef dir) w).2 = w
  /\ (forall b e, (run (hasOverlaybdBlobRef dir) w).1 = Done (b, Some e) ->
                  b = false).
Proof.
  split; [apply hasOverlaybdBlobRef_range_true|].
  split; [apply readonly_run, hasOverlaybdBlobRef_range_readonly|].
  intros b e. apply hasOverlaybdBlobRef_range_error.
Qed.

Lemma isOverlaybdLayer_true dir w :
  (run (isOverlaybdLayer dir) w).1 = Done (true, None)
  <-> present w (overlaybdConfPath dir)
      \/ Forall (fun name => present w (GoPath.Join [GoPath.Join [dir; "fs"]; name]))
                required_markers.
Proof.
  unfold isOverlaybdLayer. rewrite run_mbind, run_pathExists.
  destruct (path_exists_cases w (overlaybdConfPath dir))
    as [[Hp ->]|[(Hn & _ & ->)|(Hn & e0 & ->)]]; cbv beta iota.
  - simpl. split; [by left|done].
  - rewrite run_mbind.
    pose proof (hasOverlaybdBlobRef_range_true (GoPath.Join [dir; "fs"])
                  required_markers w) as Hr.
    pose proof (hasOverlaybdBlobRef_range_error (GoPath.Join [dir; "fs"])
                  required_markers w) as He.
    unfold hasOverlaybdBlobRef. fold required_markers.
    destruct (run (hasOverlaybdBlobRef_range _ required_markers) w)
      as [[[b [e|]]|msg] w']; simpl in *.
    + rewrite (He b e eq_refl) in *. split; [done|].
      intros [?|Hall]; [done|]. by apply Hr in Hall.
    + split.
      * intros [= ->]. right. by apply Hr.
      * intros [?|Hall]; [done|]. apply Hr in Hall. by injection Hall as ->.
    + split; [done|]. intros [?|Hall]; [done|]. by apply Hr in Hall.
  - rewrite run_mbind.
    pose proof (hasOverlaybdBlobRef_range_true (GoPath.Join [dir; "fs"])
                  required_markers w) as Hr.
    pose proof (hasOverlaybdBlobRef_range_error (GoPath.Join [dir; "fs"])
                  required_markers w) as He.
    unfold hasOverlaybdBlobRef. fold required_markers.
    destruct (run (hasOverlaybdBlobRef_range _ required_markers) w)
      as [[[b [e|]]|msg] w']; simpl in *.
    + rewrite (He b e eq_refl) in *. split; [done|].
      intros [?|Hall]; [done|]. by apply Hr in Hall.
    + split.
      * intros [= ->]. right. by apply Hr.
      * intros [?|Hall]; [done|]. apply Hr in Hall. by injection Hall as ->.
    + split; [done|]. intros [?|Hall]; [done|]. by apply Hr in Hall.
Qed.

(** X3.  The probe [isOverlaybdLayer] accepts a layer exactly when its
    descriptor file is there and can be examined, or all five required
    marker files are under its [fs] directory; a descriptor path that cannot
    be examined counts as missing.  The probe changes nothing and never
    answers [true] together with an error. *)
Theorem isOverlaybdLayer_true_iff (dir : string) (w : World) :
  ((run (isOverlaybdLayer dir) w).1 = Done (true, None)
   <-> present w (overlaybdConfPath dir)
       \/ Forall (fun name =>
                    present w (GoPath.Join [GoPath.Join [dir; "fs"]; name]))
                 required_markers)
  /\ (run (isOverlaybdLayer dir) w).2 = w
  /\ (forall b e, (run (isOverlaybdLayer dir) w).1 = Done (b, Some e) ->
                  b = false).
Proof.
  split; [apply isOverlaybdLayer_true|].
  split; [apply readonly_run, isOverlaybdLayer_readonly|].
  intros b e. apply isOverlaybdLayer_error.
Qed.

Section Entry.
Context `{Collaborators}.

Lemma run_plan_handled per_dir plan w b e w' :
  run (run_plan per_dir plan) w = (Done (b, e), w') -> b = true.
Proof.
  revert w. induction plan as [|[d p] rest IH]; intros w.
  - simpl. by intros [= <- _ _].
  - rewrite run_run_plan_cons.
    destruct (run (per_dir d p) w) as [[[e'|]|msg] w1]; [|apply IH|done].
    by intros [= <- _ _].
Qed.

(** X4.  [PrepareOverlayBDSpec] answers "not handled" exactly when the probe
    does not accept the layer, and then it has done nothing and the error is
    nil: the result [(false, err)] with an error never comes out. *)
Theorem PrepareOverlayBDSpec_not_handled
    (key id dir : string) (snPath : string -> string) (w w' : World)
    (e : option error) :
  run (PrepareOverlayBDSpec key id dir snPath) w = (Done (false, e), w') ->
  e = None /\ w' = w
  /\ (run (isOverlaybdLayer dir) w).1 <> Done (true, None).
Proof.
  unfold PrepareOverlayBDSpec. rewrite PrepareOverlayBDSpec_with_run.
  destruct (readonly_done _ w (isOverlaybdLayer_readonly dir)) as [[b e0] Ep].
  rewrite Ep. destruct b, e0 as [e0|].
  - by apply isOverlaybdLayer_error in Ep.
  - intros Hr. by apply run_plan_handled in Hr.
  - by intros [= <- <-].
  - by intros [= <- <-].
Qed.

End Entry.

Lemma PrepareOverlayBDSpec_not_handled_witness :
  run (Sample.prepare "x") Sample.denied_marker
    = (Done (false, None), Sample.denied_marker)
  /\ (run (isOverlaybdLayer "/s/x") Sample.denied_marker).1
     <> Done (true, None).
Proof.
  split; [vm_compute; reflexivity|].
  apply (PrepareOverlayBDSpec_not_handled (H := Sample.collab) "x" "x" "/s/x"
           Sample.snPath Sample.denied_marker Sample.denied_marker None).
  vm_compute; reflexivity.
Defined.

(** ** Strings *)

Lemma length_append (a b : string) :
  String.length (a +:+ b) = String.length a + String.length b.
Proof. induction a as [|c a IH]; [done|]. rewrite append_cons. simpl. lia. Qed.

Lemma substring_all (s : string) : String.substring 0 (String.length s) s = s.
Proof. induction s as [|c s IH]; [done|]. simpl. by rewrite IH. Qed.

Lemma substring_prefix (a x : string) :
  String.substring 0 (String.length a) (a +:+ x) = a.
Proof.
  induction a as [|c a IH]; [by destruct x|].
  rewrite append_cons. simpl. by rewrite IH.
Qed.

Lemma substring_suffix (a b : string) :
  String.substring (String.length a) (String.length b) (a +:+ b) = b.
Proof.
  induction a as [|c a IH]; [apply substring_all|].
  rewrite append_cons. simpl. exact IH.
Qed.

Lemma slice_to_prefix (a x : string) :
  GoStrings.slice_to (a +:+ x) (Z.of_nat (String.length a)) = a.
Proof.
  unfold GoStrings.slice_to. rewrite Nat2Z.id. apply substring_prefix.
Qed.

Lemma slice_from_suffix (a : string) (c : ascii) (b : string) :
  GoStrings.slice_from (a +:+ String c b) (Z.of_nat (String.length a) + 1) = b.
Proof.
  unfold GoStrings.slice_from.
  set (p := a +:+ String c EmptyString).
  assert (String.length p = S (String.length a)) as Hp
    by (unfold p; rewrite length_append; simpl; lia).
  assert (a +:+ String c b = p +:+ b) as ->
    by (unfold p; by rewrite append_assoc).
  assert (Z.to_nat (Z.of_nat (String.length a) + 1) = String.length p) as ->
    by lia.
  assert (String.length (p +:+ b) - String.length p = String.length b) as ->
    by (rewrite length_append; lia).
  apply substring_suffix.
Qed.

Lemma LastIndexByte_from_atom i f b :
  atom b -> GoStrings.LastIndexByte_from i f GoPath.slash b = f.
Proof.
  revert i f. induction b as [|c b IH]; intros i f Hb; [done|].
  apply atom_cons in Hb as [Hc Hb]. simpl. rewrite Hc. by apply IH.
Qed.

Lemma LastIndexByte_from_split i f a b :
  atom b ->
  GoStrings.LastIndexByte_from i f GoPath.slash (a +:+ String GoPath.slash b)
  = (i + Z.of_nat (String.length a))%Z.
Proof.
  intros Hb. revert i f. induction a as [|c a IH]; intros i f.
  - change (EmptyString +:+ String GoPath.slash b) with (String GoPath.slash b).
    simpl. rewrite (LastIndexByte_from_atom _ _ _ Hb). lia.
  - rewrite append_cons. simpl GoStrings.LastIndexByte_from. rewrite IH.
    simpl String.length. lia.
Qed.

(** A string has no slash, or splits at its last slash. *)
Lemma last_slash_cases (s : string) :
  atom s \/ exists a b, s = a +:+ String GoPath.slash b /\ atom b.
Proof.
  induction s as [|c s IH]; [by left|].
  destruct IH as [Hs|(a & b & -> & Hb)].
  - destruct (Ascii.eqb c GoPath.slash) eqn:E.
    + apply Ascii.eqb_eq in E as ->. right. by exists EmptyString, s.
    + left. by apply atom_cons.
  - right. by exists (String c a), b.
Qed.

Lemma atom_not_split a b : ~ atom (a +:+ String GoPath.slash b).
Proof.
  induction a as [|c a IH].
  - change (EmptyString +:+ String GoPath.slash b) with (String GoPath.slash b).
    intros [Hc _]%atom_cons. by rewrite Ascii.eqb_refl in Hc.
  - rewrite append_cons. by intros [_ Ha]%atom_cons.
Qed.

Lemma split_last_slash_inj a b a' b' :
  atom b -> atom b' ->
  a +:+ String GoPath.slash b = a' +:+ String GoPath.slash b' ->
  a = a' /\ b = b'.
Proof.
  intros Hb Hb'. revert a'. induction a as [|c a IH]; intros a' E.
  - change (EmptyString +:+ String GoPath.slash b) with (String GoPath.slash b)
      in E.
    destruct a' as [|c' a'].
    + by injection E as ->.
    + rewrite append_cons in E. injection E as Hc Hb0. subst b.
      by apply atom_not_split in Hb.
  - rewrite append_cons in E. destruct a' as [|c' a'].
    + injection E as Hc Hb0. subst b'. by apply atom_not_split in Hb'.
    + rewrite append_cons in E. injection E as Hc E. subst c'.
      destruct (IH _ E) as [-> ->]. done.
Qed.

(** ** Reading the markers *)

Lemma run_getTrimStringFromFile p w :
  run (getTrimStringFromFile p) w =
  (Done match OS.read_file w p with
        | inl e => (EmptyString, Some e)
        | inr data => (GoStrings.Trim data cutset, None)
        end, w).
Proof.
  unfold getTrimStringFromFile. simpl. destruct (OS.read_file w p); done.
Qed.

(** What [GetBlobRepoDigest] does with the trimmed text of the URL marker. *)
Lemma GetBlobRepoDigest_split dir w data a b :
  OS.read_file w (GoPath.Join [dir; zdfsOssurlFile]) = inr data ->
  GoStrings.Trim data cutset = a +:+ String GoPath.slash b -> atom b ->
  run (GetBlobRepoDigest dir) w =
  (if GoStrings.HasPrefix b "sha256" then Done (a, b, None)
   else Done (EmptyString, EmptyString,
              Some (Errorf "can't parse sha256 from url %s"
                      [ArgS (a +:+ String GoPath.slash b)])), w).
Proof.
  intros Hr Hu Hb. unfold GetBlobRepoDigest.
  rewrite run_mbind, run_getTrimStringFromFile, Hr, Hu. cbv beta iota zeta.
  change (GoStrings.LastIndexByte (a +:+ String GoPath.slash b) "/")
    with (GoStrings.LastIndexByte_from 0 (-1) GoPath.slash
            (a +:+ String GoPath.slash b)).
  rewrite (LastIndexByte_from_split _ _ _ _ Hb), Z.add_0_l, slice_from_suffix.
  destruct (GoStrings.HasPrefix b "sha256"); simpl negb; cbv iota; [|done].
  assert ((Z.of_nat (String.length a) <? 0)%Z = false) as ->
    by (apply Z.ltb_ge; lia).
  by rewrite slice_to_prefix.
Qed.

Lemma GetBlobRepoDigest_atom dir w data :
  OS.read_file w (GoPath.Join [dir; zdfsOssurlFile]) = inr data ->
  atom (GoStrings.Trim data cutset) ->
  run (GetBlobRepoDigest dir) w =
  (if GoStrings.HasPrefix (GoStrings.Trim data cutset) "sha256"
   then Panicked "slice bounds out of range [:-1]"
   else Done (EmptyString, EmptyString,
              Some (Errorf "can't parse sha256 from url %s"
                      [ArgS (GoStrings.Trim data cutset)])), w).
Proof.
  intros Hr Hu. unfold GetBlobRepoDigest.
  rewrite run_mbind, run_getTrimStringFromFile, Hr. cbv beta iota zeta.
  set (url := GoStrings.Trim data cutset) in *.
  change (GoStrings.LastIndexByte url "/")
    with (GoStrings.LastIndexByte_from 0 (-1) GoPath.slash url).
  rewrite (LastIndexByte_from_atom _ _ _ Hu).
  change (-1 + 1)%Z with 0%Z.
  assert (GoStrings.slice_from url 0 = url) as ->.
  { unfold GoStrings.slice_from. simpl Z.to_nat. rewrite Nat.sub_0_r.
    apply substring_all. }
  destruct (GoStrings.HasPrefix url "sha256"); done.
Qed.

(** X5.  [GetBlobRepoDigest] succeeds exactly when the URL marker can be
    read and its text, trimmed of blanks and newlines, is a repository URL,
    a slash, and a last segment that begins with [sha256]; it then returns
    the two sides of that last slash, so joining them with a slash gives the
    text back.  It never changes anything. *)
Theorem GetBlobRepoDigest_success_iff
    (dir repo digest : string) (w w' : World) :
  run (GetBlobRepoDigest dir) w = (Done (repo, digest, None), w')
  <-> w' = w
      /\ exists data,
           OS.read_file w (GoPath.Join [dir; zdfsOssurlFile]) = inr data
           /\ GoStrings.Trim data cutset = repo +:+ String GoPath.slash digest
           /\ atom digest
           /\ GoStrings.HasPrefix digest "sha256" = true.
Proof.
  split.
  - destruct (OS.read_file w (GoPath.Join [dir; zdfsOssurlFile]))
      as [e|data] eqn:Hr.
    + unfold GetBlobRepoDigest.
      rewrite run_mbind, run_getTrimStringFromFile, Hr. done.
    + destruct (last_slash_cases (GoStrings.Trim data cutset))
        as [Hu|(a & b & Hu & Hb)].
      * rewrite (GetBlobRepoDigest_atom _ _ _ Hr Hu).
        destruct (GoStrings.HasPrefix _ _); done.
      * rewrite (GetBlobRepoDigest_split _ _ _ _ _ Hr Hu Hb).
        destruct (GoStrings.HasPrefix b "sha256") eqn:Ep; [|done].
        intros [= <- <- <-]. split; [done|]. exists data. done.
  - intros (-> & data & Hr & Hu & Hb & Hp).
    by rewrite (GetBlobRepoDigest_split _ _ _ _ _ Hr Hu Hb), Hp.
Qed.

(** X6.  When the text of the URL marker has no slash at all and begins
    with [sha256], [GetBlobRepoDigest] does not return: the slice
    [url[0:idx]] with [idx = -1] panics. *)
Theorem GetBlobRepoDigest_panics (dir data : string) (w : World) :
  OS.read_file w (GoPath.Join [dir; zdfsOssurlFile]) = inr data ->
  atom (GoStrings.Trim data cutset) ->
  GoStrings.HasPrefix (GoStrings.Trim data cutset) "sha256" = true ->
  run (GetBlobRepoDigest dir) w
  = (Panicked "slice bounds out of range [:-1]", w).
Proof.
  intros Hr Hu Hp. by rewrite (GetBlobRepoDigest_atom _ _ _ Hr Hu), Hp.
Qed.

Lemma GetBlobRepoDigest_panics_witness :
  run (GetBlobRepoDigest "/s/x/block") Sample.slashless_url
  = (Panicked "slice bounds out of range [:-1]", Sample.slashless_url).
Proof.
  apply (GetBlobRepoDigest_panics "/s/x/block"
           ("sha256:aa" +:+ GoStrings.newline) Sample.slashless_url).
  - vm_compute; reflexivity.
  - apply atom_literal. vm_compute; reflexivity.
  - vm_compute; reflexivity.
Defined.

(** ** Numbers *)

Lemma digit_of_range c d : strconv.digit_of c = Some d -> (0 <= d <= 9)%Z.
Proof.
  unfold strconv.digit_of. cbv zeta.
  set (n := Z.of_nat (nat_of_ascii c)).
  destruct (48 <=? n)%Z eqn:E1; [|done]. destruct (n <=? 57)%Z eqn:E2; [|done].
  cbn [andb]. intros Hd. injection Hd as Hd.
  apply Z.leb_le in E1, E2. lia.
Qed.

Lemma decimal_from_ge acc s : (0 <= acc)%Z -> (acc <= decimal_from acc s)%Z.
Proof.
  revert acc. induction s as [|c s IH]; intros acc Ha; simpl; [lia|].
  destruct (strconv.digit_of c) as [d|] eqn:E; [|lia].
  apply digit_of_range in E. specialize (IH (acc * 10 + d)%Z). lia.
Qed.

Lemma parse_from_spec orig n s v :
  (0 <= n <= strconv.maxUint64)%Z ->
  strconv.parse_from orig n s = (v, None)
  <-> Forall (fun c => strconv.digit_of c <> None) (list_ascii_of_string s)
      /\ v = decimal_from n s /\ (v <= strconv.maxUint64)%Z.
Proof.
  revert n. induction s as [|c s IH]; intros n Hn; simpl.
  - split.
    + intros [= <-]. split; [constructor|]. split; [done|lia].
    + intros (_ & -> & _). done.
  - destruct (strconv.digit_of c) as [d|] eqn:E.
    + pose proof (digit_of_range _ _ E) as Hd.
      destruct (strconv.maxUint64 <? n * 10 + d)%Z eqn:Eo.
      * apply Z.ltb_lt in Eo. split; [done|].
        intros (_ & -> & Hv).
        pose proof (decimal_from_ge (n * 10 + d) s ltac:(lia)). lia.
      * apply Z.ltb_ge in Eo. rewrite IH by lia. split.
        -- intros (Hf & -> & Hv). split; [|done].
           constructor; [by rewrite E|done].
        -- intros ([_ Hf]%Forall_cons & -> & Hv). done.
    + split; [done|]. intros ([Hc _]%Forall_cons & _). done.
Qed.

(** [strconv.ParseUint(s, 10, 64)] succeeds exactly on the non-empty
    strings of decimal digits whose value is at most 2^64 - 1, and returns
    that value. *)
Lemma ParseUint_success_iff (s : string) (v : Z) :
  strconv.ParseUint s = (v, None)
  <-> is_decimal s /\ v = decimal_from 0 s /\ (0 <= v <= strconv.maxUint64)%Z.
Proof.
  unfold strconv.ParseUint, is_decimal.
  destruct (String.eqb s EmptyString) eqn:E.
  - apply String.eqb_eq in E as ->. split; [done|]. by intros [[? _] _].
  - apply String.eqb_neq in E.
    rewrite parse_from_spec by (unfold strconv.maxUint64; lia). split.
    + intros (Hf & -> & Hv). repeat split; try done.
      by apply decimal_from_ge.
    + intros ([_ Hf] & -> & _ & Hv). done.
Qed.

(** X7.  [GetBlobSize] succeeds exactly when the size marker can be read
    and its text, trimmed of blanks and newlines, is a decimal numeral of
    at most 2^64 - 1; the result is its value.  It never changes anything. *)
Theorem GetBlobSize_success_iff (dir : string) (n : Z) (w w' : World) :
  run (GetBlobSize dir) w = (Done (n, None), w')
  <-> w' = w
      /\ exists data,
           OS.read_file w (GoPath.Join [dir; zdfsOssDataSizeFile]) = inr data
           /\ is_decimal (GoStrings.Trim data cutset)
           /\ n = decimal_from 0 (GoStrings.Trim data cutset)
           /\ (0 <= n <= strconv.maxUint64)%Z.
Proof.
  unfold GetBlobSize. rewrite run_mbind, run_getTrimStringFromFile.
  destruct (OS.read_file w (GoPath.Join [dir; zdfsOssDataSizeFile]))
    as [e|data]; cbv beta iota.
  - simpl. split; [done|]. by intros (_ & data & ? & _).
  - simpl. split.
    + intros [= Hp <-]. split; [done|]. exists data. split; [done|].
      apply ParseUint_success_iff.
      destruct (strconv.ParseUint _) as [v o]. simpl in *. by injection Hp as -> ->.
    + intros (-> & data' & [= <-] & Hd). apply ParseUint_success_iff in Hd.
      by rewrite Hd.
Qed.

(** ** Descriptors *)

Section Descriptors.
Context `{Collaborators}.

(** X8.  A descriptor written by [atomicWriteOverlaybdTargetConfig] is what
    [loadBackingStoreConfig] reads back from the same layer, as long as the
    codec reads back what it wrote.  A layer with another descriptor path
    loads what it loaded before when something is at that path, and fails
    as it failed before when nothing is (the error may then differ: below the
    file just written the answer is no longer "does not exist"). *)
Theorem atomicWrite_then_load
    (dir : string) (c : types.OverlayBDBSConfig) (w w' : World) :
  run (atomicWriteOverlaybdTargetConfig dir c) w = (Done None, w') ->
  roundtrips_at c ->
  run (loadBackingStoreConfig dir) w' = (Done (inr c), w')
  /\ (forall d', OS.key (overlaybdConfPath d') <> OS.key (overlaybdConfPath dir) ->
        (files w !! OS.key (overlaybdConfPath d') <> None ->
         loaded w' d' = loaded w d')
        /\ (files w !! OS.key (overlaybdConfPath d') = None ->
            exists e e', loaded w d' = inl e /\ loaded w' d' = inl e')).
Proof.
  intros Hrun Hrt. apply atomicWrite_built in Hrun as [(data & Hm & Hf) (data' & Hm' & ->)].
  split.
  - rewrite run_loadBackingStoreConfig. f_equal. f_equal.
    apply loaded_holds. exists data. split; [done|]. by apply Hrt.
  - intros d' Hd'. unfold loaded, OS.read_file. simpl files.
    rewrite lookup_insert_ne by done. split.
    + intros Hsome.
      by destruct (files w !! OS.key (overlaybdConfPath d')) as [[| |]|].
    + intros ->. eauto.
Qed.

(** What [constructSpec] leaves behind: on success the descriptor put by
    one atomic write; on failure the world as it was, or, when the
    descriptor path is taken by a directory or by an entry that cannot be
    examined, the world with one temporary file more beside that path. *)
Lemma constructSpec_world dir parent repo digest size trace w :
  let conf := OS.key (overlaybdConfPath dir) in
  exists r w',
    run (constructSpec dir parent repo digest size trace) w = (Done r, w')
    /\ ((r <> None /\ w' = w)
        \/ (r = None
            /\ files w !! conf <> Some NDir /\ files w !! conf <> Some NDenied
            /\ exists data, w' = OS.put w conf (NFile data) (MAtomicWrite conf))
        \/ (r <> None
            /\ (files w !! conf = Some NDir \/ files w !! conf = Some NDenied)
            /\ exists data sfx,
                 let tmp := OS.key (OS.atomic_temp (overlaybdConfPath dir) sfx) in
                 sfx ∈ rng w /\ files w !! tmp = None
                 /\ w' = OS.put w tmp (NFile data) (MTempFile tmp))).
Proof.
  intros conf.
  assert (forall c, exists r w',
            run (atomicWriteOverlaybdTargetConfig dir c) w = (Done r, w')
            /\ ((r <> None /\ w' = w)
                \/ (r = None
                    /\ files w !! conf <> Some NDir
                    /\ files w !! conf <> Some NDenied
                    /\ exists data,
                         w' = OS.put w conf (NFile data) (MAtomicWrite conf))
                \/ (r <> None
                    /\ (files w !! conf = Some NDir
                        \/ files w !! conf = Some NDenied)
                    /\ exists data sfx,
                         let tmp :=
                           OS.key (OS.atomic_temp (overlaybdConfPath dir) sfx) in
                         sfx ∈ rng w /\ files w !! tmp = None
                         /\ w' = OS.put w tmp (NFile data) (MTempFile tmp))))
    as Hwrite.
  { intros c.
    destruct (run_atomicWrite dir c w)
      as [[e ->]|[(data & _ & ? & ? & ->)
                 |(e & data & sfx & ? & ? & ? & ->)]];
      eexists _, _; (split; [done|]).
    - by left.
    - right; left. eauto.
    - right; right. split; [done|]. split; [done|]. by exists data, sfx. }
  unfold constructSpec. destruct (String.eqb parent EmptyString).
  - apply Hwrite.
  - rewrite run_mbind, run_loadBackingStoreConfig.
    destruct (loaded w parent) as [e|pc].
    + eexists _, _. split; [done|]. by left.
    + apply Hwrite.
Qed.

(** X9.  [constructSpec] never panics, and what it leaves behind is one of
    three things.  When it succeeds, its one mutation is the atomic write of
    the layer's descriptor file.  When it fails, nothing has changed, or,
    and this only when the descriptor path is taken by a directory or by an
    entry that cannot be examined, nothing but a temporary file
    [.tmp-config.v1.json<suffix>] left beside that path.  When the parent's
    descriptor cannot be loaded, that error is returned and nothing has
    changed. *)
Theorem constructSpec_outcomes
    (dir parent repo digest : string) (size : Z) (trace : string) (w : World) :
  let conf := OS.key (overlaybdConfPath dir) in
  exists r w',
    run (constructSpec dir parent repo digest size trace) w = (Done r, w')
    /\ ((r <> None /\ w' = w)
        \/ (r = None
            /\ files w !! conf <> Some NDir /\ files w !! conf <> Some NDenied
            /\ exists data, w' = OS.put w conf (NFile data) (MAtomicWrite conf))
        \/ (r <> None
            /\ (files w !! conf = Some NDir \/ files w !! conf = Some NDenied)
            /\ exists data sfx,
                 let tmp := OS.key (OS.atomic_temp (overlaybdConfPath dir) sfx) in
                 sfx ∈ rng w /\ files w !! tmp = None
                 /\ w' = OS.put w tmp (NFile data) (MTempFile tmp)))
    /\ (forall e, parent <> EmptyString -> loaded w parent = inl e ->
                  r = Some e /\ w' = w).
Proof.
  intros conf.
  destruct (constructSpec_world dir parent repo digest size trace w)
    as (r & w' & Hrun & Hcase).
  exists r, w'. split; [done|]. split; [done|].
  intros e Hp Hl. unfold constructSpec in Hrun.
  apply String.eqb_neq in Hp. rewrite Hp in Hrun.
  rewrite run_mbind, run_loadBackingStoreConfig, Hl in Hrun.
  by injection Hrun as <- <-.
Qed.

(** X10.  The other fields of the descriptor [constructSpec] writes: the
    result file is [init-debug.log] in the layer's metadata directory, the
    trace path is the one given, and the repository URL is the one given
    or, when that is empty and there is a parent, the one of the parent's
    descriptor. *)
Theorem constructSpec_fields
    (dir parent repo digest : string) (size : Z) (trace : string)
    (w w' : World) :
  run (constructSpec dir parent repo digest size trace) w = (Done None, w') ->
  exists c, built w' dir c
    /\ types.ResultFile c = overlaybdInitDebuglogPath dir
    /\ types.RecordTracePath c = trace
    /\ (repo <> EmptyString \/ parent = EmptyString ->
        types.RepoBlobURL c = repo)
    /\ (repo = EmptyString -> parent <> EmptyString ->
        exists pc, holds_descriptor w parent pc
                   /\ types.RepoBlobURL c = types.RepoBlobURL pc).
Proof.
  unfold constructSpec. destruct (String.eqb parent EmptyString) eqn:Ep.
  - apply String.eqb_eq in Ep as ->. intros Hrun.
    apply atomicWrite_built in Hrun as [Hb _].
    eexists. split; [exact Hb|]. simpl. repeat split; done.
  - apply String.eqb_neq in Ep.
    rewrite run_mbind, run_loadBackingStoreConfig.
    destruct (loaded w parent) as [e|pc] eqn:El; [done|].
    intros Hrun. apply atomicWrite_built in Hrun as [Hb _].
    eexists. split; [exact Hb|]. simpl. repeat split; try done.
    + intros [Hr|Hp]; [|done]. apply String.eqb_neq in Hr. by rewrite Hr.
    + intros -> _. exists pc. split; [by apply loaded_holds|done].
Qed.

End Descriptors.

Lemma atomicWrite_then_load_witness :
  run (loadBackingStoreConfig (H := Sample.collab) "/s/0") Sample.after_base
  = (Done (inr (base_config "/s/0" "https://host/v2/repo/blobs" "sha256:aa" 10
                  EmptyString)), Sample.after_base).
Proof.
  apply (atomicWrite_then_load (H := Sample.collab) "/s/0" _
           Sample.two_empty_layers Sample.after_base).
  - vm_compute; reflexivity.
  - intros data Hm. vm_compute in Hm. injection Hm as <-.
    vm_compute; reflexivity.
Defined.

(** Below the descriptor file just written, a path that was answered
    "does not exist" is answered "not a directory". *)
Example load_below_descriptor :
  loaded (H := Sample.collab) Sample.two_empty_layers
         "/s/0/block/config.v1.json"
  = inl (Wrapf (PathError "open"
                  "/s/0/block/config.v1.json/block/config.v1.json" ENOENT)
           "failed to read config(path=%s) of snapshot %s"
           [ArgS "/s/0/block/config.v1.json/block/config.v1.json";
            ArgS "/s/0/block/config.v1.json"])
  /\ loaded (H := Sample.collab) Sample.after_base "/s/0/block/config.v1.json"
     = inl (Wrapf (PathError "open"
                     "/s/0/block/config.v1.json/block/config.v1.json" ENOTDIR)
              "failed to read config(path=%s) of snapshot %s"
              [ArgS "/s/0/block/config.v1.json/block/config.v1.json";
               ArgS "/s/0/block/config.v1.json"]).
Proof. split; vm_compute; reflexivity. Qed.

(** With the descriptor path taken by a directory, [constructSpec] fails
    at the rename and the temporary file stays in [block]. *)
Example constructSpec_leaves_temp :
  let failed :=
    run (constructSpec (H := Sample.collab) "/s/0" EmptyString
           "https://host/v2/repo/blobs" "sha256:aa" 10 EmptyString)
        Sample.taken_descriptor in
  failed.1
  = Done (Some (Wrapf (LinkError "rename"
                         "/s/0/block/.tmp-config.v1.json101"
                         "/s/0/block/config.v1.json" EEXIST)
                  "failed to commit the overlaybd config on %s"
                  [ArgS "/s/0/block/config.v1.json"]))
  /\ journal failed.2 = [MTempFile "/s/0/block/.tmp-config.v1.json101"]
  /\ files Sample.taken_descriptor !! "/s/0/block/.tmp-config.v1.json101" = None
  /\ (exists data,
        files failed.2 !! "/s/0/block/.tmp-config.v1.json101"
        = Some (NFile data))
  /\ files failed.2 !! "/s/0/block/config.v1.json" = Some NDir.
Proof.
  intros failed; subst failed.
  repeat split; try (vm_compute; reflexivity).
  eexists. vm_compute. reflexivity.
Qed.

Lemma constructSpec_fields_witness :
  exists c, built (H := Sample.collab) Sample.after_child "/s/1" c
    /\ types.ResultFile c = "/s/1/zdfsmeta/init-debug.log"
    /\ types.RepoBlobURL c = "https://host/v2/repo/blobs".
Proof.
  destruct (constructSpec_fields (H := Sample.collab) "/s/1" "/s/0" EmptyString
              "sha256:bb" 20 EmptyString Sample.after_base Sample.after_child)
    as (c & Hb & Hr & _ & _ & Hu); [vm_compute; reflexivity|].
  exists c. split; [exact Hb|]. split; [exact Hr|].
  destruct (Hu eq_refl ltac:(discriminate)) as (pc & (data & Hf & Hd) & ->).
  vm_compute in Hf. injection Hf as <-. vm_compute in Hd.
  injection Hd as <-. reflexivity.
Defined.

(** ** Synthesizing the descriptor of a layer *)

Lemma GetBlobRepoDigest_world dir w : (run (GetBlobRepoDigest dir) w).2 = w.
Proof.
  unfold GetBlobRepoDigest. rewrite run_mbind, run_getTrimStringFromFile.
  destruct (OS.read_file w _) as [e|data]; cbv beta iota zeta; [done|].
  destruct (negb _); [done|]. destruct (_ <? _)%Z; done.
Qed.

Lemma run_GetBlobSize dir w :
  exists e, run (GetBlobSize dir) w = (Done (size_read w dir, e), w).
Proof.
  unfold GetBlobSize, size_read.
  rewrite run_mbind, run_getTrimStringFromFile.
  destruct (OS.read_file w _) as [e|data]; cbv beta iota; simpl; [eauto|].
  destruct (strconv.ParseUint _) as [v e]. eauto.
Qed.

Lemma run_MkdirTemp {A : Type} d pat (k : error + string -> Prog A) w :
  run (MkdirTemp d pat k) w
  = run (k (OS.mkdir_temp w d pat).1) (OS.mkdir_temp w d pat).2.
Proof. simpl. by destruct (OS.mkdir_temp w d pat). Qed.

Lemma run_Rename {A : Type} old new (k : option error -> Prog A) w :
  run (Rename old new k) w
  = run (k (OS.rename w old new).1) (OS.rename w old new).2.
Proof. simpl. by destruct (OS.rename w old new). Qed.

Section Synthesis.
Context `{Collaborators}.

(** [makeConfig] as its reads followed by one call of [constructSpec]. *)
Lemma makeConfig_run dir parent w :
  run (makeConfig dir parent) w =
  match (run (GetBlobRepoDigest (GoPath.Join [dir; "block"])) w).1 with
  | Panicked msg => (Panicked msg, w)
  | Done (_, _, Some e) => (Done (Some e), w)
  | Done (repo, digest, None) =>
      run (constructSpec dir parent (repo_chosen w dir repo) digest
             (size_read w (GoPath.Join [dir; "block"])) EmptyString) w
  end.
Proof.
  unfold makeConfig. rewrite run_mbind.
  pose proof (GetBlobRepoDigest_world (GoPath.Join [dir; "block"]) w) as Hw.
  destruct (run (GetBlobRepoDigest _) w) as [[[[repo digest] [e|]]|msg] w0];
    simpl in Hw; subst w0; cbv beta iota zeta; [done| |done].
  rewrite run_mbind, run_pathExists. unfold repo_chosen.
  set (refPath := GoPath.Join [dir; GoPath.Join [dir; "image_ref"]]).
  destruct (path_exists w refPath) as [b e]. cbv beta iota. simpl fst.
  rewrite run_mbind.
  match goal with |- context [run (if b then ?m1 else ?m2) w] =>
    assert (run (if b then m1 else m2) w
            = (Done (if b
                     then (constructImageBlobURL
                             match OS.read_file w refPath with
                             | inr img => img
                             | inl _ => EmptyString
                             end).1
                     else repo), w)) as ->
      by (destruct b; [simpl; destruct (OS.read_file w refPath)|]; reflexivity)
  end.
  destruct (run_GetBlobSize (GoPath.Join [dir; "block"]) w) as [e' Hs].
  rewrite run_mbind, Hs. done.
Qed.

(** X11.  When the repository URL and digest cannot be got from the URL
    marker in [block] (the marker is unreadable, or its last segment does not
    begin with [sha256]), [makeConfig] returns that error and writes no
    descriptor: nothing changes. *)
Theorem makeConfig_digest_error
    (dir parent r d : string) (e : error) (w : World) :
  (run (GetBlobRepoDigest (GoPath.Join [dir; "block"])) w).1
    = Done (r, d, Some e) ->
  run (makeConfig dir parent) w = (Done (Some e), w).
Proof. intros Hd. by rewrite makeConfig_run, Hd. Qed.

(** X12.  When the override file is there where [makeConfig] looks for it
    but what it holds is no valid image reference (or it cannot be read),
    the error is dropped and [constructSpec] is called with an empty
    repository URL: a child layer then gets the URL of its parent's
    descriptor, and the URL of the legacy bundle is not used. *)
Theorem makeConfig_invalid_override
    (dir parent repo digest : string) (e : error) (w : World) :
  (run (GetBlobRepoDigest (GoPath.Join [dir; "block"])) w).1
    = Done (repo, digest, None) ->
  present w (GoPath.Join [dir; GoPath.Join [dir; "image_ref"]]) ->
  reference_ParseNamed
    match OS.read_file w (GoPath.Join [dir; GoPath.Join [dir; "image_ref"]]) with
    | inr img => img
    | inl _ => EmptyString
    end = inl e ->
  run (makeConfig dir parent) w
  = run (constructSpec dir parent EmptyString digest
           (size_read w (GoPath.Join [dir; "block"])) EmptyString) w.
Proof.
  intros Hd Hp He. rewrite makeConfig_run, Hd. unfold repo_chosen.
  rewrite (path_exists_present _ _ Hp). simpl fst. cbv iota.
  unfold constructImageBlobURL. by rewrite He.
Qed.

Lemma atomicWrite_at_most dir c w :
  files w !! OS.key (overlaybdConfPath dir) <> Some NDir ->
  files w !! OS.key (overlaybdConfPath dir) <> Some NDenied ->
  exists r w', run (atomicWriteOverlaybdTargetConfig dir c) w = (Done r, w')
               /\ at_most_descriptor_write dir w w'.
Proof.
  intros Hd Hn.
  destruct (run_atomicWrite_file dir c w Hd Hn) as [[e ->]|(data & _ & ->)];
    eexists _, _; (split; [done|]); [by left|right; eauto].
Qed.

Lemma updateSpec_at_most dir p w :
  exists r w', run (updateSpec dir p) w = (Done r, w')
               /\ at_most_descriptor_write dir w w'.
Proof.
  unfold updateSpec. rewrite run_mbind, run_loadBackingStoreConfig.
  destruct (loaded w dir) as [e|c] eqn:El.
  - eexists _, _. split; [done|]. by left.
  - destruct (String.eqb _ _).
    + eexists _, _. split; [done|]. by left.
    + apply loaded_holds in El as (old & Hf & _).
      apply atomicWrite_at_most; by rewrite Hf.
Qed.

Lemma makeConfig_at_most dir parent w :
  files w !! OS.key (overlaybdConfPath dir) <> Some NDir ->
  files w !! OS.key (overlaybdConfPath dir) <> Some NDenied ->
  at_most_descriptor_write dir w (run (makeConfig dir parent) w).2.
Proof.
  intros Hd Hn. rewrite makeConfig_run.
  destruct (run (GetBlobRepoDigest _) w).1 as [[[repo digest] [e|]]|msg];
    [by left| |by left].
  match goal with |- context [run (constructSpec ?a ?b ?c ?d ?s ?t) w] =>
    destruct (constructSpec_world a b c d s t w)
      as (r & w' & -> & [[_ ->]|[(_ & _ & _ & [data ->])|(_ & [Hc|Hc] & _)]])
  end; [by left|right; eauto|done|done].
Qed.

(** A successful [makeConfig] has done one atomic write of the
    descriptor. *)
Lemma makeConfig_success_world dir parent w w' :
  run (makeConfig dir parent) w = (Done None, w') ->
  exists data,
    w' = OS.put w (OS.key (overlaybdConfPath dir)) (NFile data)
                (MAtomicWrite (OS.key (overlaybdConfPath dir))).
Proof.
  rewrite makeConfig_run.
  destruct (run (GetBlobRepoDigest _) w).1 as [[[repo digest] [e|]]|msg];
    [done| |done].
  match goal with |- context [run (constructSpec ?a ?b ?c ?d ?s ?t) w] =>
    destruct (constructSpec_world a b c d s t w)
      as (r & w1 & -> & [[Hr _]|[(_ & _ & _ & [data ->])|(Hr & _)]])
  end; intros [= -> <-]; [done|eauto|done].
Qed.

Lemma constructSpec_built dir parent repo digest size trace w w' :
  run (constructSpec dir parent repo digest size trace) w = (Done None, w') ->
  exists c, built w' dir c.
Proof.
  unfold constructSpec. destruct (String.eqb parent EmptyString).
  - intros Hr. apply atomicWrite_built in Hr as [Hb _]. eauto.
  - rewrite run_mbind, run_loadBackingStoreConfig.
    destruct (loaded w parent); [done|].
    intros Hr. apply atomicWrite_built in Hr as [Hb _]. eauto.
Qed.

Lemma makeConfig_built dir parent w w' :
  run (makeConfig dir parent) w = (Done None, w') -> exists c, built w' dir c.
Proof.
  rewrite makeConfig_run.
  destruct (run (GetBlobRepoDigest _) w).1 as [[[repo digest] [e|]]|msg];
    [done| |done].
  apply constructSpec_built.
Qed.

Lemma built_present w d c : built w d c -> present w (overlaybdConfPath d).
Proof. intros (data & _ & Hf). exists (NFile data). done. Qed.

(** X13.  On a layer that has its metadata directory, [doDir] migrates
    nothing: it makes no directory, copies no file and renames nothing; all
    it may do is one atomic write of the layer's descriptor file. *)
Theorem doDir_migrated_layer (dir parent : string) (w : World) :
  present w (GoPath.Join [dir; zdfsMetaDir]) ->
  at_most_descriptor_write dir w (run (doDir dir parent) w).2.
Proof.
  intros Hmeta. unfold doDir.
  rewrite run_mbind, run_pathExists, (path_exists_present _ _ Hmeta).
  cbv beta iota. rewrite run_mbind, run_pathExists.
  destruct (path_exists_cases w (overlaybdConfPath dir))
    as [[Hp ->]|[(_ & Habs & ->)|(_ & e0 & ->)]]; cbv beta iota.
  - destruct (updateSpec_at_most dir EmptyString w) as (r & w' & -> & Hw). done.
  - apply makeConfig_at_most; by rewrite Habs.
  - by left.
Qed.

Lemma doDir_success_present (dir parent : string) (w w' : World) :
  run (doDir dir parent) w = (Done None, w') ->
  present w' (overlaybdConfPath dir).
Proof.
  unfold doDir. rewrite run_mbind, run_pathExists.
  destruct (path_exists w (GoPath.Join [dir; zdfsMetaDir])) as [[] [e|]];
    cbv beta iota; try done.
  - rewrite run_mbind, run_pathExists.
    destruct (path_exists_cases w (overlaybdConfPath dir))
      as [[Hp ->]|[(_ & _ & ->)|(_ & e0 & ->)]]; cbv beta iota; [| |done].
    + destruct (updateSpec_at_most dir EmptyString w)
        as (r & w1 & -> & [->|[data ->]]); intros [= -> <-]; [done|].
      exists (NFile data). split; [apply lookup_insert_eq|done].
    + intros Hr. apply makeConfig_built in Hr as [c Hc].
      by eapply built_present.
  - rewrite run_mbind, run_pathExists. fold (overlaybdConfPath dir).
    destruct (path_exists_cases w (overlaybdConfPath dir))
      as [[Hp ->]|[(_ & _ & ->)|(_ & e0 & ->)]]; cbv beta iota.
    + by intros [= <-].
    + rewrite run_MkdirTemp.
      destruct (OS.mkdir_temp w dir _) as [[e|tmpDir] w1]; cbn [fst snd];
        [done|]. rewrite run_mbind.
      destruct (run (copyPulledZdfsMetaFiles _ tmpDir) w1) as [[[e|]|msg] w2];
        [done| |done]. rewrite run_mbind.
      destruct (run (copyPulledZdfsMetaFiles _ _) w2) as [[[e|]|msg] w3];
        [done| |done]. rewrite run_Rename.
      destruct (OS.rename w3 tmpDir _) as [[e|] w4]; cbn [fst snd]; [done|].
      intros Hr. apply makeConfig_built in Hr as [c Hc].
      by eapply built_present.
    + rewrite run_MkdirTemp.
      destruct (OS.mkdir_temp w dir _) as [[e|tmpDir] w1]; cbn [fst snd];
        [done|]. rewrite run_mbind.
      destruct (run (copyPulledZdfsMetaFiles _ tmpDir) w1) as [[[e|]|msg] w2];
        [done| |done]. rewrite run_mbind.
      destruct (run (copyPulledZdfsMetaFiles _ _) w2) as [[[e|]|msg] w3];
        [done| |done]. rewrite run_Rename.
      destruct (OS.rename w3 tmpDir _) as [[e|] w4]; cbn [fst snd]; [done|].
      intros Hr. apply makeConfig_built in Hr as [c Hc].
      by eapply built_present.
Qed.

(** X14.  When [doDir] succeeds, the layer has its descriptor file,
    whichever way was taken: confirmed, synthesized, found in the new
    format, or migrated first. *)
Theorem doDir_success_descriptor (dir parent : string) (w w' : World) :
  run (doDir dir parent) w = (Done None, w') ->
  present w' (overlaybdConfPath dir).
Proof. apply doDir_success_present. Qed.

Lemma plan_from_last parent dirs last :
  exists plan' par,
    plan_from parent (dirs ++ [last])%list = (plan' ++ [(last, par)])%list.
Proof.
  revert parent. induction dirs as [|d dirs IH]; intros parent; simpl.
  - by exists [], parent.
  - destruct (IH d) as (plan' & par & ->). by exists ((d, parent) :: plan'), par.
Qed.

Lemma run_plan_last_call per_dir plan d p w w' :
  run (run_plan per_dir (plan ++ [(d, p)])%list) w = (Done (true, None), w') ->
  exists w0, run (per_dir d p) w0 = (Done None, w').
Proof.
  revert w. induction plan as [|[d0 p0] plan IH]; intros w; simpl app;
    rewrite run_run_plan_cons.
  - destruct (run (per_dir d p) w) as [[[e|]|msg] w1] eqn:E; [done| |done].
    simpl. intros [= <-]. eauto.
  - destruct (run (per_dir d0 p0) w) as [[[e|]|msg] w1]; [done| |done].
    apply IH.
Qed.

(** X15.  When [PrepareOverlayBDSpec] returns [(true, nil)], the directory
    [snPath(id)] of the active layer has its descriptor file. *)
Theorem PrepareOverlayBDSpec_success_descriptor
    (key id dir : string) (snPath : string -> string) (w w' : World) :
  run (PrepareOverlayBDSpec key id dir snPath) w = (Done (true, None), w') ->
  present w' (overlaybdConfPath (snPath id)).
Proof.
  unfold PrepareOverlayBDSpec. rewrite PrepareOverlayBDSpec_with_run.
  destruct (run (isOverlaybdLayer dir) w).1 as [[[] [e|]]|msg]; try done.
  unfold walk_plan.
  destruct (plan_from_last EmptyString (ancestor_dirs key snPath) (snPath id))
    as (plan' & par & ->).
  intros Hr. apply run_plan_last_call in Hr as [w0 Hr].
  by eapply doDir_success_present.
Qed.

End Synthesis.

Lemma makeConfig_digest_error_witness :
  run (makeConfig (H := Sample.collab) "/s/0" EmptyString) Sample.two_empty_layers
  = (Done (Some (PathError "open" "/s/0/block/.oss_url" ENOENT)),
     Sample.two_empty_layers).
Proof.
  apply (makeConfig_digest_error (H := Sample.collab) "/s/0" EmptyString
           EmptyString EmptyString).
  vm_compute; reflexivity.
Defined.

Lemma makeConfig_invalid_override_witness :
  run (makeConfig (H := Sample.collab) "/s/1" "/s/0") Sample.bad_override
  = run (constructSpec (H := Sample.collab) "/s/1" "/s/0" EmptyString "sha256:cc"
           0 EmptyString) Sample.bad_override
  /\ built (H := Sample.collab)
       (run (makeConfig (H := Sample.collab) "/s/1" "/s/0") Sample.bad_override).2
       "/s/1"
       (types.mkConfig "https://host/v2/repo/blobs"
          [base_lower; own_lower "/s/0" "sha256:aa" 10;
           own_lower "/s/1" "sha256:cc" 0]
          "/s/1/zdfsmeta/init-debug.log" EmptyString).
Proof.
  split.
  - apply (makeConfig_invalid_override (H := Sample.collab) "/s/1" "/s/0"
             "https://other/v2/r/blobs" "sha256:cc"
             (LibError "reference" "repository name must be canonical")).
    + vm_compute; reflexivity.
    + eexists. split; [vm_compute; reflexivity|discriminate].
    + vm_compute; reflexivity.
  - eexists. split; vm_compute; reflexivity.
Defined.

Lemma doDir_migrated_layer_witness :
  present Sample.no_size "/s/x/zdfsmeta"
  /\ at_most_descriptor_write "/s/x" Sample.no_size
       (run (doDir (H := Sample.collab) "/s/x" EmptyString) Sample.no_size).2.
Proof.
  assert (present Sample.no_size (GoPath.Join ["/s/x"; zdfsMetaDir])) as Hp.
  { eexists. split; [vm_compute; reflexivity|discriminate]. }
  split; [exact Hp|].
  exact (doDir_migrated_layer (H := Sample.collab) "/s/x" EmptyString
           Sample.no_size Hp).
Defined.

Lemma doDir_success_descriptor_witness :
  present (run (doDir (H := Sample.collab) "/s/x" EmptyString) Sample.bad_size).2
          "/s/x/block/config.v1.json".
Proof.
  apply (doDir_success_descriptor (H := Sample.collab) "/s/x" EmptyString
           Sample.bad_size).
  vm_compute; reflexivity.
Defined.

Lemma PrepareOverlayBDSpec_success_descriptor_witness :
  present (run (Sample.prepare "x") Sample.bad_size).2
          "/s/x/block/config.v1.json".
Proof.
  apply (PrepareOverlayBDSpec_success_descriptor (H := Sample.collab) "x" "x"
           "/s/x" Sample.snPath Sample.bad_size).
  vm_compute; reflexivity.
Defined.

(** ** Copying the bundle *)

Lemma join_key_ne a n b n' :
  proper n -> atom n -> proper n' -> atom n' -> n <> n' ->
  OS.key (GoPath.Join [a; n]) <> OS.key (GoPath.Join [b; n']).
Proof.
  intros Hp Ha Hp' Ha' Hne E. apply Hne.
  rewrite <- (Clean_last_comp (GoPath.Join [a; n]) n Hp (Join_last [a] n Hp Ha)).
  rewrite <- (Clean_last_comp (GoPath.Join [b; n']) n' Hp'
                (Join_last [b] n' Hp' Ha')).
  unfold OS.key in E. by rewrite E.
Qed.

Lemma run_copy_cons src dst name rest w :
  run (copyPulledZdfsMetaFiles_range src dst (name :: rest)) w =
  if match OS.stat w (GoPath.Join [src; name]) with
     | Some e => os_IsNotExist e
     | None => false
     end
  then run (copyPulledZdfsMetaFiles_range src dst rest) w
  else match OS.read_file w (GoPath.Join [src; name]) with
       | inl e => (Done (Some e), w)
       | inr data =>
           match OS.write_file w (GoPath.Join [dst; name]) data with
           | (Some e, w1) => (Done (Some e), w1)
           | (None, w1) => run (copyPulledZdfsMetaFiles_range src dst rest) w1
           end
       end.
Proof.
  cbn [run copyPulledZdfsMetaFiles_range].
  destruct (match OS.stat w _ with Some e => _ | None => _ end); [done|].
  cbn [run]. destruct (OS.read_file w _); [done|].
  cbn [run]. destruct (OS.write_file w _ _) as [[e|] w1]; done.
Qed.

Lemma copy_range_success src dst names w w' :
  Forall (fun n => proper n /\ atom n) names -> NoDup names ->
  run (copyPulledZdfsMetaFiles_range src dst names) w = (Done None, w') ->
  (forall k, (forall n, n ∈ names -> k <> OS.key (GoPath.Join [dst; n])) ->
             files w' !! k = files w !! k)
  /\ (forall n, n ∈ names -> copied src dst w w' n).
Proof.
  intros Hok Hnd. revert w.
  induction names as [|name rest IH]; intros w.
  - simpl. intros [= <-]. split; [done|]. by intros n Hn%elem_of_nil.
  - apply Forall_cons in Hok as [[Hp Ha] Hok].
    apply NoDup_cons in Hnd as [Hnotin Hnd].
    specialize (IH Hok Hnd).
    assert (forall n, n ∈ rest -> proper n /\ atom n /\ n <> name) as Hrest.
    { intros n Hn. rewrite Forall_forall in Hok.
      destruct (Hok n Hn) as [Hpn Han].
      split; [done|]. split; [done|].
      intros E. apply Hnotin. by rewrite <- E. }
    rewrite run_copy_cons. unfold OS.stat, OS.read_file.
    destruct (files w !! OS.key (GoPath.Join [src; name])) as [[data| |]|] eqn:Es;
      simpl; try done; [|destruct (OS.missing w _); simpl; try done].
    + destruct (write_file_cases w (GoPath.Join [dst; name]) data)
        as [[e ->]|[-> _]]; [done|].
      set (w1 := OS.put w _ _ _). intros Hr.
      destruct (IH w1 Hr) as [Hframe Hcop].
      assert (forall k, k <> OS.key (GoPath.Join [dst; name]) ->
                files w1 !! k = files w !! k) as Hw1.
      { intros k Hk. unfold w1. simpl. by rewrite lookup_insert_ne. }
      split.
      * intros k Hk. rewrite Hframe.
        -- apply Hw1, Hk, elem_of_cons. by left.
        -- intros n Hn. apply Hk. apply elem_of_cons. by right.
      * intros n [->|Hn]%elem_of_cons.
        -- right. exists data. split; [done|].
           rewrite Hframe.
           ++ unfold w1. simpl. apply lookup_insert_eq.
           ++ intros n Hn. destruct (Hrest n Hn) as (? & ? & ?).
              by apply join_key_ne.
        -- destruct (Hrest n Hn) as (Hpn & Han & Hne).
           destruct (Hcop n Hn) as [[Hs Hd]|(data' & Hs & Hd)].
           ++ left. rewrite Hw1 in Hs by (by apply join_key_ne).
              rewrite Hw1 in Hd by (by apply join_key_ne). done.
           ++ right. exists data'.
              rewrite Hw1 in Hs by (by apply join_key_ne). done.
    + intros Hr. destruct (IH w Hr) as [Hframe Hcop]. split.
      * intros k Hk. apply Hframe. intros n Hn. apply Hk.
        apply elem_of_cons. by right.
      * intros n [->|Hn]%elem_of_cons; [|by apply Hcop].
        left. split; [done|]. apply Hframe.
        intros n Hn. destruct (Hrest n Hn) as (? & ? & ?). by apply join_key_ne.
Qed.

(** X16.  When [copyPulledZdfsMetaFiles] succeeds, every file of the bundle
    that was a regular file in the source directory is in the destination
    with the same bytes, every one that was not in the source is skipped
    and its place in the destination is as before (a source entry that is
    there but is no readable file makes the copy fail), and no other path
    has changed. *)
Theorem copyPulledZdfsMetaFiles_success (srcDir dstDir : string) (w w' : World) :
  run (copyPulledZdfsMetaFiles srcDir dstDir) w = (Done None, w') ->
  (forall name, name ∈ bundle_files -> copied srcDir dstDir w w' name)
  /\ (forall k,
        (forall name, name ∈ bundle_files ->
                      k <> OS.key (GoPath.Join [dstDir; name])) ->
        files w' !! k = files w !! k).
Proof.
  intros Hr. unfold copyPulledZdfsMetaFiles in Hr. fold bundle_files in Hr.
  apply copy_range_success in Hr as [Hframe Hcop]; [done| |].
  - repeat constructor; try done; by apply atom_literal.
  - apply (bool_decide_unpack (NoDup bundle_files)). vm_compute. exact I.
Qed.

Lemma copyPulledZdfsMetaFiles_success_witness :
  copied "/s/x/fs" "/s/x/block" Sample.bad_size
    (run (copyPulledZdfsMetaFiles "/s/x/fs" "/s/x/block")
         Sample.bad_size).2 zdfsOssurlFile
  /\ copied "/s/x/fs" "/s/x/block" Sample.bad_size
       (run (copyPulledZdfsMetaFiles "/s/x/fs" "/s/x/block")
            Sample.bad_size).2 zdfsTrace.
Proof.
  destruct (copyPulledZdfsMetaFiles_success
              "/s/x/fs" "/s/x/block" Sample.bad_size
              (run (copyPulledZdfsMetaFiles
                      "/s/x/fs" "/s/x/block") Sample.bad_size).2)
    as [Hcop _]; [vm_compute; reflexivity|].
  split; apply Hcop; unfold bundle_files; set_solver.
Defined.

(** ** The paths of a layer *)

Lemma Clean_rooted s :
  Forall proper (GoStrings.split_on GoPath.slash s) ->
  GoPath.Clean (String GoPath.slash s) = String GoPath.slash s.
Proof.
  intros Hs. unfold GoPath.Clean.
  change (String.eqb (String GoPath.slash s) EmptyString) with false.
  change (GoPath.is_rooted (String GoPath.slash s)) with true.
  cbv beta iota zeta.
  change (GoStrings.split_on GoPath.slash (String GoPath.slash s))
    with (EmptyString :: GoStrings.split_on GoPath.slash s).
  simpl fold_left.
  change (GoPath.clean_step true [] EmptyString) with (@nil string).
  rewrite (fold_clean_step_proper _ _ _ Hs), app_nil_r, rev_involutive,
    concat_split.
  reflexivity.
Qed.

Lemma append_inj_l (a b c : string) : a +:+ b = a +:+ c -> b = c.
Proof.
  induction a as [|x a IH]; [done|]. rewrite !append_cons. intros [= E]. auto.
Qed.

Lemma append_inj_r (a b c : string) : a +:+ c = b +:+ c -> a = b.
Proof.
  revert b. induction a as [|x a IH]; intros b E.
  - destruct b as [|y b]; [done|].
    apply (f_equal String.length) in E. rewrite !length_append in E.
    simpl in E. lia.
  - destruct b as [|y b].
    + apply (f_equal String.length) in E. rewrite !length_append in E.
      simpl in E. lia.
    + rewrite !append_cons in E. injection E as -> E. f_equal. auto.
Qed.

Lemma plain_dir_join d name :
  plain_dir d -> proper name -> atom name ->
  GoPath.Join [d; name] = d +:+ String GoPath.slash name
  /\ plain_dir (d +:+ String GoPath.slash name).
Proof.
  intros (s & -> & Hs) Hp Ha.
  assert (Forall proper
            (GoStrings.split_on GoPath.slash (s +:+ String GoPath.slash name)))
    as Hs'.
  { rewrite split_on_app, Ha. apply Forall_app. split; [done|].
    by constructor. }
  split.
  - unfold GoPath.Join. rewrite !filter_cons, filter_nil.
    destruct (decide (String GoPath.slash s ≠ EmptyString)) as [_|Hn];
      [|by destruct Hn].
    destruct (decide (name ≠ EmptyString)) as [_|Hn];
      [|destruct Hp as [Hp _]; by destruct Hn].
    change (String.concat "/" [String GoPath.slash s; name])
      with (String GoPath.slash (s +:+ String GoPath.slash name)).
    by apply Clean_rooted.
  - exists (s +:+ String GoPath.slash name). done.
Qed.

Lemma plain_dir_key d : plain_dir d -> OS.key d = d.
Proof. intros (s & -> & Hs). by apply Clean_rooted. Qed.

Lemma overlaybdConfPath_plain d :
  plain_dir d ->
  overlaybdConfPath d = d +:+ "/block/config.v1.json"
  /\ plain_dir (overlaybdConfPath d).
Proof.
  intros Hd.
  destruct (plain_dir_join d "block" Hd) as [Hb Hpb];
    [done|by apply atom_literal|].
  destruct (plain_dir_join _ "config.v1.json" Hpb) as [Hc Hpc];
    [done|by apply atom_literal|].
  assert (overlaybdConfPath d = d +:+ "/block/config.v1.json") as E.
  { destruct Hd as (s & -> & Hs).
    assert (Forall proper
              (GoStrings.split_on GoPath.slash
                 (s +:+ String GoPath.slash
                    ("block" +:+ String GoPath.slash "config.v1.json"))))
      as Hs'.
    { rewrite !split_on_app. apply Forall_app. split; [done|].
      repeat constructor; done. }
    unfold overlaybdConfPath, GoPath.Join. rewrite !filter_cons, filter_nil.
    destruct (decide (String GoPath.slash s ≠ EmptyString)) as [_|Hn];
      [|by destruct Hn].
    destruct (decide ("block" ≠ EmptyString)) as [_|Hn]; [|by destruct Hn].
    destruct (decide ("config.v1.json" ≠ EmptyString)) as [_|Hn];
      [|by destruct Hn].
    change (String.concat "/" [String GoPath.slash s; "block"; "config.v1.json"])
      with (String GoPath.slash
              (s +:+ String GoPath.slash
                 ("block" +:+ String GoPath.slash "config.v1.json"))).
    by rewrite Clean_rooted. }
  split; [done|]. rewrite E.
  replace (d +:+ "/block/config.v1.json")
    with ((d +:+ String GoPath.slash "block") +:+ String GoPath.slash "config.v1.json")
    by (by rewrite append_assoc).
  done.
Qed.

(** X17.  For a layer directory given as a clean absolute path, the
    descriptor file is the directory followed by [/block/config.v1.json],
    and it is looked up under that very name; so two different layer
    directories never share their descriptor file. *)
Theorem overlaybdConfPath_injective (d1 d2 : string) :
  plain_dir d1 -> plain_dir d2 -> d1 <> d2 ->
  OS.key (overlaybdConfPath d1) = d1 +:+ "/block/config.v1.json"
  /\ OS.key (overlaybdConfPath d1) <> OS.key (overlaybdConfPath d2).
Proof.
  intros H1 H2 Hne.
  destruct (overlaybdConfPath_plain d1 H1) as [E1 P1].
  destruct (overlaybdConfPath_plain d2 H2) as [E2 P2].
  rewrite (plain_dir_key _ P1), (plain_dir_key _ P2), E1, E2.
  split; [done|]. intros E. by apply append_inj_r in E.
Qed.

Lemma concat_app (l1 l2 : list string) :
  l1 <> [] -> l2 <> [] ->
  String.concat "/" (l1 ++ l2)
  = String.concat "/" l1 +:+ String GoPath.slash (String.concat "/" l2).
Proof.
  intros H1 H2. induction l1 as [|x l1 IH]; [done|].
  destruct l1 as [|y l1].
  - simpl. destruct l2; done.
  - specialize (IH ltac:(done)).
    change (String.concat "/" ((x :: y :: l1) ++ l2))
      with (x +:+ String GoPath.slash (String.concat "/" ((y :: l1) ++ l2))).
    rewrite IH.
    change (String.concat "/" (x :: y :: l1))
      with (x +:+ String GoPath.slash (String.concat "/" (y :: l1))).
    by rewrite append_assoc.
Qed.

Lemma fold_clean_step_plain rooted l out :
  Forall (fun c => c = EmptyString \/ proper c) l ->
  fold_left (GoPath.clean_step rooted) l out
  = (rev (filter (fun c => c ≠ EmptyString) l) ++ out)%list.
Proof.
  intros Hl. revert out. induction Hl as [|c l [->|Hc] _ IH]; intros out.
  - done.
  - simpl fold_left. change (GoPath.clean_step rooted out EmptyString) with out.
    rewrite IH, filter_cons.
    destruct (decide (EmptyString ≠ EmptyString)) as [Hn|_]; done.
  - simpl fold_left. rewrite (clean_step_proper _ _ _ Hc), IH, filter_cons.
    destruct (decide (c ≠ EmptyString)) as [_|Hn].
    + simpl rev. by rewrite <- app_assoc.
    + destruct Hc as [Hc _]. by destruct Hn.
Qed.

Lemma filter_proper (l : list string) :
  Forall proper l -> filter (fun c => c ≠ EmptyString) l = l.
Proof.
  induction 1 as [|c l [Hc _] _ IH]; [done|].
  rewrite filter_cons, IH. destruct (decide (c ≠ EmptyString)); done.
Qed.

(** X18.  For a layer directory given as a clean absolute path,
    [makeConfig] looks for the override file at the directory's path
    repeated, [<dir><dir>/image_ref], which is never the file [image_ref]
    directly under the layer. *)
Theorem image_ref_path_doubled (d : string) :
  plain_dir d ->
  GoPath.Join [d; GoPath.Join [d; "image_ref"]] = d +:+ d +:+ "/image_ref"
  /\ GoPath.Join [d; "image_ref"] = d +:+ "/image_ref"
  /\ GoPath.Join [d; GoPath.Join [d; "image_ref"]] <> GoPath.Join [d; "image_ref"].
Proof.
  intros Hd.
  destruct (plain_dir_join d "image_ref" Hd) as [Hi _];
    [done|by apply atom_literal|].
  assert (GoPath.Join [d; GoPath.Join [d; "image_ref"]]
          = d +:+ d +:+ "/image_ref") as E.
  { rewrite Hi. destruct Hd as (s & -> & Hs).
    pose proof (split_on_nonempty GoPath.slash s) as Hne.
    unfold GoPath.Join. rewrite !filter_cons, filter_nil.
    destruct (decide (String GoPath.slash s ≠ EmptyString)) as [_|Hn];
      [|by destruct Hn].
    destruct (decide (String GoPath.slash s +:+ String GoPath.slash "image_ref"
                      ≠ EmptyString)) as [_|Hn]; [|by destruct Hn].
    change (String.concat "/" [String GoPath.slash s;
              String GoPath.slash s +:+ String GoPath.slash "image_ref"])
      with (String GoPath.slash
              (s +:+ String GoPath.slash
                 (String GoPath.slash (s +:+ String GoPath.slash "image_ref")))).
    unfold GoPath.Clean.
    match goal with |- context [String.eqb (String ?c ?x) EmptyString] =>
      change (String.eqb (String c x) EmptyString) with false;
      change (GoPath.is_rooted (String c x)) with true;
      change (GoStrings.split_on GoPath.slash (String c x))
        with (EmptyString :: GoStrings.split_on GoPath.slash x) end.
    cbv beta iota zeta.
    rewrite split_on_app.
    change (GoStrings.split_on GoPath.slash
              (String GoPath.slash (s +:+ String GoPath.slash "image_ref")))
      with (EmptyString
            :: GoStrings.split_on GoPath.slash
                 (s +:+ String GoPath.slash "image_ref")).
    rewrite split_on_app.
    change (GoStrings.split_on GoPath.slash "image_ref") with ["image_ref"].
    rewrite fold_clean_step_plain.
    2:{ constructor; [by left|]. apply Forall_app. split.
        - eapply Forall_impl; [exact Hs|]. by right.
        - constructor; [by left|]. apply Forall_app. split.
          + eapply Forall_impl; [exact Hs|]. by right.
          + constructor; [right; done|constructor]. }
    rewrite app_nil_r, rev_involutive, filter_cons.
    destruct (decide (EmptyString ≠ EmptyString)) as [Hn|_]; [done|].
    rewrite filter_app, filter_cons.
    destruct (decide (EmptyString ≠ EmptyString)) as [Hn|_]; [done|].
    rewrite filter_app, !(filter_proper _ Hs).
    rewrite (filter_proper ["image_ref"]) by (repeat constructor; done).
    rewrite concat_app; [|done|by destruct (GoStrings.split_on GoPath.slash s)].
    rewrite concat_app; [|done|done].
    rewrite concat_split. simpl String.concat.
    rewrite !append_cons.
    change ("/" +:+ ?x) with (String GoPath.slash x).
    by f_equal. }
  split; [done|]. split; [done|].
  rewrite E, Hi. intros E'.
  replace (d +:+ d +:+ "/image_ref") with (d +:+ (d +:+ "/image_ref")) in E'
    by reflexivity.
  replace (d +:+ "/image_ref") with (EmptyString +:+ (d +:+ "/image_ref")) in E'
    at 2 by reflexivity.
  change (d +:+ String GoPath.slash "image_ref") with (d +:+ "/image_ref") in E'.
  apply (f_equal String.length) in E'. rewrite !length_append in E'.
  destruct Hd as (s & -> & _). simpl in E'. lia.
Qed.

Lemma plain_dir_sample id : 
  Forall proper (GoStrings.split_on GoPath.slash ("s/" +:+ id)) ->
  plain_dir (Sample.snPath id).
Proof. intros Hs. by exists ("s/" +:+ id). Qed.

Lemma overlaybdConfPath_injective_witness :
  OS.key (overlaybdConfPath "/s/0") = "/s/0/block/config.v1.json"
  /\ OS.key (overlaybdConfPath "/s/0") <> OS.key (overlaybdConfPath "/s/1").
Proof.
  apply (overlaybdConfPath_injective "/s/0" "/s/1").
  - apply (plain_dir_sample "0"). repeat constructor; done.
  - apply (plain_dir_sample "1"). repeat constructor; done.
  - discriminate.
Defined.

Lemma image_ref_path_doubled_witness :
  GoPath.Join ["/s/x"; GoPath.Join ["/s/x"; "image_ref"]] = "/s/x/s/x/image_ref"
  /\ GoPath.Join ["/s/x"; "image_ref"] = "/s/x/image_ref"
  /\ GoPath.Join ["/s/x"; GoPath.Join ["/s/x"; "image_ref"]]
     <> GoPath.Join ["/s/x"; "image_ref"].
Proof.
  apply (image_ref_path_doubled "/s/x").
  apply (plain_dir_sample "x"). repeat constructor; done.
Defined.

(** ** The blob URL and the size *)

Section Blob.
Context `{Collaborators}.

(** X19.  For a reference that the parser accepts with a registry host and
    a repository path made of ordinary names, [constructImageBlobURL]
    returns [https://<host>/v2/<repo>/blobs] and no error; the tag and the
    digest of the reference do not show in it. *)
Theorem constructImageBlobURL_accepted (ref : string) (n : reference.Named) :
  reference_ParseNamed ref = inr n ->
  Forall proper (GoStrings.split_on GoPath.slash (reference.domain n)) ->
  Forall proper (GoStrings.split_on GoPath.slash (reference.path n)) ->
  constructImageBlobURL ref
  = ("https://" +:+ (reference.domain n +:+ "/v2/" +:+ reference.path n)
       +:+ "/blobs", None).
Proof.
  intros Hp Hd Hr. by apply (constructImageBlobURL_valid ref n Hp).
Qed.

End Blob.

Lemma constructImageBlobURL_accepted_witness :
  constructImageBlobURL (H := Sample.collab) Sample.image_ref
  = ("https://registry.example.com/v2/repo/name/blobs", None).
Proof.
  apply (constructImageBlobURL_accepted (H := Sample.collab) Sample.image_ref
           (reference.mkNamed "registry.example.com" "repo/name" "tag"
              EmptyString)).
  - vm_compute; reflexivity.
  - repeat constructor; done.
  - repeat constructor; done.
Defined.

(** ** A migration that succeeds *)

Lemma prefix_split (p k : string) :
  String.prefix p k = true -> exists r, k = p +:+ r.
Proof.
  revert k. induction p as [|a p IH]; intros k; [by exists k|].
  destruct k as [|b k]; [done|]. simpl.
  destruct (ascii_dec a b) as [->|]; [|done].
  intros Hp. destruct (IH k Hp) as [r ->]. by exists r.
Qed.

Lemma slice_from_app (a b : string) :
  GoStrings.slice_from (a +:+ b) (Z.of_nat (String.length a)) = b.
Proof.
  unfold GoStrings.slice_from. rewrite Nat2Z.id, length_append.
  replace (String.length a + String.length b - String.length a)
    with (String.length b) by lia.
  apply substring_suffix.
Qed.

Lemma append_nil_r (a : string) : a +:+ EmptyString = a.
Proof. induction a as [|x a IH]; [done|]. by rewrite append_cons, IH. Qed.

Lemma rebase_old old new : OS.rebase old new old = new.
Proof.
  unfold OS.rebase.
  rewrite <- (append_nil_r old) at 1. by rewrite slice_from_app, append_nil_r.
Qed.

Lemma rebase_below old new k :
  OS.below old k = true -> OS.rebase old new k <> new.
Proof.
  unfold OS.below, OS.rebase. intros [Hp Hne]%andb_true_iff.
  apply negb_true_iff, String.eqb_neq in Hne.
  assert (exists r, k = old +:+ r /\ r <> EmptyString) as (r & -> & Hr).
  { destruct (String.eqb old "/") eqn:E.
    - apply String.eqb_eq in E as ->. destruct (prefix_split _ _ Hp) as [r ->].
      exists r. split; [done|]. intros ->. by apply Hne.
    - destruct (prefix_split _ _ Hp) as [r ->]. exists ("/" +:+ r).
      split; [by rewrite append_assoc|done]. }
  rewrite slice_from_app. intros E.
  apply (f_equal String.length) in E. rewrite length_append in E.
  destruct r; [done|]. simpl in E. lia.
Qed.

Lemma move_tree_new (fs : gmap string node) old new n :
  fs !! old = Some n -> fs !! new = None ->
  OS.move_tree fs old new !! new = Some n.
Proof.
  intros Ho Hn. unfold OS.move_tree. apply elem_of_list_to_map_1'.
  - intros y [Hy|Hy]%elem_of_app.
    + apply list_elem_of_omap in Hy as ([k v] & Hin & Hf). simpl in Hf.
      apply elem_of_map_to_list in Hin.
      destruct (String.eqb k old) eqn:Ek; simpl in Hf.
      * apply String.eqb_eq in Ek as ->. injection Hf as _ <-. congruence.
      * destruct (OS.below old k) eqn:Eb; simpl in Hf; [|done].
        injection Hf as Hk _. by apply rebase_below in Hk.
    + apply list_elem_of_omap in Hy as ([k v] & Hin & Hf). simpl in Hf.
      apply elem_of_map_to_list in Hin.
      destruct (String.eqb k old || OS.below old k); [done|].
      injection Hf as -> ->. congruence.
  - apply elem_of_app. left. apply list_elem_of_omap.
    exists (old, n). split; [by apply elem_of_map_to_list|].
    simpl. by rewrite String.eqb_refl, rebase_old.
Qed.

Lemma rename_success w old new w' :
  OS.rename w old new = (None, w') ->
  files w' = OS.move_tree (files w) (OS.key old) (OS.key new)
  /\ journal w' = (journal w ++ [MRename (OS.key old) (OS.key new)])%list
  /\ rng w' = rng w
  /\ exists n, files w !! OS.key old = Some n /\ n <> NDenied.
Proof.
  destruct (rename_cases w old new) as [[e ->]|[-> Hn]]; intros [= <-]; done.
Qed.

Lemma temp_key_ne d sfx :
  atom sfx ->
  OS.key (OS.temp_name d "temp_for_prepare_dadimeta" sfx)
  <> OS.key (GoPath.Join [d; zdfsMetaDir]).
Proof.
  intros Hs.
  apply (key_ne_by_last _ _ ("temp_for_prepare_dadimeta" +:+ sfx)).
  - repeat split; done.
  - apply temp_name_last, atom_app; [by apply atom_literal|done].
  - by rewrite meta_key_last.
Qed.

Section Migrated.
Context `{Collaborators}.

(** X21.  When [doDir] succeeds on a legacy layer (no metadata directory,
    no descriptor file), the migration has been carried through: the rename
    onto [zdfsmeta] is among the mutations done, the metadata directory is
    there, and so is the descriptor file. *)
Theorem doDir_legacy_success (dir parent : string) (w w' : World) :
  let K := OS.key (GoPath.Join [dir; zdfsMetaDir]) in
  files w !! K = None ->
  Forall atom (rng w) ->
  ~ present w (overlaybdConfPath dir) ->
  run (doDir dir parent) w = (Done None, w') ->
  present w' (GoPath.Join [dir; zdfsMetaDir])
  /\ present w' (overlaybdConfPath dir)
  /\ exists j, journal w' = (journal w ++ j)%list /\ did_rename K j.
Proof.
  intros K HK Hrng Hconf. pose proof (meta_key_last dir) as HKl. fold K in HKl.
  unfold doDir. rewrite run_mbind, run_pathExists.
  destruct (path_exists_absent _ _ HK) as [Ea|[e Ea]]; rewrite Ea;
    cbv beta iota; [|done].
  rewrite run_mbind, run_pathExists. fold (overlaybdConfPath dir).
  assert ((path_exists w (overlaybdConfPath dir)).1 = false) as Hb.
  { destruct (path_exists_cases w (overlaybdConfPath dir))
      as [[Hp _]|[(_ & _ & ->)|(_ & e0 & ->)]]; done. }
  destruct (path_exists w (overlaybdConfPath dir)) as [b e]. simpl in Hb.
  subst b. cbv beta iota. rewrite run_MkdirTemp.
  destruct (mkdir_temp_spec w dir "temp_for_prepare_dadimeta")
    as [[kd Hk1] [(e1 & He1 & _ & _)|(sfx & Hin & Hr1 & _ & Hf1 & Hj1)]];
    destruct (OS.mkdir_temp w dir _) as [r w1]; cbn [fst snd] in *; subst r;
    [done|].
  assert (atom sfx) as Hsfx by (rewrite Forall_forall in Hrng; auto).
  assert (Forall atom (rng w1)) as Hrng1
    by (rewrite Hk1; by apply Forall_drop).
  set (tmpDir := OS.temp_name dir "temp_for_prepare_dadimeta" sfx) in *.
  assert (files w1 !! K = None) as HK1.
  { rewrite Hf1, lookup_insert_ne; [done|]. by apply temp_key_ne. }
  rewrite run_mbind.
  destruct (run_confined (fun k => k <> K)
              (copyPulledZdfsMetaFiles (GoPath.Join [dir; "fs"]) tmpDir) w1)
    as [Hf2 [j2 [Hj2 _]]]; [by apply confined_copy_ne|done|].
  pose proof (run_atoms
                (copyPulledZdfsMetaFiles (GoPath.Join [dir; "fs"]) tmpDir)
                w1 Hrng1) as Hrng2.
  destruct (run (copyPulledZdfsMetaFiles _ tmpDir) w1) as [[[e2|]|msg] w2];
    cbn [fst snd] in *; [done| |done].
  rewrite run_mbind.
  destruct (run_confined (fun k => k <> K)
              (copyPulledZdfsMetaFiles (GoPath.Join [dir; "fs"])
                 (GoPath.Join [dir; "block"])) w2)
    as [Hf3 [j3 [Hj3 _]]]; [by apply confined_copy_ne|done|].
  destruct (run (copyPulledZdfsMetaFiles _ (GoPath.Join [dir; "block"])) w2)
    as [[[e3|]|msg] w3]; cbn [fst snd] in *; [done| |done].
  assert (files w3 !! K = None) as HK3.
  { rewrite Hf3, Hf2; [done| |]; intros Hne; by apply Hne. }
  rewrite run_Rename.
  destruct (OS.rename w3 tmpDir (GoPath.Join [dir; zdfsMetaDir]))
    as [[e4|] w4] eqn:Er; cbn [fst snd]; [done|].
  apply rename_success in Er as (Hf4 & Hj4 & _ & n & Hn & Hnd).
  fold K in Hf4, Hj4.
  assert (files w4 !! K = Some n) as HK4
    by (rewrite Hf4; by apply move_tree_new).
  intros Hrun.
  pose proof (makeConfig_built dir parent w4 w' Hrun) as [c Hc].
  apply makeConfig_success_world in Hrun as [data ->].
  split; [|split].
  - exists n. split; [|done]. fold K. simpl.
    rewrite lookup_insert_ne; [done|]. by apply conf_key_ne.
  - by eapply built_present.
  - exists ([MMkdir (OS.key tmpDir)] ++ j2 ++ j3 ++ [MRename (OS.key tmpDir) K]
            ++ [MAtomicWrite (OS.key (overlaybdConfPath dir))])%list. split.
    + simpl journal. rewrite Hj4, Hj3, Hj2, Hj1. by rewrite <- !app_assoc.
    + exists (OS.key tmpDir). rewrite !elem_of_app. right. right. right. left.
      by apply list_elem_of_singleton.
Qed.

End Migrated.

Lemma doDir_legacy_success_witness :
  present (run (doDir (H := Sample.collab) "/s/x" EmptyString) Sample.bad_size).2
          "/s/x/zdfsmeta"
  /\ present (run (doDir (H := Sample.collab) "/s/x" EmptyString)
                  Sample.bad_size).2 "/s/x/block/config.v1.json".
Proof.
  destruct (doDir_legacy_success (H := Sample.collab) "/s/x" EmptyString
              Sample.bad_size
              (run (doDir (H := Sample.collab) "/s/x" EmptyString)
                   Sample.bad_size).2) as (Hm & Hc & _).
  - vm_compute; reflexivity.
  - repeat constructor.
  - intros (n & Hn & _). vm_compute in Hn. discriminate.
  - vm_compute; reflexivity.
  - split; [exact Hm|exact Hc].
Defined.

(** ** What [makeConfig] makes of the override and of a bad size *)


Section Override.
Context `{Collaborators}.

(** X22.  When the override file is there where [makeConfig] looks for it
    and holds, byte for byte, a reference the parser accepts, the
    repository URL of the descriptor is the blob URL of that reference;
    the digest and the size still come from the markers in [block]. *)
Theorem makeConfig_valid_override
    (dir parent repo digest img : string) (n : reference.Named) (w : World) :
  (run (GetBlobRepoDigest (GoPath.Join [dir; "block"])) w).1
    = Done (repo, digest, None) ->
  OS.read_file w (GoPath.Join [dir; GoPath.Join [dir; "image_ref"]]) = inr img ->
  reference_ParseNamed img = inr n ->
  run (makeConfig dir parent) w
  = run (constructSpec dir parent
           ("https://" +:+ GoPath.Join [reference.domain n; "v2"; reference.path n]
              +:+ "/blobs")
           digest (size_read w (GoPath.Join [dir; "block"])) EmptyString) w.
Proof.
  intros Hd Hr Hp. rewrite makeConfig_run, Hd. unfold repo_chosen.
  assert (present w (GoPath.Join [dir; GoPath.Join [dir; "image_ref"]])) as Hpr.
  { unfold OS.read_file in Hr.
    destruct (files w !! OS.key _) as [[data| |]|] eqn:E; try done.
    by exists (NFile data). }
  rewrite (path_exists_present _ _ Hpr), Hr. simpl fst. cbv iota.
  unfold constructImageBlobURL. by rewrite Hp.
Qed.


End Override.

Lemma makeConfig_valid_override_witness :
  run (makeConfig (H := Sample.collab) "/s/x" EmptyString)
      Sample.with_nested_image_ref
  = run (constructSpec (H := Sample.collab) "/s/x" EmptyString
           "https://registry.example.com/v2/repo/name/blobs" "sha256:aa" 10
           EmptyString) Sample.with_nested_image_ref.
Proof.
  apply (makeConfig_valid_override (H := Sample.collab) "/s/x" EmptyString
           "https://host/v2/repo/blobs" "sha256:aa" Sample.image_ref
           (reference.mkNamed "registry.example.com" "repo/name" "tag"
              EmptyString)).
  - vm_compute; reflexivity.
  - vm_compute; reflexivity.
  - vm_compute; reflexivity.
Defined.


(** * The metadata slot during a migration *)

(** ** Paths below a clean directory *)

Lemma prefix_app (a r : string) : String.prefix a (a +:+ r) = true.
Proof.
  induction a as [|c a IH]; [by destruct r|].
  rewrite append_cons. simpl. by destruct (ascii_dec c c).
Qed.

Lemma plain_dir_not_root d : plain_dir d -> d <> "/".
Proof. intros (s & -> & Hs) [= ->]. by apply Forall_cons in Hs as [[? _] _]. Qed.

Lemma below_child d r : d <> "/" -> OS.below d (d +:+ String GoPath.slash r) = true.
Proof.
  intros Hd. unfold OS.below. apply String.eqb_neq in Hd. rewrite Hd.
  apply andb_true_iff. split.
  - replace (d +:+ String GoPath.slash r) with ((d +:+ "/") +:+ r)
      by (by rewrite append_assoc).
    apply prefix_app.
  - apply negb_true_iff, String.eqb_neq. intros E.
    apply (f_equal String.length) in E. rewrite length_append in E.
    simpl in E. lia.
Qed.

Lemma below_split d k :
  OS.below d k = true -> exists r, k = d +:+ r /\ r <> EmptyString.
Proof.
  unfold OS.below. intros [Hp Hne]%andb_true_iff.
  apply negb_true_iff, String.eqb_neq in Hne.
  destruct (String.eqb d "/").
  - destruct (prefix_split _ _ Hp) as [r ->]. exists r. split; [done|].
    intros ->. apply Hne. by rewrite append_nil_r.
  - destruct (prefix_split _ _ Hp) as [r ->]. exists ("/" +:+ r).
    split; [by rewrite append_assoc|done].
Qed.

(** A path next to the slot [zdfsmeta] of [d] is neither the slot nor
    below it. *)
Lemma outside_sibling d x :
  String.prefix "/zdfsmeta" x = false ->
  outside (d +:+ "/zdfsmeta") (d +:+ x).
Proof.
  intros Hx. split.
  - intros E. apply append_inj_l in E. by subst x.
  - destruct (OS.below _ _) eqn:Eb; [|done].
    apply below_split in Eb as (r & E & _).
    rewrite append_assoc in E. apply append_inj_l in E. subst x.
    by rewrite prefix_app in Hx.
Qed.

Lemma temp_name_plain d pat sfx :
  plain_dir d -> OS.temp_name d pat sfx = d +:+ String "/" (pat +:+ sfx).
Proof.
  intros (s & -> & Hs). unfold OS.temp_name.
  change (String.eqb (String GoPath.slash s) EmptyString) with false.
  cbv iota.
  destruct (GoStrings.last_byte (String GoPath.slash s)) as [c|] eqn:El;
    [|done].
  destruct (Ascii.eqb c "/") eqn:Ec; [|done].
  apply Ascii.eqb_eq in Ec as ->. apply last_byte_snoc in El as [d' E].
  exfalso. destruct d' as [|a d'].
  - injection E as ->. by apply Forall_cons in Hs as [[? _] _].
  - rewrite append_cons in E. injection E as _ ->.
    change (d' +:+ "/") with (d' +:+ String GoPath.slash EmptyString) in Hs.
    rewrite split_on_app in Hs. apply Forall_app in Hs as [_ Hs].
    by apply Forall_cons in Hs as [[? _] _].
Qed.

Lemma Dir_plain d a :
  plain_dir d -> atom a -> GoPath.Dir (d +:+ String GoPath.slash a) = d.
Proof.
  intros (s & -> & Hs) Ha. unfold GoPath.Dir.
  change (GoStrings.LastIndexByte (String GoPath.slash s +:+ String GoPath.slash a)
            GoPath.slash)
    with (GoStrings.LastIndexByte_from 0 (-1) GoPath.slash
            (String GoPath.slash s +:+ String GoPath.slash a)).
  rewrite (LastIndexByte_from_split _ _ _ _ Ha), Z.add_0_l.
  replace (String GoPath.slash s +:+ String GoPath.slash a)
    with ((String GoPath.slash s +:+ "/") +:+ a) by (by rewrite append_assoc).
  replace (Z.of_nat (String.length (String GoPath.slash s)) + 1)%Z
    with (Z.of_nat (String.length (String GoPath.slash s +:+ "/")))
    by (rewrite length_append; simpl; lia).
  rewrite slice_to_prefix.
  unfold GoPath.Clean. rewrite append_cons.
  change (String.eqb (String GoPath.slash (s +:+ "/")) EmptyString) with false.
  change (GoPath.is_rooted (String GoPath.slash (s +:+ "/"))) with true.
  cbv beta iota zeta.
  change (GoStrings.split_on GoPath.slash (String GoPath.slash (s +:+ "/")))
    with (EmptyString :: GoStrings.split_on GoPath.slash (s +:+ "/")).
  change (s +:+ "/") with (s +:+ String GoPath.slash EmptyString).
  rewrite split_on_app. simpl fold_left.
  change (GoPath.clean_step true [] EmptyString) with (@nil string).
  rewrite fold_clean_step_plain.
  2:{ apply Forall_app. split.
      - eapply Forall_impl; [exact Hs|]. by right.
      - constructor; [by left|constructor]. }
  rewrite app_nil_r, rev_involutive, filter_app, (filter_proper _ Hs).
  change (GoStrings.split_on GoPath.slash EmptyString) with [EmptyString].
  rewrite filter_cons, filter_nil.
  destruct (decide (EmptyString ≠ EmptyString)) as [Hn|_]; [done|].
  by rewrite app_nil_r, concat_split.
Qed.

Lemma Base_plain x a :
  atom a -> a <> EmptyString -> GoPath.Base (x +:+ String GoPath.slash a) = a.
Proof.
  intros Ha Hne. unfold GoPath.Base.
  assert (String.eqb (x +:+ String GoPath.slash a) EmptyString = false) as ->.
  { apply String.eqb_neq. by destruct x. }
  rewrite split_on_app, Ha, filter_app, (filter_cons _ a), filter_nil.
  destruct (decide (a ≠ EmptyString)) as [_|Hn]; [|by destruct Hn].
  destruct (filter _ (GoStrings.split_on GoPath.slash x)) as [|c cs]; [done|].
  simpl app. apply last_app_nonempty. done.
Qed.

(** ** Moving a directory *)

Lemma move_tree_child (fs : gmap string node) old new r n :
  old <> "/" ->
  fs !! (old +:+ String GoPath.slash r) = Some n ->
  fs !! (new +:+ String GoPath.slash r) = None ->
  OS.move_tree fs old new !! (new +:+ String GoPath.slash r) = Some n.
Proof.
  intros Hold Ho Hn. unfold OS.move_tree. apply elem_of_list_to_map_1'.
  - intros y [Hy|Hy]%elem_of_app.
    + apply list_elem_of_omap in Hy as ([k v] & Hin & Hf). simpl in Hf.
      apply elem_of_map_to_list in Hin.
      destruct (String.eqb k old) eqn:Ek; simpl in Hf.
      * apply String.eqb_eq in Ek as ->. injection Hf as Hk _.
        rewrite rebase_old in Hk. apply (f_equal String.length) in Hk.
        rewrite length_append in Hk. simpl in Hk. lia.
      * destruct (OS.below old k) eqn:Eb; simpl in Hf; [|done].
        injection Hf as Hk <-.
        apply below_split in Eb as (r' & -> & _).
        unfold OS.rebase in Hk. rewrite slice_from_app in Hk.
        apply append_inj_l in Hk. subst r'. congruence.
    + apply list_elem_of_omap in Hy as ([k v] & Hin & Hf). simpl in Hf.
      apply elem_of_map_to_list in Hin.
      destruct (String.eqb k old || OS.below old k); [done|].
      injection Hf as -> ->. congruence.
  - apply elem_of_app. left. apply list_elem_of_omap.
    exists (old +:+ String GoPath.slash r, n).
    split; [by apply elem_of_map_to_list|].
    simpl. rewrite (below_child _ _ Hold), orb_true_r.
    unfold OS.rebase. by rewrite slice_from_app.
Qed.

(** ** The files of the bundle *)

Lemma bundle_names : Forall (fun n => proper n /\ atom n) bundle_files.
Proof. repeat constructor; try done; by apply atom_literal. Qed.

Lemma bundle_nodup : NoDup bundle_files.
Proof. apply (bool_decide_unpack (NoDup bundle_files)). vm_compute. exact I. Qed.

Lemma member_key base name :
  plain_dir base -> name ∈ bundle_files ->
  OS.key (GoPath.Join [base; name]) = base +:+ String GoPath.slash name.
Proof.
  intros Hb Hin. pose proof bundle_names as Hn. rewrite Forall_forall in Hn.
  destruct (Hn name Hin) as [Hp Ha].
  destruct (plain_dir_join base name Hb Hp Ha) as [-> Hpl].
  by apply plain_dir_key.
Qed.

(** ** Programs that stay outside the slot *)

Section Confined.
Context `{Collaborators}.
Variable S : string -> Prop.

Lemma confined_loadBackingStoreConfig d : confined S (loadBackingStoreConfig d).
Proof. intros [e|data]; simpl; [done|]. destruct (json_Unmarshal data); done. Qed.

Lemma confined_atomicWrite d c :
  S (OS.key (overlaybdConfPath d)) ->
  (forall sfx, atom sfx -> S (OS.key (OS.atomic_temp (overlaybdConfPath d) sfx))) ->
  confined S (atomicWriteOverlaybdTargetConfig d c).
Proof.
  intros Hc Ht. unfold atomicWriteOverlaybdTargetConfig.
  destruct (json_Marshal c); simpl; [done|].
  split; [done|]. split; [done|]. intros [e|]; done.
Qed.

Lemma confined_constructSpec d parent repo digest size trace :
  S (OS.key (overlaybdConfPath d)) ->
  (forall sfx, atom sfx -> S (OS.key (OS.atomic_temp (overlaybdConfPath d) sfx))) ->
  confined S (constructSpec d parent repo digest size trace).
Proof.
  intros Hc Ht. unfold constructSpec. destruct (String.eqb parent EmptyString).
  - by apply confined_atomicWrite.
  - apply confined_mbind; [apply confined_loadBackingStoreConfig|].
    intros [e|c]; [done|]. by apply confined_atomicWrite.
Qed.

Lemma confined_makeConfig d parent :
  S (OS.key (overlaybdConfPath d)) ->
  (forall sfx, atom sfx -> S (OS.key (OS.atomic_temp (overlaybdConfPath d) sfx))) ->
  confined S (makeConfig d parent).
Proof.
  intros Hc Ht.
  apply confined_mbind; [apply confined_GetBlobRepoDigest|].
  intros [[repo digest] [e|]]; [done|].
  apply confined_mbind; [apply confined_pathExists|]. intros [b e].
  apply confined_mbind.
  { destruct b; [|done]. intros r. done. }
  intros repo'. apply confined_mbind; [apply confined_GetBlobSize|].
  intros [size e']. by apply confined_constructSpec.
Qed.

End Confined.

(** ** Invariants of the slot *)

Lemma always_mono {A : Type} (P Q : World -> Prop) (m : Prog A) w :
  (forall w', P w' -> Q w') -> always P m w -> always Q m w.
Proof. intros HPQ Hm n. apply HPQ, Hm. Qed.

Lemma always_MkdirTemp {A : Type} (P : World -> Prop) d pat
    (k : error + string -> Prog A) w :
  P w ->
  always P (k (OS.mkdir_temp w d pat).1) (OS.mkdir_temp w d pat).2 ->
  always P (MkdirTemp d pat k) w.
Proof.
  intros HP Hk. apply always_step; [done|]. simpl.
  by destruct (OS.mkdir_temp w d pat).
Qed.

Lemma always_Rename {A : Type} (P : World -> Prop) old new
    (k : option error -> Prog A) w :
  P w ->
  always P (k (OS.rename w old new).1) (OS.rename w old new).2 ->
  always P (Rename old new k) w.
Proof.
  intros HP Hk. apply always_step; [done|]. simpl.
  by destruct (OS.rename w old new).
Qed.

Lemma slot_untouched_refl w0 K : slot_untouched w0 K w0.
Proof. split; [done|]. exists []. by rewrite app_nil_r. Qed.

(** A program that stays outside the slot leaves it untouched wherever it
    is cut off. *)
Lemma untouched_always {A : Type} w0 K (m : Prog A) w :
  slot_untouched w0 K w -> confined (outside K) m -> Forall atom (rng w) ->
  always (slot_untouched w0 K) m w.
Proof.
  intros [Hf (j & Hj & Hn)] Hc Hrng.
  apply (always_confined (outside K)); [done|done|].
  intros w' Hf' (j' & Hj' & Hn'). split.
  - intros k Hk. by rewrite Hf', Hf.
  - exists (j ++ j')%list. split; [by rewrite Hj', Hj, app_assoc|].
    by apply Forall_app.
Qed.

Lemma untouched_settled w0 src slot w :
  slot_empty w0 slot -> slot_untouched w0 (OS.key slot) w ->
  slot_settled w0 src slot w.
Proof.
  intros [Hs Hb] [Hf (j & Hj & Hn)]. exists j. split; [done|]. left.
  split; [by apply not_rename_did|]. split.
  - rewrite Hf; [done|]. by intros [Hne _].
  - intros k Hk. rewrite Hf; [auto|]. intros [_ Hk']. congruence.
Qed.

(** Once the slot is filled, a program that stays outside it leaves it
    filled wherever it is cut off. *)
Lemma filled_always {A : Type} w0 src slot (m : Prog A) w j :
  journal w = (journal w0 ++ j)%list -> did_rename (OS.key slot) j ->
  slot_filled w0 src w slot ->
  (forall name, name ∈ bundle_files ->
                ~ outside (OS.key slot) (OS.key (GoPath.Join [slot; name]))) ->
  confined (outside (OS.key slot)) m -> Forall atom (rng w) ->
  always (slot_settled w0 src slot) m w.
Proof.
  intros Hj Hd [Hdir Hfiles] Hin Hc Hrng.
  apply (always_confined (outside (OS.key slot))); [done|done|].
  intros w' Hf' (j' & Hj' & _). exists (j ++ j')%list.
  split; [by rewrite Hj', Hj, app_assoc|]. right.
  split; [apply did_rename_app; by left|]. split.
  - rewrite Hf'; [done|]. by intros [Hne _].
  - intros name data Hname Hsrc. rewrite Hf'; auto.
Qed.

(** ** The migration of a layer given by a clean absolute path *)

Section Migration.
Context `{Collaborators}.
Variables (dir parent : string) (w0 : World).
Hypothesis Hdir : plain_dir dir.
Hypothesis Hslot : slot_empty w0 (GoPath.Join [dir; zdfsMetaDir]).

Local Abbreviation slot := (GoPath.Join [dir; zdfsMetaDir]).
Local Abbreviation src := (GoPath.Join [dir; "fs"]).
Local Abbreviation blk := (GoPath.Join [dir; "block"]).
Local Abbreviation K := (dir +:+ "/zdfsmeta").
Local Abbreviation pat := "temp_for_prepare_dadimeta".

Lemma slot_plain : slot = K /\ plain_dir K /\ OS.key slot = K.
Proof.
  destruct (plain_dir_join dir zdfsMetaDir Hdir) as [E Hp];
    [done|by apply atom_literal|].
  split; [exact E|]. split; [exact Hp|]. rewrite E. by apply plain_dir_key.
Qed.

Lemma src_plain : src = dir +:+ "/fs" /\ plain_dir (dir +:+ "/fs").
Proof. apply plain_dir_join; [done|done|by apply atom_literal]. Qed.

Lemma blk_plain : blk = dir +:+ "/block" /\ plain_dir (dir +:+ "/block").
Proof. apply plain_dir_join; [done|done|by apply atom_literal]. Qed.

Lemma tmp_plain sfx :
  atom sfx ->
  OS.temp_name dir pat sfx = dir +:+ String "/" (pat +:+ sfx)
  /\ plain_dir (dir +:+ String "/" (pat +:+ sfx)).
Proof.
  intros Hs. split; [by apply temp_name_plain|].
  apply plain_dir_join; [done|done|].
  apply atom_app; [by apply atom_literal|done].
Qed.

Lemma outside_tmp sfx :
  atom sfx -> outside K (OS.key (OS.temp_name dir pat sfx)).
Proof.
  intros Hs. destruct (tmp_plain sfx Hs) as [-> Hp].
  rewrite (plain_dir_key _ Hp). by apply outside_sibling.
Qed.

Lemma outside_tmp_member sfx name :
  atom sfx -> name ∈ bundle_files ->
  outside K (OS.key (GoPath.Join [OS.temp_name dir pat sfx; name])).
Proof.
  intros Hs Hn. destruct (tmp_plain sfx Hs) as [-> Hp].
  rewrite (member_key _ _ Hp Hn), append_assoc. by apply outside_sibling.
Qed.

Lemma outside_blk_member name :
  name ∈ bundle_files -> outside K (OS.key (GoPath.Join [blk; name])).
Proof.
  intros Hn. destruct blk_plain as [-> Hp].
  rewrite (member_key _ _ Hp Hn), append_assoc. by apply outside_sibling.
Qed.

Lemma outside_conf : outside K (OS.key (overlaybdConfPath dir)).
Proof.
  destruct (overlaybdConfPath_plain dir Hdir) as [E Hp].
  rewrite (plain_dir_key _ Hp), E. by apply outside_sibling.
Qed.

Lemma outside_conf_temp sfx :
  atom sfx ->
  outside K (OS.key (OS.atomic_temp (overlaybdConfPath dir) sfx)).
Proof.
  intros Hs. destruct (overlaybdConfPath_plain dir Hdir) as [E _].
  destruct blk_plain as [_ Hb].
  unfold OS.atomic_temp. rewrite E.
  change (dir +:+ "/block/config.v1.json")
    with (dir +:+ ("/block" +:+ String GoPath.slash "config.v1.json")).
  rewrite <- append_assoc.
  rewrite (Dir_plain _ _ Hb) by (by apply atom_literal).
  rewrite Base_plain by (by apply atom_literal || done).
  rewrite (temp_name_plain _ _ _ Hb).
  assert (plain_dir ((dir +:+ "/block")
                     +:+ String "/" ((".tmp-" +:+ "config.v1.json") +:+ sfx)))
    as Hp.
  { apply plain_dir_join; [done|done|].
    apply atom_app; [by apply atom_literal|done]. }
  rewrite (plain_dir_key _ Hp), append_assoc. by apply outside_sibling.
Qed.

Lemma slot_member name :
  name ∈ bundle_files ->
  OS.key (GoPath.Join [slot; name]) = K +:+ String GoPath.slash name
  /\ OS.below K (K +:+ String GoPath.slash name) = true.
Proof.
  intros Hn. destruct slot_plain as (-> & Hp & _).
  split; [by apply member_key|]. apply below_child.
  by apply plain_dir_not_root.
Qed.

Lemma untouched_is_settled w :
  slot_untouched w0 K w -> slot_settled w0 src slot w.
Proof.
  intros Hu. apply untouched_settled; [done|].
  destruct slot_plain as (_ & _ & ->). done.
Qed.

(** After the rename: [makeConfig] stays outside the slot. *)
Lemma makeConfig_settled w j :
  journal w = (journal w0 ++ j)%list -> did_rename K j ->
  slot_filled w0 src w slot -> Forall atom (rng w) ->
  always (slot_settled w0 src slot) (makeConfig dir parent) w.
Proof.
  intros Hj Hd Hf Hrng. destruct slot_plain as (_ & _ & EK).
  apply (filled_always w0 src slot _ w j); try done.
  - by rewrite EK.
  - intros name Hn [_ Hb]. rewrite EK in Hb.
    destruct (slot_member name Hn) as [E Hbelow]. rewrite E in Hb. congruence.
  - rewrite EK. apply confined_makeConfig;
      [apply outside_conf|apply outside_conf_temp].
Qed.

(** The rename itself: it fails and nothing changes, or it fills the
    slot with what the temporary directory holds. *)
Lemma rename_fills sfx w w' :
  atom sfx ->
  slot_untouched w0 K w ->
  files w !! OS.key (OS.temp_name dir pat sfx) = Some NDir ->
  (forall name data,
     name ∈ bundle_files ->
     files w0 !! OS.key (GoPath.Join [src; name]) = Some (NFile data) ->
     files w !! OS.key (GoPath.Join [OS.temp_name dir pat sfx; name])
     = Some (NFile data)) ->
  OS.rename w (OS.temp_name dir pat sfx) slot = (None, w') ->
  rng w' = rng w
  /\ exists j, journal w' = (journal w0 ++ j)%list /\ did_rename K j
                /\ slot_filled w0 src w' slot.
Proof.
  intros Hs [Hf (j & Hj & Hn)] Htmp Hfiles Hr.
  destruct slot_plain as (_ & Hpk & EK). destruct Hslot as [Hs0 Hb0].
  rewrite EK in Hs0, Hb0.
  apply rename_success in Hr as (Hf' & Hj' & Hrng & _).
  rewrite EK in Hf', Hj'. split; [done|].
  exists (j ++ [MRename (OS.key (OS.temp_name dir pat sfx)) K])%list.
  split; [by rewrite Hj', Hj, app_assoc|]. split.
  { eexists. apply elem_of_app. right. by apply list_elem_of_singleton. }
  assert (forall k, ~ outside K k -> files w !! k = None) as Hnone.
  { intros k Hk. rewrite (Hf k Hk).
    destruct (decide (k = K)) as [->|Hne]; [done|].
    apply Hb0. destruct (OS.below K k) eqn:E; [done|]. by destruct Hk. }
  split.
  - rewrite EK, Hf'. apply move_tree_new; [done|]. apply Hnone.
    by intros [? _].
  - intros name data Hname Hsrc. rewrite Hf'.
    destruct (slot_member name Hname) as [E Hbelow].
    specialize (Hfiles name data Hname Hsrc).
    destruct (tmp_plain sfx Hs) as [Et Hp].
    rewrite Et in Hfiles |- *. rewrite (member_key _ _ Hp Hname) in Hfiles.
    rewrite (plain_dir_key _ Hp).
    destruct slot_plain as (Es & _ & _). rewrite Es, (member_key _ _ Hpk Hname).
    apply move_tree_child; [by apply plain_dir_not_root|done|].
    apply Hnone. intros [_ Hb]. congruence.
Qed.

Lemma tmp_apart sfx name :
  atom sfx -> name ∈ bundle_files ->
  OS.key (OS.temp_name dir pat sfx) <> OS.key (GoPath.Join [src; name])
  /\ OS.key (OS.temp_name dir pat sfx)
     <> OS.key (GoPath.Join [OS.temp_name dir pat sfx; name])
  /\ OS.key (OS.temp_name dir pat sfx) <> OS.key (GoPath.Join [blk; name])
  /\ forall n, n ∈ bundle_files ->
       OS.key (GoPath.Join [OS.temp_name dir pat sfx; name])
       <> OS.key (GoPath.Join [blk; n]).
Proof.
  intros Hs Hn. destruct (tmp_plain sfx Hs) as [-> Hp].
  destruct src_plain as [-> Hps]. destruct blk_plain as [-> Hpb].
  rewrite (plain_dir_key _ Hp), (member_key _ _ Hps Hn),
    (member_key _ _ Hp Hn), (member_key _ _ Hpb Hn), !append_assoc.
  repeat split.
  - intros E. apply append_inj_l in E. vm_compute in E. discriminate.
  - intros E. apply (f_equal String.length) in E.
    rewrite !length_append in E. simpl in E. rewrite !length_append in E.
    simpl in E. lia.
  - intros E. apply append_inj_l in E. vm_compute in E. discriminate.
  - intros n Hin. rewrite (member_key _ _ Hpb Hin), !append_assoc.
    intros E. apply append_inj_l in E. vm_compute in E. discriminate.
Qed.

(** Wherever [doDir] is cut off, the slot is empty, or the rename has been
    done and the slot holds the bundle. *)
Lemma doDir_settled :
  Forall atom (rng w0) ->
  always (slot_settled w0 src slot) (doDir dir parent) w0.
Proof.
  intros Hrng. destruct slot_plain as (_ & _ & EK).
  pose proof (slot_untouched_refl w0 K) as Hu0.
  pose proof (untouched_is_settled w0 Hu0) as Hs0.
  assert (forall p, always (slot_settled w0 src slot) (pathExists p) w0)
    as Hstat.
  { intros p. apply (always_mono (slot_untouched w0 K));
      [apply untouched_is_settled|].
    apply untouched_always; [done|apply confined_pathExists|done]. }
  unfold doDir. apply always_bind; [apply Hstat|].
  intros [b e] w1. rewrite run_pathExists. intros [= Hbe <-].
  destruct Hslot as [Habs _].
  destruct (path_exists_absent _ _ Habs) as [Ea|[e' Ea]];
    rewrite Ea in Hbe; injection Hbe as <- <-; cbv beta iota;
    [|by apply always_Ret].
  apply always_bind; [apply Hstat|].
  intros [b e] w1. rewrite run_pathExists. intros [= _ <-].
  destruct b; [by apply always_Ret|].
  apply always_MkdirTemp; [done|].
  destruct (mkdir_temp_spec w0 dir pat)
    as [[kd Hk1] [(e1 & He1 & Hf1 & Hj1)|(sfx & Hin & Hr1 & _ & Hf1 & Hj1)]];
    destruct (OS.mkdir_temp w0 dir pat) as [r w1]; cbn [fst snd] in *; subst r.
  { apply always_Ret, untouched_is_settled. split; [by rewrite Hf1|].
    exists []. by rewrite app_nil_r. }
  assert (atom sfx) as Hsfx by (rewrite Forall_forall in Hrng; auto).
  assert (Forall atom (rng w1)) as Hrng1
    by (rewrite Hk1; by apply Forall_drop).
  set (tmp := OS.temp_name dir pat sfx) in *.
  assert (slot_untouched w0 K w1) as Hu1.
  { split.
    - intros k Hk. rewrite Hf1. apply lookup_insert_ne. intros <-.
      by apply Hk, outside_tmp.
    - eexists. split; [exact Hj1|]. by repeat constructor. }
  assert (files w1 !! OS.key tmp = Some NDir) as Ht1
    by (rewrite Hf1; apply lookup_insert_eq).
  assert (forall name data,
            name ∈ bundle_files ->
            files w0 !! OS.key (GoPath.Join [src; name]) = Some (NFile data) ->
            files w1 !! OS.key (GoPath.Join [src; name]) = Some (NFile data))
    as Hsrc1.
  { intros name data Hn Hd. rewrite Hf1, lookup_insert_ne; [done|].
    by apply tmp_apart. }
  (* the copy into the temporary directory *)
  assert (confined (outside K) (copyPulledZdfsMetaFiles src tmp)) as Hc1.
  { apply confined_copy_range. apply Forall_forall. intros n Hn.
    by apply outside_tmp_member. }
  pose proof (untouched_always w0 K _ w1 Hu1 Hc1 Hrng1) as Ha1.
  apply always_bind;
    [by apply (always_mono _ _ _ _ untouched_is_settled)|].
  intros r2 w2 Hrun2.
  pose proof (always_run _ _ _ Ha1) as Hu2.
  pose proof (run_atoms (copyPulledZdfsMetaFiles src tmp) w1 Hrng1) as Hrng2.
  rewrite Hrun2 in Hu2, Hrng2. cbn [fst snd] in Hu2, Hrng2.
  destruct r2 as [e2|];
    [by apply always_Ret, untouched_is_settled|].
  apply copy_range_success in Hrun2 as [Hfr2 Hcop2];
    [|apply bundle_names|apply bundle_nodup].
  assert (files w2 !! OS.key tmp = Some NDir) as Ht2.
  { rewrite Hfr2; [done|]. intros n Hn. by apply tmp_apart. }
  assert (forall name data,
            name ∈ bundle_files ->
            files w0 !! OS.key (GoPath.Join [src; name]) = Some (NFile data) ->
            files w2 !! OS.key (GoPath.Join [tmp; name]) = Some (NFile data))
    as Hfiles2.
  { intros name data Hn Hd. specialize (Hsrc1 name data Hn Hd).
    destruct (Hcop2 name Hn) as [[Hnone _]|(data' & Hsome & Hdst)];
      congruence. }
  (* the copy into the block directory *)
  assert (confined (outside K) (copyPulledZdfsMetaFiles src blk)) as Hc2.
  { apply confined_copy_range. apply Forall_forall. intros n Hn.
    by apply outside_blk_member. }
  pose proof (untouched_always w0 K _ w2 Hu2 Hc2 Hrng2) as Ha2.
  apply always_bind;
    [by apply (always_mono _ _ _ _ untouched_is_settled)|].
  intros r3 w3 Hrun3.
  pose proof (always_run _ _ _ Ha2) as Hu3.
  pose proof (run_atoms (copyPulledZdfsMetaFiles src blk) w2 Hrng2) as Hrng3.
  rewrite Hrun3 in Hu3, Hrng3. cbn [fst snd] in Hu3, Hrng3.
  destruct r3 as [e3|];
    [by apply always_Ret, untouched_is_settled|].
  apply copy_range_success in Hrun3 as [Hfr3 _];
    [|apply bundle_names|apply bundle_nodup].
  assert (files w3 !! OS.key tmp = Some NDir) as Ht3.
  { rewrite Hfr3; [done|]. intros n Hn. by apply tmp_apart. }
  assert (forall name data,
            name ∈ bundle_files ->
            files w0 !! OS.key (GoPath.Join [src; name]) = Some (NFile data) ->
            files w3 !! OS.key (GoPath.Join [tmp; name]) = Some (NFile data))
    as Hfiles3.
  { intros name data Hn Hd. rewrite Hfr3; [by apply Hfiles2|].
    intros n Hn'. by apply tmp_apart. }
  (* the rename *)
  apply always_Rename; [by apply untouched_is_settled|].
  destruct (rename_cases w3 tmp slot) as [[e4 Er]|[Er _]].
  - rewrite Er. cbn [fst snd]. by apply always_Ret, untouched_is_settled.
  - destruct (rename_fills sfx w3 _ Hsfx Hu3 Ht3 Hfiles3 Er)
      as (Hrng4 & j & Hj & Hd & Hfill).
    rewrite Er. cbn [fst snd].
    apply (makeConfig_settled _ j); try done.
Qed.

End Migration.

Section SlotClaim.
Context `{Collaborators}.

(** C3, as amended.  The metadata slot [zdfsmeta] of a layer is filled
    atomically.  On a layer, given by a clean absolute path, whose slot is
    empty (nothing at it, nothing below it), wherever [doDir] is cut off,
    after any number of operations, and however it ends, the slot is in one
    of two states.  As long as the rename of the temporary directory onto the
    slot is not among the mutations done, the slot is still empty: nothing has
    been made at it or below it.  Once the rename is among them, the slot is
    a directory that holds every file of the bundle that was a regular file
    under [fs], with the same bytes.  The slot is never seen partly
    filled. *)
Theorem migration_slot_all_or_nothing
    (dir parent : string) (w : World) (n : nat) :
  let slot := GoPath.Join [dir; zdfsMetaDir] in
  let src := GoPath.Join [dir; "fs"] in
  plain_dir dir -> Forall atom (rng w) -> slot_empty w slot ->
  slot_settled w src slot (run_upto n (doDir dir parent) w).2
  /\ slot_settled w src slot (run (doDir dir parent) w).2.
Proof.
  intros slot src Hdir Hrng Hslot.
  pose proof (doDir_settled dir parent w Hdir Hslot Hrng) as Ha.
  split; [apply Ha|by apply always_run].
Qed.

End SlotClaim.

(** A world made of a list of entries none of which is at the slot or
    below it has the slot empty. *)
Lemma slot_empty_world entries slot :
  forallb (fun kv : string * node =>
             negb (String.eqb kv.1 (OS.key slot))
             && negb (OS.below (OS.key slot) kv.1)) entries = true ->
  slot_empty (Sample.world entries) slot.
Proof.
  intros Hall. rewrite forallb_forall in Hall. split.
  - apply not_elem_of_list_to_map_1. intros Hin.
    apply list_elem_of_fmap in Hin as ([k v] & E & Hin). simpl in E.
    subst k.
    apply list_elem_of_In in Hin. specialize (Hall _ Hin). simpl in Hall.
    by rewrite String.eqb_refl in Hall.
  - intros k Hb.
    destruct (files (Sample.world entries) !! k) as [v|] eqn:E; [|done].
    simpl in E. apply elem_of_list_to_map_2 in E.
    apply list_elem_of_In in E. specialize (Hall _ E). simpl in Hall.
    rewrite Hb in Hall. by rewrite andb_false_r in Hall.
Qed.

Lemma migration_slot_all_or_nothing_witness :
  slot_empty Sample.bad_size "/s/x/zdfsmeta"
  /\ slot_settled Sample.bad_size "/s/x/fs" "/s/x/zdfsmeta"
       (run_upto 9 (doDir (H := Sample.collab) "/s/x" EmptyString)
                 Sample.bad_size).2
  /\ slot_settled Sample.bad_size "/s/x/fs" "/s/x/zdfsmeta"
       (run (doDir (H := Sample.collab) "/s/x" EmptyString) Sample.bad_size).2.
Proof.
  assert (slot_empty Sample.bad_size "/s/x/zdfsmeta") as Hs.
  { apply (slot_empty_world _ "/s/x/zdfsmeta"). vm_compute; reflexivity. }
  split; [exact Hs|].
  apply (migration_slot_all_or_nothing (H := Sample.collab) "/s/x" EmptyString
           Sample.bad_size 9).
  - apply (plain_dir_sample "x"). repeat constructor; done.
  - repeat constructor.
  - exact Hs.
Defined.
